(** * Video-Editor backend: the /create-video pipeline

    Shallow embedding of [backend/index.js]: the request handler that turns an
    ordered list of uploaded photos/videos and one recorded audio clip into a
    single video by driving the external encoder (ffmpeg) through four stages
    (per-item normalisation, concat list, concatenation, audio mux), followed
    by the clean-up that runs when the response stream closes.

    Effects are explicit: the handler is a computation over the environment
    (file system and clock) that returns a value or throws, and records the
    observable events (tool invocations, file writes, unlinks, console
    output) it performs. *)

From Stdlib Require Import String Ascii List NArith ZArith Lia Sorted Decimal DecimalString DecimalPos DecimalN.
From stdpp Require Import base option list strings gmap.

Local Open Scope string_scope.
Local Open Scope N_scope.
Local Open Scope list_scope.

(** ** JavaScript string helpers used by the handler *)

(** [s.startsWith(p)] *)
Definition startsWith (s p : string) : bool := String.prefix p s.

(** [s.replace(/c/g, by)] for a one-character pattern *)
Fixpoint replaceAll (c : ascii) (by_ : string) (s : string) : string :=
  match s with
  | EmptyString => EmptyString
  | String a rest =>
      if Ascii.eqb a c then by_ +:+ replaceAll c by_ rest
      else String a (replaceAll c by_ rest)
  end.

(** [l.join(sep)] *)
Definition join (sep : string) (l : list string) : string := String.concat sep l.

(** [path.join(dir, name)] for an already normalised [dir] and a plain name *)
Definition path_join (dir name : string) : string := dir +:+ "/" +:+ name.

(** A template literal's rendering of a non-negative integer. *)
Definition decimal (n : N) : string := NilZero.string_of_uint (N.to_uint n).

Definition LF : string := String "010"%char EmptyString.
Definition quote : ascii := "'"%char.
Definition dquote : ascii := "034"%char.

Lemma append_assoc (a b c : string) : (a +:+ b) +:+ c = a +:+ (b +:+ c).
Proof.
  induction a as [|x a IH]; [reflexivity|].
  change (String x ((a +:+ b) +:+ c) = String x (a +:+ (b +:+ c))).
  f_equal. exact IH.
Qed.

Lemma append_cons (x : ascii) (a b : string) : String x a +:+ b = String x (a +:+ b).
Proof. reflexivity. Qed.

Lemma append_nil_l (b : string) : EmptyString +:+ b = b.
Proof. reflexivity. Qed.

(** Two files below the same directory with different names are different. *)
Lemma path_join_inj (dir a b : string) : path_join dir a = path_join dir b -> a = b.
Proof.
  unfold path_join. intros H.
  apply (inj (String.append dir)) in H. injection H as H. exact H.
Qed.

Lemma path_join_nested (dir sub name : string) :
  path_join (path_join dir sub) name = path_join dir (sub +:+ "/" +:+ name).
Proof. unfold path_join. rewrite !append_assoc. reflexivity. Qed.

(** ** Data *)

(** The fields of a multer file object that the handler reads. *)
Record File := { path : string; mimetype : option string }.

(** [req.files] as multer sets it for a multipart body: each field is
    absent ([undefined]) or an array.  (For any other body multer leaves
    [req.files] unset: see [post_create_video].) *)
Record Request := { media : option (list File); audio : option (list File) }.

(** A fluent-ffmpeg command as assembled by the builder calls. *)
Record FfmpegCmd := {
  inputs : list string;
  inputOptions : list string;
  outputOptions : list string;
  videoFilters : list string;
  audioCodec : option string;
  output : string
}.

(** What a file on disk holds, as far as the pipeline can tell. *)
Record VideoStream := {
  width : N; height : N; frame_rate : N; pix_fmt : string; vcodec : string
}.

Record AudioStream := { acodec : string; channels : N }.

Record Media := {
  duration : N;                    (* milliseconds *)
  video : option VideoStream;
  audio_stream : option AudioStream
}.

Inductive Content :=
| Still (w h : N)                  (* a still image *)
| Clip (m : Media)                 (* a container with video and/or audio *)
| Text (s : string).               (* anything else, e.g. the concat list *)

Record Env := { files : gmap string Content; clock : N }.

Inductive LogArg := LStr (s : string) | LCmd (c : FfmpegCmd).

Inductive Event :=
| Ffmpeg (cmd : FfmpegCmd) (error : option string)  (* one run of the tool *)
| WriteFile (p content : string)
| Unlink (p : string)
| ConsoleLog (args : list LogArg)
| ConsoleError (args : list LogArg).

(** What the external tool did for one invocation. *)
Inductive ToolOutcome :=
| ToolEnd (out : Content) (elapsed : N)
| ToolError (err : string) (elapsed : N).

(** ** Computations: environment, exceptions, event trace *)

Inductive Outcome (A : Type) :=
| Returned (a : A)
| Thrown (err : string).
Arguments Returned {A} a.
Arguments Thrown {A} err.

Definition M (A : Type) : Type := Env -> Outcome A * Env * list Event.

Definition ret {A} (a : A) : M A := fun e => (Returned a, e, []).

Definition bind {A B} (m : M A) (k : A -> M B) : M B :=
  fun e =>
    match m e with
    | (Returned a, e1, t1) =>
        match k a e1 with
        | (o, e2, t2) => (o, e2, t1 ++ t2)
        end
    | (Thrown err, e1, t1) => (Thrown err, e1, t1)
    end.

Definition try_catch {A} (m : M A) (handler : string -> M A) : M A :=
  fun e =>
    match m e with
    | (Returned a, e1, t1) => (Returned a, e1, t1)
    | (Thrown err, e1, t1) =>
        match handler err e1 with
        | (o, e2, t2) => (o, e2, t1 ++ t2)
        end
    end.

Definition emit (ev : Event) : M unit := fun e => (Returned tt, e, [ev]).

Declare Scope m_scope.
Delimit Scope m_scope with M.
Notation "x <- m ;; k" := (bind m (fun x => k))
  (at level 100, m at next level, right associativity) : m_scope.
Notation "m ;;; k" := (bind m (fun _ => k))
  (at level 100, right associativity) : m_scope.
Local Open Scope m_scope.

(** [Date.now()] *)
Definition date_now : M N := fun e => (Returned (clock e), e, []).

(** [fs.existsSync(p)] *)
Definition existsSync (p : string) : M bool :=
  fun e => (Returned (bool_decide (is_Some (files e !! p))), e, []).

(** The message of the error [fs.unlinkSync(p)] throws when there is no
    such file. *)
Definition enoent_unlink (p : string) : string :=
  "ENOENT: no such file or directory, unlink '" +:+ p +:+ "'".

(** [fs.unlinkSync(p)]: throws when there is no such file. *)
Definition unlinkSync (p : string) : M unit :=
  fun e =>
    match files e !! p with
    | Some _ => (Returned tt, {| files := delete p (files e); clock := clock e |}, [Unlink p])
    | None => (Thrown (enoent_unlink p), e, [])
    end.

(** [fs.writeFileSync(p, content)] *)
Definition writeFileSync (p content : string) : M unit :=
  fun e => (Returned tt,
            {| files := <[p := Text content]> (files e); clock := clock e |},
            [WriteFile p content]).

Definition console_log (args : list LogArg) : M unit := emit (ConsoleLog args).
Definition console_error (args : list LogArg) : M unit := emit (ConsoleError args).

(** The event handlers registered on a command with [.on(...)]. *)
Record Handlers := {
  on_start : FfmpegCmd -> list Event;
  on_end : list Event;
  on_error : string -> list Event
}.

Definition no_logging : Handlers :=
  {| on_start := fun _ => []; on_end := []; on_error := fun _ => [] |}.

(** ** The external encoder *)

(** Modelled from the spec: the encoder (ffmpeg) is an external binary and
    not part of the repository.  The definitions of this part give the
    options that the pipeline passes the meaning the spec states for them
    (sections 3, 4.1 to 4.3 and 6): looping a still image, limiting the
    duration, frame rate, scaling and pixel format, audio and video codec,
    stream copy, the concat list and the shortest policy.  The list file is
    read with the tool's quoting rules: a backslash makes the next character
    literal and everything between two single quotes is literal. *)

Definition is_space (c : ascii) : bool :=
  (c =? " ")%char || (c =? "009")%char || (c =? "010")%char || (c =? "013")%char.

Definition is_line_end (c : ascii) : bool :=
  (c =? "010")%char || (c =? "013")%char || (c =? "000")%char.

Fixpoint split_by (sep : ascii -> bool) (s : string) : list string :=
  match s with
  | EmptyString => [EmptyString]
  | String c r =>
      if sep c then EmptyString :: split_by sep r
      else match split_by sep r with
           | l :: ls => String c l :: ls
           | [] => [String c EmptyString]
           end
  end.

Fixpoint skip_spaces (s : string) : string :=
  match s with
  | EmptyString => EmptyString
  | String c r => if is_space c then skip_spaces r else s
  end.

(** The first word of a line and what follows it. *)
Fixpoint break_word (s : string) : string * string :=
  match s with
  | EmptyString => (EmptyString, EmptyString)
  | String c r =>
      if is_space c then (EmptyString, s)
      else let '(w, rest) := break_word r in (String c w, rest)
  end.

(** Modelled from the spec: the tool's list-file reader is not in the
    repository.  One token of a list-file line, up to the first unquoted
    space: a backslash takes the next character as it is, a single quote
    opens or closes a stretch taken as it is. *)
Fixpoint get_token (quoted : bool) (s : string) : string :=
  match s with
  | EmptyString => EmptyString
  | String c r =>
      if quoted then
        if (c =? quote)%char then get_token false r
        else String c (get_token true r)
      else if (c =? "\")%char then
        match r with
        | String d r' => String d (get_token false r')
        | EmptyString => String c EmptyString
        end
      else if (c =? quote)%char then get_token true r
      else if is_space c then EmptyString
      else String c (get_token false r)
  end.

(** Modelled from the spec: the tool's list-file reader is not in the
    repository.  A line names at most one file; blank lines and comments
    name none; other directives are outside the model. *)
Definition parse_line (line : string) : option (list string) :=
  match skip_spaces line with
  | EmptyString => Some []
  | String c _ as l =>
      if (c =? "#")%char then Some []
      else
        let '(keyword, rest) := break_word l in
        if String.eqb keyword "file" then Some [get_token false (skip_spaces rest)]
        else None
  end.

Fixpoint parse_lines (ls : list string) : option (list string) :=
  match ls with
  | [] => Some []
  | l :: rest =>
      match parse_line l, parse_lines rest with
      | Some a, Some b => Some (a ++ b)
      | _, _ => None
      end
  end.

(** Modelled from the spec: the tool's list-file reader is not in the
    repository.  The files a concat list names, line by line. *)
Definition parse_manifest (body : string) : option (list string) :=
  parse_lines (split_by is_line_end body).

Fixpoint strip_prefix (p s : string) : option string :=
  match p, s with
  | EmptyString, _ => Some s
  | String a p', String b s' => if (a =? b)%char then strip_prefix p' s' else None
  | String _ _, EmptyString => None
  end.

(** The value of the first option [key value] of a list of options. *)
Fixpoint opt_value (key : string) (opts : list string) : option string :=
  match opts with
  | [] => None
  | o :: rest =>
      match strip_prefix (key +:+ " ") o with
      | Some v => Some v
      | None => opt_value key rest
      end
  end.

Definition has_flag (flag : string) (opts : list string) : bool :=
  existsb (String.eqb flag) opts.

Definition digit (c : ascii) : option N :=
  let n := N_of_ascii c in
  if (48 <=? n) && (n <=? 57) then Some (n - 48) else None.

Fixpoint parse_dec_from (acc : N) (s : string) : option N :=
  match s with
  | EmptyString => Some acc
  | String c r =>
      match digit c with
      | Some d => parse_dec_from (10 * acc + d) r
      | None => None
      end
  end.

Definition parse_dec (s : string) : option N :=
  match s with
  | EmptyString => None
  | String _ _ => parse_dec_from 0 s
  end.

(** A decoded input: its streams and how long they run ([None]: without
    end, as a looped still image). *)
Record Source := {
  src_duration : option N;
  src_video : option VideoStream;
  src_audio : option AudioStream
}.

Definition still_stream (w h : N) : VideoStream :=
  {| width := w; height := h; frame_rate := 25; pix_fmt := "rgb24"; vcodec := "image" |}.

Definition clip_source (m : Media) : Source :=
  {| src_duration := Some (duration m); src_video := video m; src_audio := audio_stream m |}.

(** Modelled from the spec: the tool's concat mode is not in the
    repository.  The segments of a concat list played one after the other:
    the durations add up, the streams are laid out as in the first
    segment. *)
Fixpoint concat_sources (fs : gmap string Content) (paths : list string)
  : string + Source :=
  match paths with
  | [] => inl "concat: no file in the list"
  | p :: rest =>
      match fs !! p with
      | Some (Clip m) =>
          match video m with
          | None => inl ("concat: no video stream in " +:+ p)
          | Some _ =>
              match rest with
              | [] => inr (clip_source m)
              | _ :: _ =>
                  match concat_sources fs rest with
                  | inl err => inl err
                  | inr s =>
                      inr {| src_duration :=
                               match src_duration s with
                               | Some d => Some (duration m + d)
                               | None => None
                               end;
                             src_video := video m;
                             src_audio := audio_stream m |}
                  end
              end
          end
      | Some _ => inl (p +:+ ": Invalid data found when processing input")
      | None => inl (p +:+ ": No such file or directory")
      end
  end.

(** Modelled from the spec: the tool's input handling is not in the
    repository.  A missing or unreadable input is an error; [-f concat]
    reads the input as a concat list; [-loop 1] repeats a still image
    without end. *)
Definition open_input (fs : gmap string Content) (inputOptions : list string)
    (p : string) : string + Source :=
  match fs !! p with
  | None => inl (p +:+ ": No such file or directory")
  | Some content =>
      if has_flag "-f concat" inputOptions then
        match content with
        | Text body =>
            match parse_manifest body with
            | Some paths => concat_sources fs paths
            | None => inl (p +:+ ": unknown directive")
            end
        | _ => inl (p +:+ ": Invalid data found when processing input")
        end
      else
        match content with
        | Still w h =>
            inr {| src_duration := if has_flag "-loop 1" inputOptions then None else Some 40;
                   src_video := Some (still_stream w h);
                   src_audio := None |}
        | Clip m => inr (clip_source m)
        | Text _ => inl (p +:+ ": Invalid data found when processing input")
        end
  end.

Fixpoint open_inputs (fs : gmap string Content) (inputOptions : list string)
    (ps : list string) : string + list Source :=
  match ps with
  | [] => inr []
  | p :: rest =>
      match open_input fs inputOptions p, open_inputs fs inputOptions rest with
      | inl err, _ => inl err
      | inr _, inl err => inl err
      | inr s, inr ss => inr (s :: ss)
      end
  end.

Definition apply_filter (f : string) (v : VideoStream) : option VideoStream :=
  match strip_prefix "scale=" f with
  | Some args =>
      match split_by (Ascii.eqb ":") args with
      | [w; h] =>
          match parse_dec w, parse_dec h with
          | Some w, Some h =>
              Some {| width := w; height := h; frame_rate := frame_rate v;
                      pix_fmt := pix_fmt v; vcodec := vcodec v |}
          | _, _ => None
          end
      | _ => None
      end
  | None =>
      match strip_prefix "format=" f with
      | Some fmt =>
          Some {| width := width v; height := height v; frame_rate := frame_rate v;
                  pix_fmt := fmt; vcodec := vcodec v |}
      | None => None
      end
  end.

Fixpoint apply_filters (fs : list string) (v : VideoStream) : option VideoStream :=
  match fs with
  | [] => Some v
  | f :: rest =>
      match apply_filter f v with
      | Some v' => apply_filters rest v'
      | None => None
      end
  end.

Definition filter_chain (cmd : FfmpegCmd) : list string :=
  flat_map (split_by (Ascii.eqb ",")) (videoFilters cmd).

Definition with_rate (r : option string) (v : VideoStream) : option VideoStream :=
  match r with
  | None => Some v
  | Some s =>
      match parse_dec s with
      | Some n => Some {| width := width v; height := height v; frame_rate := n;
                          pix_fmt := pix_fmt v; vcodec := vcodec v |}
      | None => None
      end
  end.

(** Modelled from the spec: the tool's encoder is not in the repository.
    The video stream written for a decoded one: copied as it is under
    [-c:v copy], otherwise filtered ([scale], [format]), given the pixel
    format of [-pix_fmt] and the frame rate of [-r], and encoded again. *)
Definition encode_video (cmd : FfmpegCmd) (v : VideoStream) : option VideoStream :=
  let codec := opt_value "-c:v" (outputOptions cmd) in
  if bool_decide (codec = Some "copy") then Some v
  else
    match apply_filters (filter_chain cmd) v with
    | None => None
    | Some v1 =>
        let fmt := default (pix_fmt v1) (opt_value "-pix_fmt" (outputOptions cmd)) in
        with_rate (opt_value "-r" (outputOptions cmd))
          {| width := width v1; height := height v1; frame_rate := frame_rate v1;
             pix_fmt := fmt; vcodec := default "libx264" codec |}
    end.

Definition with_codec (c : string) (a : AudioStream) : AudioStream :=
  {| acodec := c; channels := channels a |}.

(** Modelled from the spec: the tool's encoder is not in the repository.
    The sound written for a decoded one: in the codec asked for, AAC by
    default, with the channels it had. *)
Definition encode_audio (cmd : FfmpegCmd) (a : AudioStream) : AudioStream :=
  let codec := match audioCodec cmd with
               | Some c => Some c
               | None => opt_value "-c:a" (outputOptions cmd)
               end in
  match codec with
  | Some c => if String.eqb c "copy" then a else with_codec c a
  | None => with_codec "aac" a
  end.

(** Modelled from the spec: the tool's stream selection is not in the
    repository, and the spec does not say which sound is written when
    several inputs carry one and no option maps the streams.  The tool's
    own rule stands in: of the sounds of all inputs the one with the most
    channels, and the first of these when several have as many. *)
Fixpoint best_audio (srcs : list Source) : option Source :=
  match srcs with
  | [] => None
  | s :: rest =>
      match src_audio s with
      | None => best_audio rest
      | Some a =>
          match best_audio rest with
          | Some s' =>
              match src_audio s' with
              | Some a' => if channels a <? channels a' then Some s' else Some s
              | None => Some s
              end
          | None => Some s
          end
      end
  end.

(** The inputs a stream of the output is taken from: the first input for
    the video, [sound] for the sound. *)
Definition stream_inputs (first : Source) (sound : option Source) : list Source :=
  match src_video first with Some _ => [first] | None => [] end ++
  match sound with Some s => [s] | None => [] end.

Definition shortest (ds : list (option N)) : option N :=
  fold_right (fun d acc =>
                match d, acc with
                | Some x, Some y => Some (N.min x y)
                | Some x, None => Some x
                | None, _ => acc
                end) None ds.

Definition longest (ds : list (option N)) : option N :=
  fold_right (fun d acc =>
                match d, acc with
                | Some x, Some y => Some (N.max x y)
                | _, _ => None
                end) (Some 0) ds.

(** Modelled from the spec: the tool's muxer is not in the repository.  How
    long the output runs, in milliseconds, given the inputs its streams are
    taken from: as long as the longest of them, or the shortest one under
    [-shortest], and no longer than [-t] seconds; [inl] when it would not
    end. *)
Definition out_duration (cmd : FfmpegCmd) (srcs : list Source) : string + N :=
  let ds := map src_duration srcs in
  let base := if has_flag "-shortest" (outputOptions cmd) then shortest ds else longest ds in
  match opt_value "-t" (outputOptions cmd) with
  | Some s =>
      match parse_dec s with
      | Some secs =>
          inr (match base with
               | Some d => N.min d (secs * 1000)
               | None => secs * 1000
               end)
      | None => inl "Invalid duration"
      end
  | None =>
      match base with
      | Some d => inr d
      | None => inl "the output has no end"
      end
  end.

(** Modelled from the spec: the encoder binary is not in the repository.
    One run of it: the video of the first input and, of the sounds of all
    inputs, the one [best_audio] names, encoded as the options say; the
    output runs as long as the inputs these two streams come from allow
    (an input none of whose streams is written does not count).  In the
    runs of the pipeline only the first input has video as long as the
    audio upload is a recording; the tool's choice among several videos is
    not modelled. *)
Definition ffmpeg_model (cmd : FfmpegCmd) (e : Env) : ToolOutcome :=
  match open_inputs (files e) (inputOptions cmd) (inputs cmd) with
  | inl err => ToolError err 1
  | inr [] => ToolError "no input" 1
  | inr (first :: others) =>
      let sound := best_audio (first :: others) in
      match out_duration cmd (stream_inputs first sound) with
      | inl err => ToolError err 1
      | inr d =>
          match src_video first with
          | Some v =>
              match encode_video cmd v with
              | Some v' =>
                  ToolEnd (Clip {| duration := d; video := Some v';
                                   audio_stream :=
                                     encode_audio cmd <$> (sound ≫= src_audio) |}) 1
              | None => ToolError "Error initializing filters" 1
              end
          | None =>
              match sound ≫= src_audio with
              | Some a =>
                  ToolEnd (Clip {| duration := d; video := None;
                                   audio_stream := Some (encode_audio cmd a) |}) 1
              | None => ToolError "Output file does not contain any stream" 1
              end
          end
      end
  end.

Section Pipeline.

(** [__dirname] of the backend. *)
Variable dirname : string.

(** The encoder binary: for a command and the current environment it either
    ends with the content of the output file or fails with an error. *)
Variable ffmpeg_bin : FfmpegCmd -> Env -> ToolOutcome.

Definition uploadFolder : string := path_join dirname "uploads".
Definition tempFolder : string := path_join dirname "temp".
Definition outputFolder : string := path_join dirname "outputs".

(** [new Promise(... cmd.on("end", resolve).on("error", reject).save(output))],
    awaited: resolves once the tool has written [output], rejects with the
    tool's error. *)
Definition save (cmd : FfmpegCmd) (h : Handlers) : M unit :=
  fun e =>
    match ffmpeg_bin cmd e with
    | ToolEnd c dt =>
        (Returned tt,
         {| files := <[output cmd := c]> (files e); clock := clock e + dt |},
         on_start h cmd ++ Ffmpeg cmd None :: on_end h)
    | ToolError err dt =>
        (Thrown err,
         {| files := files e; clock := clock e + dt |},
         on_start h cmd ++ Ffmpeg cmd (Some err) :: on_error h err)
    end.

Definition image_cmd (inputPath outputPath : string) : FfmpegCmd :=
  {| inputs := [inputPath];
     inputOptions := ["-loop 1"];
     outputOptions := ["-t 3"; "-r 30"];
     videoFilters := ["scale=1280:720,format=yuv420p"];
     audioCodec := None;
     output := outputPath |}.

Definition video_cmd (inputPath outputPath : string) : FfmpegCmd :=
  {| inputs := [inputPath];
     inputOptions := [];
     outputOptions := ["-r 30"];
     videoFilters := ["scale=1280:720,format=yuv420p"];
     audioCodec := Some "aac";
     output := outputPath |}.

Definition concat_cmd (concatListPath mergedVideoPath : string) : FfmpegCmd :=
  {| inputs := [concatListPath];
     inputOptions := ["-f concat"; "-safe 0"];
     outputOptions := ["-c:v libx264"; "-pix_fmt yuv420p"; "-r 30"];
     videoFilters := [];
     audioCodec := None;
     output := mergedVideoPath |}.

Definition mux_cmd (mergedVideoPath audioPath outputPath : string) : FfmpegCmd :=
  {| inputs := [mergedVideoPath; audioPath];
     inputOptions := [];
     outputOptions := ["-c:v copy"; "-c:a aac"; "-shortest"];
     videoFilters := [];
     audioCodec := None;
     output := outputPath |}.

Definition img_path (now : N) (index : nat) : string :=
  path_join tempFolder ("img-" +:+ decimal now +:+ "-" +:+ decimal (N.of_nat index) +:+ ".mp4").

Definition vid_path (now : N) (index : nat) : string :=
  path_join tempFolder ("vid-" +:+ decimal now +:+ "-" +:+ decimal (N.of_nat index) +:+ ".mp4").

(** Helper: create video from image (3 seconds) *)
Definition createVideoFromImage (inputPath : string) (index : nat) : M string :=
  now <- date_now ;;
  let outputPath := img_path now index in
  save (image_cmd inputPath outputPath) no_logging ;;;
  ret outputPath.

(** Helper: normalize video to uniform format/size *)
Definition normalizeVideo (inputPath : string) (index : nat) : M string :=
  now <- date_now ;;
  let outputPath := vid_path now index in
  save (video_cmd inputPath outputPath) no_logging ;;;
  ret outputPath.

(** Body of the [for] loop at index [i]; returns [segmentPaths] after it. *)
Definition normalize_item (i : nat) (file : File) (segmentPaths : list string)
  : M (list string) :=
  let mime := default EmptyString (mimetype file) in
  if startsWith mime "image/" then
    seg <- createVideoFromImage (path file) i ;;
    ret (segmentPaths ++ [seg])
  else if startsWith mime "video/" then
    seg <- normalizeVideo (path file) i ;;
    ret (segmentPaths ++ [seg])
  else
    console_log [LStr "Skipping unsupported file type:"; LStr mime] ;;;
    ret segmentPaths.

(** [for (let i = ...; i < mediaFiles.length; i++)] over the files from [i] on. *)
Fixpoint normalize_loop (i : nat) (mediaFiles : list File) (segmentPaths : list string)
  : M (list string) :=
  match mediaFiles with
  | [] => ret segmentPaths
  | file :: rest =>
      segmentPaths' <- normalize_item i file segmentPaths ;;
      normalize_loop (S i) rest segmentPaths'
  end.

(** One line of the concat list. *)
Definition manifest_line (p : string) : string :=
  "file '" +:+ replaceAll quote "'\''" p +:+ "'".

Definition concatFileContent (segmentPaths : list string) : string :=
  join LF (map manifest_line segmentPaths).

Definition concat_handlers (mergedVideoPath : string) : Handlers :=
  {| on_start := fun cmd => [ConsoleLog [LStr "FFmpeg concat cmd:"; LCmd cmd]];
     on_end := [ConsoleLog [LStr "Concatenation finished:"; LStr mergedVideoPath]];
     on_error := fun err => [ConsoleError [LStr "FFmpeg concat error:"; LStr err]] |}.

Definition mux_handlers (outputPath : string) : Handlers :=
  {| on_start := fun cmd => [ConsoleLog [LStr "FFmpeg merge cmd:"; LCmd cmd]];
     on_end := [ConsoleLog [LStr "Final merge finished:"; LStr outputPath]];
     on_error := fun err => [ConsoleError [LStr "FFmpeg merge error:"; LStr err]] |}.

(** What the ["close"] listener of the read stream has captured. *)
Record Delivery := {
  outputPath : string;
  audioFile : File;
  mediaFiles : list File;
  segmentPaths : list string;
  concatListPath : string
}.

Inductive Handled :=
| Replied (status : nat) (error : string)   (* res.status(status).json({ error }) *)
| Streaming (headers : list (string * string)) (d : Delivery).

Definition download_headers : list (string * string) :=
  [("Content-Type", "video/mp4");
   ("Content-Disposition", "attachment; filename=" +:+ String dquote ("final-video.mp4" +:+ String dquote EmptyString))].

(** [l.forEach((p) => { fs.existsSync(p) && fs.unlinkSync(p); })] *)
Fixpoint unlink_existing (l : list string) : M unit :=
  match l with
  | [] => ret tt
  | p :: rest =>
      b <- existsSync p ;;
      (if b : bool then unlinkSync p else ret tt) ;;;
      unlink_existing rest
  end.

(** The ["close"] listener: optional cleanup after response. *)
Definition on_close (d : Delivery) : M unit :=
  try_catch
    (unlinkSync (path (audioFile d)) ;;;
     unlink_existing (map path (mediaFiles d)) ;;;
     unlink_existing (segmentPaths d) ;;;
     unlink_existing [concatListPath d])
    (fun e => console_error [LStr "Cleanup error:"; LStr e]).

(** Steps 2 to 5 of the [try] block, once [segmentPaths] is non-empty. *)
Definition concat_and_mux (mediaFiles : list File) (audioFile : File)
    (segmentPaths : list string) : M Handled :=
  now <- date_now ;;
  let concatListPath := path_join tempFolder ("concat-list-" +:+ decimal now +:+ ".txt") in
  writeFileSync concatListPath (concatFileContent segmentPaths) ;;;
  now <- date_now ;;
  let mergedVideoPath := path_join tempFolder ("merged-" +:+ decimal now +:+ ".mp4") in
  save (concat_cmd concatListPath mergedVideoPath) (concat_handlers mergedVideoPath) ;;;
  now <- date_now ;;
  let outputFileName := "final-" +:+ decimal now +:+ ".mp4" in
  let outputPath := path_join outputFolder outputFileName in
  save (mux_cmd mergedVideoPath (path audioFile) outputPath) (mux_handlers outputPath) ;;;
  ret (Streaming download_headers
         {| outputPath := outputPath;
            audioFile := audioFile;
            mediaFiles := mediaFiles;
            segmentPaths := segmentPaths;
            concatListPath := concatListPath |}).

(** The [try] block of the handler. *)
Definition process (mediaFiles : list File) (audioFile : File) : M Handled :=
  segmentPaths <- normalize_loop 0 mediaFiles [] ;;
  match segmentPaths with
  | [] => ret (Replied 400 "No valid media (image/video) files to process.")
  | _ :: _ => concat_and_mux mediaFiles audioFile segmentPaths
  end.

(** POST /create-video *)
Definition create_video (req : Request) : M Handled :=
  match media req with
  | None | Some [] => ret (Replied 400 "No media files received.")
  | Some (m :: ms) =>
      match audio req with
      | None | Some [] => ret (Replied 400 "No audio file received.")
      | Some (audioFile :: _) =>
          try_catch
            (process (m :: ms) audioFile)
            (fun err =>
               console_error [LStr "Error in /create-video:"; LStr err] ;;;
               ret (Replied 500 "Failed to create video."))
      end
  end.

(** A whole request: the handler, then, once the response stream has been
    piped and closes, the clean-up listener. *)
Definition serve (req : Request) : M Handled :=
  h <- create_video req ;;
  match h with
  | Streaming _ d => on_close d ;;; ret h
  | Replied _ _ => ret h
  end.

(** ** Classifying events and media items *)

Definition is_unlink (ev : Event) : Prop :=
  match ev with Unlink _ => True | _ => False end.

Definition is_write (ev : Event) : Prop :=
  match ev with WriteFile _ _ => True | _ => False end.

Definition is_tool (ev : Event) : Prop :=
  match ev with Ffmpeg _ _ => True | _ => False end.

Definition is_failure (ev : Event) : Prop :=
  match ev with Ffmpeg _ (Some _) => True | _ => False end.

Definition is_console (ev : Event) : Prop :=
  match ev with ConsoleLog _ | ConsoleError _ => True | _ => False end.

Inductive Kind := Image | Video.

(** The branch of the loop body an item takes. *)
Definition kind_of (file : File) : option Kind :=
  let mime := default EmptyString (mimetype file) in
  if startsWith mime "image/" then Some Image
  else if startsWith mime "video/" then Some Video
  else None.

(** The supported items of a list with their ordinals, counted from [i]. *)
Fixpoint classify (i : nat) (ms : list File) : list (nat * Kind * File) :=
  match ms with
  | [] => []
  | f :: rest =>
      match kind_of f with
      | Some k => (i, k, f) :: classify (S i) rest
      | None => classify (S i) rest
      end
  end.

Definition skip_log (f : File) : Event :=
  ConsoleLog [LStr "Skipping unsupported file type:";
              LStr (default EmptyString (mimetype f))].

Definition item_cmd (k : Kind) : string -> string -> FfmpegCmd :=
  match k with Image => image_cmd | Video => video_cmd end.

Definition seg_path (k : Kind) : N -> nat -> string :=
  match k with Image => img_path | Video => vid_path end.

(** The segment a supported item is turned into, in a run with events [t]:
    its path carries the item's ordinal, and it was written by a run of the
    tool that read the item's upload. *)
Definition segment_of (t : list Event) (x : nat * Kind * File) (seg : string) : Prop :=
  match x with
  | (i, k, f) =>
      (exists now, seg = seg_path k now i) /\
      Ffmpeg (item_cmd k (path f) seg) None ∈ t
  end.

Lemma segment_of_mono t t' x seg :
  (forall ev, ev ∈ t -> ev ∈ t') -> segment_of t x seg -> segment_of t' x seg.
Proof.
  destruct x as [[i k] f]. intros Hsub [Hp Hev]. split; [exact Hp | apply Hsub, Hev].
Qed.

Lemma segments_mono t t' items segs :
  (forall ev, ev ∈ t -> ev ∈ t') ->
  Forall2 (segment_of t) items segs -> Forall2 (segment_of t') items segs.
Proof.
  intros Hsub H. eapply Forall2_impl; [exact H|].
  intros x seg. apply segment_of_mono, Hsub.
Qed.

Lemma bind_Returned {A B} (m : M A) (k : A -> M B) e a e1 t1 :
  m e = (Returned a, e1, t1) ->
  bind m k e = (let '(o, e2, t2) := k a e1 in (o, e2, t1 ++ t2)).
Proof. intros H. unfold bind. rewrite H. reflexivity. Qed.

Lemma bind_Thrown {A B} (m : M A) (k : A -> M B) e err e1 t1 :
  m e = (Thrown err, e1, t1) -> bind m k e = (Thrown err, e1, t1).
Proof. intros H. unfold bind. rewrite H. reflexivity. Qed.

(** An unsupported item: nothing but the console line. *)
Lemma normalize_item_skip i f segs e :
  kind_of f = None ->
  normalize_item i f segs e = (Returned segs, e, [skip_log f]).
Proof.
  unfold kind_of, normalize_item. intros H.
  destruct (startsWith _ "image/"); [discriminate|].
  destruct (startsWith _ "video/"); [discriminate|].
  reflexivity.
Qed.

Lemma normalize_loop_all_skipped ms : forall i segs e,
  Forall (fun f => kind_of f = None) ms ->
  normalize_loop i ms segs e = (Returned segs, e, map skip_log ms).
Proof.
  induction ms as [|f ms IH]; intros i segs e Hall; [reflexivity|].
  inversion Hall as [|? ? Hf Hrest]; subst.
  cbn [normalize_loop].
  rewrite (bind_Returned _ _ _ _ _ _ (normalize_item_skip i f segs e Hf)).
  rewrite (IH (S i) segs e Hrest). reflexivity.
Qed.


Definition tick (e : Env) (dt : N) : Env :=
  {| files := files e; clock := clock e + dt |}.

Definition put (p : string) (c : Content) (e : Env) : Env :=
  {| files := <[p := c]> (files e); clock := clock e |}.

(** A supported item: one run of the tool on the item's upload. *)
Lemma normalize_item_supported i f k segs e :
  kind_of f = Some k ->
  let seg := seg_path k (clock e) i in
  let cmd := item_cmd k (path f) seg in
  normalize_item i f segs e =
    match ffmpeg_bin cmd e with
    | ToolEnd c dt => (Returned (segs ++ [seg]), tick (put seg c e) dt, [Ffmpeg cmd None])
    | ToolError err dt => (Thrown err, tick e dt, [Ffmpeg cmd (Some err)])
    end.
Proof.
  unfold kind_of, normalize_item. intros H.
  destruct (startsWith _ "image/").
  - injection H as <-. cbn.
    unfold createVideoFromImage, bind, date_now, save, ret. cbn.
    destruct (ffmpeg_bin _ e); reflexivity.
  - destruct (startsWith _ "video/"); [|discriminate].
    injection H as <-. cbn.
    unfold normalizeVideo, bind, date_now, save, ret. cbn.
    destruct (ffmpeg_bin _ e); reflexivity.
Qed.

(** Steps 2 to 5 evaluated: where each tool run can end. *)
Lemma concat_and_mux_run ms a segs e :
  let clp := path_join tempFolder ("concat-list-" +:+ decimal (clock e) +:+ ".txt") in
  let body := concatFileContent segs in
  let e2 := put clp (Text body) e in
  let merged := path_join tempFolder ("merged-" +:+ decimal (clock e) +:+ ".mp4") in
  let cmd1 := concat_cmd clp merged in
  concat_and_mux ms a segs e =
    match ffmpeg_bin cmd1 e2 with
    | ToolError err dt =>
        (Thrown err, tick e2 dt,
         [WriteFile clp body;
          ConsoleLog [LStr "FFmpeg concat cmd:"; LCmd cmd1];
          Ffmpeg cmd1 (Some err);
          ConsoleError [LStr "FFmpeg concat error:"; LStr err]])
    | ToolEnd c dt =>
        let e3 := tick (put merged c e2) dt in
        let out := path_join outputFolder ("final-" +:+ decimal (clock e3) +:+ ".mp4") in
        let cmd2 := mux_cmd merged (path a) out in
        match ffmpeg_bin cmd2 e3 with
        | ToolError err dt' =>
            (Thrown err, tick e3 dt',
             [WriteFile clp body;
              ConsoleLog [LStr "FFmpeg concat cmd:"; LCmd cmd1];
              Ffmpeg cmd1 None;
              ConsoleLog [LStr "Concatenation finished:"; LStr merged];
              ConsoleLog [LStr "FFmpeg merge cmd:"; LCmd cmd2];
              Ffmpeg cmd2 (Some err);
              ConsoleError [LStr "FFmpeg merge error:"; LStr err]])
        | ToolEnd c' dt' =>
            (Returned (Streaming download_headers
                         {| outputPath := out; audioFile := a; mediaFiles := ms;
                            segmentPaths := segs; concatListPath := clp |}),
             tick (put out c' e3) dt',
             [WriteFile clp body;
              ConsoleLog [LStr "FFmpeg concat cmd:"; LCmd cmd1];
              Ffmpeg cmd1 None;
              ConsoleLog [LStr "Concatenation finished:"; LStr merged];
              ConsoleLog [LStr "FFmpeg merge cmd:"; LCmd cmd2];
              Ffmpeg cmd2 None;
              ConsoleLog [LStr "Final merge finished:"; LStr out]])
        end
    end.
Proof.
  intros clp body e2 merged cmd1.
  unfold concat_and_mux, bind, date_now, writeFileSync, save, ret.
  subst e2 cmd1. unfold tick, put. cbn [clock files output concat_cmd mux_cmd].
  destruct (ffmpeg_bin _ _) as [c dt|err dt]; [|reflexivity].
  cbn [clock files output concat_cmd mux_cmd].
  destruct (ffmpeg_bin _ _) as [c' dt'|err dt']; reflexivity.
Qed.


Definition no_failure (t : list Event) : Prop := Forall (fun ev => ~ is_failure ev) t.
Definition no_unlink (t : list Event) : Prop := Forall (fun ev => ~ is_unlink ev) t.
Definition no_write (t : list Event) : Prop := Forall (fun ev => ~ is_write ev) t.

(** Nothing that was on disk before has disappeared. *)
Definition keeps_files (e e' : Env) : Prop :=
  forall p, is_Some (files e !! p) -> is_Some (files e' !! p).

Lemma keeps_files_refl e : keeps_files e e.
Proof. intros p H. exact H. Qed.

Lemma keeps_files_trans e1 e2 e3 :
  keeps_files e1 e2 -> keeps_files e2 e3 -> keeps_files e1 e3.
Proof. intros H1 H2 p H. apply H2, H1, H. Qed.

Lemma keeps_files_put p c e : keeps_files e (put p c e).
Proof.
  intros q H. unfold put. cbn.
  destruct (decide (p = q)) as [->|Hne].
  - rewrite lookup_insert_eq. eauto.
  - rewrite lookup_insert_ne by exact Hne. exact H.
Qed.

Lemma keeps_files_tick e dt : keeps_files e (tick e dt).
Proof. intros q H. exact H. Qed.

(** What the loop does from ordinal [i] on: it only runs the tool and
    logs; on return every supported item has its segment, in order; on
    a throw the failed run is the last event. *)
Lemma normalize_loop_spec ms : forall i segs e o e' t,
  normalize_loop i ms segs e = (o, e', t) ->
  Forall (fun ev => is_tool ev \/ is_console ev) t /\
  keeps_files e e' /\
  match o with
  | Returned segs' =>
      no_failure t /\
      exists new, segs' = segs ++ new /\ Forall2 (segment_of t) (classify i ms) new
  | Thrown err =>
      exists pre cmd, t = pre ++ [Ffmpeg cmd (Some err)] /\ no_failure pre
  end.
Proof.
  induction ms as [|f ms IH]; intros i segs e o e' t H.
  - cbn in H. injection H as <- <- <-.
    repeat split; [constructor | apply keeps_files_refl | constructor |].
    exists []. rewrite app_nil_r. split; [reflexivity | constructor].
  - cbn [normalize_loop classify] in *. unfold bind in H.
    destruct (kind_of f) as [k|] eqn:Hk.
    + rewrite (normalize_item_supported i f k segs e Hk) in H. cbv zeta in H.
      set (seg := seg_path k (clock e) i) in *.
      destruct (ffmpeg_bin _ e) as [c dt|err dt].
      * destruct (normalize_loop (S i) ms _ _) as [[o1 e1] t1] eqn:Hr.
        injection H as <- <- <-.
        destruct (IH _ _ _ _ _ _ Hr) as (Ht & Hk1 & Ho).
        split; [constructor; [left; exact I | exact Ht]|].
        split.
        { eapply keeps_files_trans; [|exact Hk1].
          eapply keeps_files_trans; [apply keeps_files_put | apply keeps_files_tick]. }
        destruct o1 as [segs'|err].
        -- destruct Ho as (Hnf & new & -> & HF).
           split; [constructor; [intros [] | exact Hnf]|].
           exists (seg :: new). rewrite <- app_assoc. split; [reflexivity|].
           constructor.
           ++ split; [eexists; reflexivity | left].
           ++ eapply segments_mono; [|exact HF]. intros ev Hev. right. exact Hev.
        -- destruct Ho as (pre & cmd & -> & Hnf).
           exists (Ffmpeg (item_cmd k (path f) seg) None :: pre), cmd.
           split; [reflexivity|]. constructor; [intros [] | exact Hnf].
      * injection H as <- <- <-.
        split; [constructor; [left; exact I | constructor]|].
        split; [apply keeps_files_tick|].
        exists [], (item_cmd k (path f) seg). split; [reflexivity | constructor].
    + rewrite (normalize_item_skip i f segs e Hk) in H.
      destruct (normalize_loop (S i) ms _ _) as [[o1 e1] t1] eqn:Hr.
      injection H as <- <- <-.
      destruct (IH _ _ _ _ _ _ Hr) as (Ht & Hk1 & Ho).
      split; [constructor; [right; exact I | exact Ht]|].
      split; [exact Hk1|].
      destruct o1 as [segs'|err].
      * destruct Ho as (Hnf & new & -> & HF).
        split; [constructor; [intros [] | exact Hnf]|].
        exists new. split; [reflexivity|].
        eapply segments_mono; [|exact HF]. intros ev Hev. right. exact Hev.
      * destruct Ho as (pre & cmd & -> & Hnf).
        exists (skip_log f :: pre), cmd.
        split; [reflexivity|]. constructor; [intros [] | exact Hnf].
Qed.


Lemma classify_elem ms : forall i j k f,
  (j, k, f) ∈ classify i ms <->
  exists n, j = (i + n)%nat /\ ms !! n = Some f /\ kind_of f = Some k.
Proof.
  induction ms as [|g ms IH]; intros i j k f; cbn [classify].
  - split; [intros H; inversion H | intros (n & _ & H & _); discriminate].
  - assert (Hrest : (j, k, f) ∈ classify (S i) ms <->
                    exists n, j = (i + S n)%nat /\ ms !! n = Some f /\ kind_of f = Some k).
    { rewrite IH. split; intros (n & -> & H); exists n; (split; [lia | exact H]). }
    destruct (kind_of g) as [kg|] eqn:Hg.
    + rewrite elem_of_cons, Hrest. split.
      * intros [Heq | (n & -> & H)].
        -- injection Heq as -> -> ->. exists 0%nat. repeat split; [lia | exact Hg].
        -- exists (S n). split; [reflexivity | exact H].
      * intros ([|n] & -> & Hl & Hkf).
        -- cbn in Hl. injection Hl as <-. left.
           rewrite Hg in Hkf. injection Hkf as ->. f_equal. f_equal. lia.
        -- right. exists n. repeat split; assumption.
    + rewrite Hrest. split.
      * intros (n & -> & H). exists (S n). split; [reflexivity | exact H].
      * intros ([|n] & -> & Hl & Hkf).
        -- cbn in Hl. injection Hl as <-. congruence.
        -- exists n. repeat split; assumption.
Qed.

Definition ordinal (x : nat * Kind * File) : nat := fst (fst x).

Lemma classify_increasing ms : forall i,
  StronglySorted lt (map ordinal (classify i ms)) /\
  Forall (fun j => (i <= j)%nat) (map ordinal (classify i ms)).
Proof.
  induction ms as [|g ms IH]; intros i; cbn [classify].
  - split; constructor.
  - destruct (IH (S i)) as [Hs Hb].
    assert (Hb' : Forall (fun j => (i <= j)%nat) (map ordinal (classify (S i) ms))).
    { eapply Forall_impl; [exact Hb | cbn; intros; lia]. }
    destruct (kind_of g); [|split; assumption].
    cbn [map ordinal fst]. split.
    + constructor; [exact Hs|]. eapply Forall_impl; [exact Hb | cbn; intros; lia].
    + constructor; [lia | exact Hb'].
Qed.

(** *** Clean-up *)

(** The paths the ["close"] listener tries to remove. *)
Definition doomed (d : Delivery) : list string :=
  path (audioFile d) :: map path (mediaFiles d) ++ segmentPaths d ++ [concatListPath d].

Definition unlinks_within (l : list string) (t : list Event) : Prop :=
  Forall (fun ev => is_console ev \/ exists p, ev = Unlink p /\ p ∈ l) t.

Lemma unlinks_within_app l t1 t2 :
  unlinks_within l t1 -> unlinks_within l t2 -> unlinks_within l (t1 ++ t2).
Proof. apply Forall_app_2. Qed.

Lemma unlinks_within_mono l l' t :
  (forall p, p ∈ l -> p ∈ l') -> unlinks_within l t -> unlinks_within l' t.
Proof.
  intros Hsub Ht. eapply Forall_impl; [exact Ht|].
  intros ev [H | (p & -> & Hp)]; [left; exact H|].
  right. exists p. split; [reflexivity | apply Hsub, Hp].
Qed.

(** [forEach] with the [existsSync] guard never throws and removes
    exactly the listed paths. *)
Lemma unlink_existing_spec l : forall e,
  exists e' t,
    unlink_existing l e = (Returned tt, e', t) /\
    clock e' = clock e /\
    (forall p, files e' !! p = if decide (p ∈ l) then None else files e !! p) /\
    unlinks_within l t.
Proof.
  induction l as [|q l IH]; intros e.
  - exists e, []. split; [reflexivity|]. split; [reflexivity|]. split; [|constructor].
    intros p. destruct (decide (p ∈ [])) as [H|_]; [inversion H | reflexivity].
  - cbn [unlink_existing]. unfold bind, existsSync, unlinkSync, ret.
    destruct (files e !! q) as [c|] eqn:Hq.
    + rewrite bool_decide_eq_true_2 by eauto. cbn beta iota. rewrite Hq.
      destruct (IH {| files := delete q (files e); clock := clock e |}) as (e' & t & Hrun & Hc & Hf & Ht).
      rewrite Hrun. exists e', (Unlink q :: t).
      split; [reflexivity|]. split; [exact Hc|]. split.
      * intros p. rewrite Hf. cbn [files].
        destruct (decide (p ∈ l)) as [Hin|Hnin].
        -- rewrite decide_True by (right; exact Hin). reflexivity.
        -- destruct (decide (p = q)) as [->|Hne].
           ++ rewrite decide_True by left. apply lookup_delete_eq.
           ++ rewrite decide_False by (rewrite elem_of_cons; tauto).
              apply lookup_delete_ne. congruence.
      * constructor.
        -- right. exists q. split; [reflexivity | left].
        -- eapply unlinks_within_mono; [|exact Ht]. intros p Hp. right. exact Hp.
    + rewrite bool_decide_eq_false_2 by (intros [? ?]; discriminate).
      cbn beta iota.
      destruct (IH e) as (e' & t & Hrun & Hc & Hf & Ht).
      rewrite Hrun. exists e', t.
      split; [reflexivity|]. split; [exact Hc|]. split.
      * intros p. rewrite Hf.
        destruct (decide (p ∈ l)) as [Hin|Hnin].
        -- rewrite decide_True by (right; exact Hin). reflexivity.
        -- destruct (decide (p = q)) as [->|Hne].
           ++ rewrite decide_True by left. exact Hq.
           ++ rewrite decide_False by (rewrite elem_of_cons; tauto). reflexivity.
      * eapply unlinks_within_mono; [|exact Ht]. intros p Hp. right. exact Hp.
Qed.


Lemma bind_assoc {A B C} (m : M A) (f : A -> M B) (g : B -> M C) e :
  bind (bind m f) g e = bind m (fun x => bind (f x) g) e.
Proof.
  unfold bind.
  destruct (m e) as [[[a|err] e1] t1]; [|reflexivity].
  destruct (f a e1) as [[[b|err] e2] t2]; [|reflexivity].
  destruct (g b e2) as [[o e3] t3]. rewrite app_assoc. reflexivity.
Qed.

Lemma bind_ext {A B} (m : M A) (f g : A -> M B) e :
  (forall a e1, f a e1 = g a e1) -> bind m f e = bind m g e.
Proof.
  intros H. unfold bind.
  destruct (m e) as [[[a|err] e1] t1]; [|reflexivity].
  rewrite H. reflexivity.
Qed.

(** Two [forEach] passes in a row behave as one pass over both lists. *)
Lemma unlink_existing_app l1 l2 : forall e,
  bind (unlink_existing l1) (fun _ => unlink_existing l2) e = unlink_existing (l1 ++ l2) e.
Proof.
  induction l1 as [|q l1 IH]; intros e.
  - unfold bind, ret. cbn.
    destruct (unlink_existing l2 e) as [[o e2] t2]. reflexivity.
  - cbn [unlink_existing app]. rewrite bind_assoc.
    apply bind_ext. intros b e1. rewrite bind_assoc.
    apply bind_ext. intros _ e2. apply IH.
Qed.

Lemma on_close_eq d e :
  on_close d e =
    try_catch
      (bind (unlinkSync (path (audioFile d)))
            (fun _ => unlink_existing (map path (mediaFiles d) ++ segmentPaths d ++ [concatListPath d])))
      (fun err => console_error [LStr "Cleanup error:"; LStr err]) e.
Proof.
  unfold on_close, try_catch.
  rewrite (bind_ext _ _
             (fun _ => unlink_existing (map path (mediaFiles d) ++ segmentPaths d ++ [concatListPath d]))).
  - reflexivity.
  - intros _ e1. rewrite <- unlink_existing_app. apply bind_ext.
    intros _ e2. apply unlink_existing_app.
Qed.

(** With the audio upload still in place the listener removes every path
    it names and nothing else. *)
Lemma on_close_present d e :
  is_Some (files e !! path (audioFile d)) ->
  exists e' t,
    on_close d e = (Returned tt, e', t) /\
    (forall p, files e' !! p = if decide (p ∈ doomed d) then None else files e !! p) /\
    unlinks_within (doomed d) t.
Proof.
  intros [c Hc]. rewrite on_close_eq.
  unfold try_catch, bind, unlinkSync. rewrite Hc.
  destruct (unlink_existing_spec
              (map path (mediaFiles d) ++ segmentPaths d ++ [concatListPath d])
              {| files := delete (path (audioFile d)) (files e); clock := clock e |})
    as (e' & t & Hrun & _ & Hf & Ht).
  rewrite Hrun. exists e', ([Unlink (path (audioFile d))] ++ t).
  split; [reflexivity|]. split.
  - intros p. rewrite Hf. unfold doomed. cbn [files].
    destruct (decide (p ∈ _ ++ _)) as [Hin|Hnin].
    + rewrite decide_True by (right; exact Hin). reflexivity.
    + destruct (decide (p = path (audioFile d))) as [->|Hne].
      * rewrite decide_True by left. apply lookup_delete_eq.
      * rewrite decide_False by (rewrite elem_of_cons; tauto).
        apply lookup_delete_ne. congruence.
  - constructor.
    + right. eexists. split; [reflexivity | left].
    + eapply unlinks_within_mono; [|exact Ht]. intros p Hp. right. exact Hp.
Qed.

(** In every case the listener returns normally and touches only the
    paths it names. *)
Lemma on_close_frame d e :
  exists e' t,
    on_close d e = (Returned tt, e', t) /\
    (forall p, p ∉ doomed d -> files e' !! p = files e !! p) /\
    unlinks_within (doomed d) t.
Proof.
  destruct (files e !! path (audioFile d)) as [c|] eqn:Hc.
  - destruct (on_close_present d e) as (e' & t & Hrun & Hf & Ht); [eauto|].
    exists e', t. split; [exact Hrun|]. split; [|exact Ht].
    intros p Hp. rewrite Hf. rewrite decide_False by exact Hp. reflexivity.
  - rewrite on_close_eq. unfold try_catch, bind, unlinkSync. rewrite Hc.
    eexists _, _. split; [reflexivity|]. split; [reflexivity|].
    constructor; [left; exact I | constructor].
Qed.


(** *** The [try] block as a whole *)

Lemma put_present p c e : is_Some (files (put p c e) !! p).
Proof. unfold put. cbn. rewrite lookup_insert_eq. eauto. Qed.

Lemma classify_nil ms : forall i, classify i ms = [] -> Forall (fun f => kind_of f = None) ms.
Proof.
  induction ms as [|f ms IH]; intros i H; [constructor|].
  cbn [classify] in H. destruct (kind_of f) eqn:Hf; [discriminate|].
  constructor; [exact Hf | exact (IH _ H)].
Qed.

Lemma quiet_no_write t p c :
  Forall (fun ev => is_tool ev \/ is_console ev) t -> WriteFile p c ∈ t -> False.
Proof.
  intros H Hin. rewrite Forall_forall in H. destruct (H _ Hin) as [[]|[]].
Qed.

Lemma quiet_no_unlink t :
  Forall (fun ev => is_tool ev \/ is_console ev) t -> no_unlink t.
Proof.
  intros H. eapply Forall_impl; [exact H|].
  intros [] [[]|[]] []. 
Qed.

Ltac trace_facts :=
  repeat first
    [ apply List.Forall_nil
    | apply List.Forall_cons; [cbn; first [exact I | tauto | intros []] | ] ].

(** What a successful run has established when the response starts
    streaming: the captured values, the two runs of the tool on the
    manifest and on the merged track, and the files they left. *)
Record delivered (ms : list File) (a : File) (e' : Env) (t : list Event)
    (d : Delivery) (merged : string) : Prop := {
  dl_audio : audioFile d = a;
  dl_media : mediaFiles d = ms;
  dl_segments : Forall2 (segment_of t) (classify 0 ms) (segmentPaths d);
  dl_nonempty : segmentPaths d <> [];
  dl_list : exists now : N, concatListPath d =
              path_join tempFolder ("concat-list-" +:+ decimal now +:+ ".txt");
  dl_merged : exists now : N, merged = path_join tempFolder ("merged-" +:+ decimal now +:+ ".mp4");
  dl_output : exists now : N, outputPath d =
              path_join outputFolder ("final-" +:+ decimal now +:+ ".mp4");
  dl_write : WriteFile (concatListPath d) (concatFileContent (segmentPaths d)) ∈ t;
  dl_concat : Ffmpeg (concat_cmd (concatListPath d) merged) None ∈ t;
  dl_mux : Ffmpeg (mux_cmd merged (path a) (outputPath d)) None ∈ t;
  dl_merged_on_disk : is_Some (files e' !! merged);
  dl_output_on_disk : is_Some (files e' !! outputPath d)
}.

Lemma process_spec ms a e o e' t :
  process ms a e = (o, e', t) ->
  keeps_files e e' /\ no_unlink t /\
  (forall p c, WriteFile p c ∈ t ->
     exists segs, c = concatFileContent segs /\
                  Forall2 (segment_of t) (classify 0 ms) segs) /\
  match o with
  | Thrown err =>
      exists pre cmd logs,
        t = pre ++ Ffmpeg cmd (Some err) :: logs /\
        no_failure pre /\ Forall is_console logs
  | Returned (Replied status msg) =>
      status = 400%nat /\ msg = "No valid media (image/video) files to process." /\
      e' = e /\ t = map skip_log ms /\ Forall (fun f => kind_of f = None) ms
  | Returned (Streaming hd d) =>
      hd = download_headers /\ no_failure t /\
      exists merged, delivered ms a e' t d merged
  end.
Proof.
  unfold process, bind. intros H.
  destruct (normalize_loop 0 ms [] e) as [[[segs|err] e1] t1] eqn:Hn.
  2:{ injection H as <- <- <-.
      destruct (normalize_loop_spec _ _ _ _ _ _ _ Hn) as (Hq & Hk & pre & cmd & -> & Hnf).
      split; [exact Hk|]. split; [apply quiet_no_unlink, Hq|].
      split; [intros p c Hin; destruct (quiet_no_write _ _ _ Hq Hin)|].
      exists pre, cmd, []. split; [reflexivity|]. split; [exact Hnf | constructor]. }
  destruct (normalize_loop_spec _ _ _ _ _ _ _ Hn) as (Hq & Hk & Hnf & new & Hsegs & HF).
  cbn [app] in Hsegs. subst new.
  destruct segs as [|s0 segs].
  - unfold ret in H. rewrite app_nil_r in H. injection H as <- <- <-.
    inversion HF as [Hc|]; subst. symmetry in Hc. apply classify_nil in Hc.
    rewrite (normalize_loop_all_skipped ms 0%nat [] e Hc) in Hn.
    injection Hn as <- <-.
    split; [apply keeps_files_refl|]. split; [apply quiet_no_unlink, Hq|].
    split; [intros p c Hin; destruct (quiet_no_write _ _ _ Hq Hin)|].
    repeat split. exact Hc.
  - rewrite concat_and_mux_run in H. cbv zeta in H.
    set (clp := path_join tempFolder ("concat-list-" +:+ decimal (clock e1) +:+ ".txt")) in *.
    set (body := concatFileContent (s0 :: segs)) in *.
    set (merged := path_join tempFolder ("merged-" +:+ decimal (clock e1) +:+ ".mp4")) in *.
    set (e2 := put clp (Text body) e1) in *.
    assert (Hw : forall tl p c,
               Forall (fun ev => ~ is_write ev) tl ->
               WriteFile p c ∈ t1 ++ WriteFile clp body :: tl ->
               exists segs', c = concatFileContent segs' /\
                             Forall2 (segment_of (t1 ++ WriteFile clp body :: tl))
                                     (classify 0 ms) segs').
    { intros tl p c Htl Hin. apply elem_of_app in Hin as [Hin|Hin].
      - destruct (quiet_no_write _ _ _ Hq Hin).
      - apply elem_of_cons in Hin as [Heq|Hin].
        + injection Heq as -> ->. exists (s0 :: segs). split; [reflexivity|].
          eapply segments_mono; [|exact HF]. intros ev Hev. apply elem_of_app. left. exact Hev.
        + rewrite Forall_forall in Htl. destruct (Htl _ Hin I). }
    destruct (ffmpeg_bin (concat_cmd clp merged) e2) as [c dt|err dt].
    + set (e3 := tick (put merged c e2) dt) in *.
      set (out := path_join outputFolder ("final-" +:+ decimal (clock e3) +:+ ".mp4")) in *.
      destruct (ffmpeg_bin (mux_cmd merged (path a) out) e3) as [c' dt'|err dt'].
      * cbn beta iota in H. injection H as <- <- <-.
        split.
        { eapply keeps_files_trans; [exact Hk|]. intros q Hq0.
          apply keeps_files_put, keeps_files_put, keeps_files_put, Hq0. }
        split.
        { apply Forall_app_2; [apply quiet_no_unlink, Hq | trace_facts]. }
        split; [intros p c0; apply Hw; trace_facts|].
        split; [reflexivity|]. split.
        { apply Forall_app_2; [exact Hnf | trace_facts]. }
        exists merged. constructor; cbn [audioFile mediaFiles segmentPaths concatListPath outputPath].
        -- reflexivity.
        -- reflexivity.
        -- eapply segments_mono; [|exact HF]. intros ev Hev. apply elem_of_app. left. exact Hev.
        -- discriminate.
        -- exists (clock e1). reflexivity.
        -- exists (clock e1). reflexivity.
        -- exists (clock e3). reflexivity.
        -- apply elem_of_app. right. left.
        -- apply elem_of_app. right. do 2 right. left.
        -- apply elem_of_app. right. do 5 right. left.
        -- apply (keeps_files_put out c' e3), (keeps_files_tick _ dt), put_present.
        -- apply (put_present out c' e3).
      * cbn beta iota in H. injection H as <- <- <-.
        split.
        { eapply keeps_files_trans; [exact Hk|]. intros q Hq0.
          apply keeps_files_put, keeps_files_put, Hq0. }
        split.
        { apply Forall_app_2; [apply quiet_no_unlink, Hq | trace_facts]. }
        split; [intros p c0; apply Hw; trace_facts|].
        exists (t1 ++ [WriteFile clp body;
                       ConsoleLog [LStr "FFmpeg concat cmd:"; LCmd (concat_cmd clp merged)];
                       Ffmpeg (concat_cmd clp merged) None;
                       ConsoleLog [LStr "Concatenation finished:"; LStr merged];
                       ConsoleLog [LStr "FFmpeg merge cmd:"; LCmd (mux_cmd merged (path a) out)]]),
               (mux_cmd merged (path a) out),
               [ConsoleError [LStr "FFmpeg merge error:"; LStr err]].
        split; [rewrite <- app_assoc; reflexivity|].
        split; [apply Forall_app_2; [exact Hnf | trace_facts] | trace_facts].
    + cbn beta iota in H. injection H as <- <- <-.
      split.
      { eapply keeps_files_trans; [exact Hk|]. intros q Hq0.
        apply keeps_files_put, Hq0. }
      split.
      { apply Forall_app_2; [apply quiet_no_unlink, Hq | trace_facts]. }
      split; [intros p c0; apply Hw; trace_facts|].
      exists (t1 ++ [WriteFile clp body;
                     ConsoleLog [LStr "FFmpeg concat cmd:"; LCmd (concat_cmd clp merged)]]),
             (concat_cmd clp merged),
             [ConsoleError [LStr "FFmpeg concat error:"; LStr err]].
      split; [rewrite <- app_assoc; reflexivity|].
      split; [apply Forall_app_2; [exact Hnf | trace_facts] | trace_facts].
Qed.


(** *** Where the files of a request live *)

(** multer's disk storage puts every upload below [uploadFolder]. *)
Definition in_uploads (f : File) : Prop :=
  exists name, path f = path_join uploadFolder name.

Ltac path_neq H :=
  unfold tempFolder, outputFolder, uploadFolder in H;
  rewrite !path_join_nested in H;
  apply path_join_inj in H;
  rewrite ?append_cons in H;
  discriminate H.

Lemma segment_of_path t x seg :
  segment_of t x seg ->
  exists name c, seg = path_join tempFolder (String c name) /\ (c = "i"%char \/ c = "v"%char).
Proof.
  destruct x as [[i [|]] f]; cbn; intros [[now ->] _]; unfold img_path, vid_path;
    rewrite ?append_cons; eauto.
Qed.

Lemma segments_in_temp t (items : list (nat * Kind * File)) segs p :
  Forall2 (segment_of t) items segs -> p ∈ segs ->
  exists name c, p = path_join tempFolder (String c name) /\ (c = "i"%char \/ c = "v"%char).
Proof.
  intros HF Hin. revert items HF.
  induction Hin as [p l | p q l Hin IH]; intros items HF; inversion HF; subst.
  - eapply segment_of_path. eassumption.
  - eapply IH. eassumption.
Qed.

Lemma merged_path_not_doomed ms a e1 t1 d merged0 now :
  delivered ms a e1 t1 d merged0 -> Forall in_uploads (a :: ms) ->
  path_join tempFolder ("merged-" +:+ decimal now +:+ ".mp4") ∉ doomed d.
Proof.
  intros D Hup Hin. destruct D. rewrite Forall_forall in Hup. unfold doomed in Hin.
  destruct dl_list0 as [now' Hl].
  apply elem_of_cons in Hin as [Heq|Hin].
  { destruct (Hup (audioFile d)) as [name Hn]; [rewrite dl_audio0; left|].
    rewrite Hn in Heq. path_neq Heq. }
  apply elem_of_app in Hin as [Hin|Hin].
  { apply list_elem_of_fmap in Hin as (f & Heq & Hf).
    destruct (Hup f) as [name Hn]; [right; rewrite <- dl_media0; exact Hf|].
    rewrite Hn in Heq. path_neq Heq. }
  apply elem_of_app in Hin as [Hin|Hin].
  { destruct (segments_in_temp _ _ _ _ dl_segments0 Hin) as (name & c & Heq & [-> | ->]);
      path_neq Heq. }
  apply list_elem_of_singleton in Hin. rewrite Hl in Hin. path_neq Hin.
Qed.

Lemma merged_not_doomed ms a e1 t1 d merged :
  delivered ms a e1 t1 d merged -> Forall in_uploads (a :: ms) -> merged ∉ doomed d.
Proof.
  intros D Hup. destruct (dl_merged _ _ _ _ _ _ D) as [now ->].
  eapply merged_path_not_doomed; eassumption.
Qed.

Lemma output_not_doomed ms a e1 t1 d merged :
  delivered ms a e1 t1 d merged -> Forall in_uploads (a :: ms) -> outputPath d ∉ doomed d.
Proof.
  intros D Hup Hin. destruct D. rewrite Forall_forall in Hup. unfold doomed in Hin.
  destruct dl_output0 as [now Ho]. destruct dl_list0 as [now' Hl]. rewrite Ho in Hin.
  apply elem_of_cons in Hin as [Heq|Hin].
  { destruct (Hup (audioFile d)) as [name Hn]; [rewrite dl_audio0; left|].
    rewrite Hn in Heq. path_neq Heq. }
  apply elem_of_app in Hin as [Hin|Hin].
  { apply list_elem_of_fmap in Hin as (f & Heq & Hf).
    destruct (Hup f) as [name Hn]; [right; rewrite <- dl_media0; exact Hf|].
    rewrite Hn in Heq. path_neq Heq. }
  apply elem_of_app in Hin as [Hin|Hin].
  { destruct (segments_in_temp _ _ _ _ dl_segments0 Hin) as (name & c & Heq & [-> | ->]);
      path_neq Heq. }
  apply list_elem_of_singleton in Hin. rewrite Hl in Hin. path_neq Hin.
Qed.


(** *** A whole request *)

Lemma serve_valid m ms a rest e o e' t :
  serve {| media := Some (m :: ms); audio := Some (a :: rest) |} e = (o, e', t) ->
  match process (m :: ms) a e with
  | (Thrown err, e1, t1) =>
      o = Returned (Replied 500 "Failed to create video.") /\ e' = e1 /\
      t = t1 ++ [ConsoleError [LStr "Error in /create-video:"; LStr err]]
  | (Returned (Replied status msg), e1, t1) =>
      o = Returned (Replied status msg) /\ e' = e1 /\ t = t1
  | (Returned (Streaming hd d), e1, t1) =>
      exists t2, on_close d e1 = (Returned tt, e', t2) /\
                 o = Returned (Streaming hd d) /\ t = t1 ++ t2
  end.
Proof.
  unfold serve, create_video, bind, try_catch. cbn [media audio].
  destruct (process (m :: ms) a e) as [[[[status msg|hd d]|err] e1] t1].
  - unfold ret. rewrite app_nil_r. intros H. injection H as <- <- <-. auto.
  - destruct (on_close_frame d e1) as (e2 & t2 & Hrun & _ & _). rewrite Hrun.
    unfold ret. rewrite app_nil_r. intros H. injection H as <- <- <-.
    exists t2. auto.
  - cbn. rewrite app_nil_r. intros H. injection H as <- <- <-. auto.
Qed.

Lemma failure_is_the_last_run pre cmd' err' logs tail cmd err :
  no_failure pre -> Forall is_console logs -> Forall is_console tail ->
  Ffmpeg cmd (Some err) ∈ (pre ++ Ffmpeg cmd' (Some err') :: logs) ++ tail ->
  cmd = cmd' /\ err = err'.
Proof.
  intros Hpre Hlogs Htail Hin.
  rewrite Forall_forall in Hlogs. rewrite Forall_forall in Htail.
  apply elem_of_app in Hin as [Hin|Hin]; [|destruct (Htail _ Hin)].
  apply elem_of_app in Hin as [Hin|Hin].
  - unfold no_failure in Hpre. rewrite Forall_forall in Hpre. destruct (Hpre _ Hin I).
  - apply elem_of_cons in Hin as [Heq|Hin]; [|destruct (Hlogs _ Hin)].
    injection Heq as -> ->. auto.
Qed.

Lemma unlinks_no_failure l t : unlinks_within l t -> no_failure t.
Proof.
  intros H. eapply Forall_impl; [exact H|].
  intros ev [Hc|(p & -> & _)] Hf; [|destruct Hf].
  destruct ev as [? [?|]| | | |]; cbn in *; tauto.
Qed.

Lemma unlinks_no_write l t p c : unlinks_within l t -> WriteFile p c ∈ t -> False.
Proof.
  intros H Hin. unfold unlinks_within in H. rewrite Forall_forall in H.
  destruct (H _ Hin) as [[]|(q & Heq & _)]. discriminate.
Qed.


(** ** The pipeline, whatever the encoder does *)

(** An item is unsupported when its MIME type starts with neither
    [image/] nor [video/]. *)
Definition unsupported (f : File) : Prop :=
  let mime := default EmptyString (mimetype f) in
  startsWith mime "image/" = false /\ startsWith mime "video/" = false.

Lemma unsupported_kind f : unsupported f <-> kind_of f = None.
Proof.
  unfold unsupported, kind_of. cbv zeta.
  destruct (startsWith _ "image/"), (startsWith _ "video/"); split;
    (intros [? ?] || intros ?); (discriminate || auto).
Qed.

(** C7: a request without media items ([media] absent or empty), and a
    request with media but without audio, is answered with status 400 and a
    descriptive message; the environment is left as it was and no event
    happens: no run of the tool, no file written. *)
Theorem missing_input_rejected :
  (forall a e,
     serve {| media := None; audio := a |} e =
       (Returned (Replied 400 "No media files received."), e, [])) /\
  (forall a e,
     serve {| media := Some []; audio := a |} e =
       (Returned (Replied 400 "No media files received."), e, [])) /\
  (forall m ms e,
     serve {| media := Some (m :: ms); audio := None |} e =
       (Returned (Replied 400 "No audio file received."), e, [])) /\
  (forall m ms e,
     serve {| media := Some (m :: ms); audio := Some [] |} e =
       (Returned (Replied 400 "No audio file received."), e, [])).
Proof. repeat split. Qed.

(** C4: an item whose MIME type is neither image/* nor video/* is skipped:
    the loop body returns normally with [segmentPaths] and the environment
    unchanged, and its only event is the console line.  When every item of
    a request is of that kind, no segment remains and the request is
    answered with status 400 "No valid media ..." before anything is
    written or the tool is run: the events are the console lines only. *)
Theorem unsupported_items_skipped :
  (forall i f segs e,
     unsupported f ->
     normalize_item i f segs e = (Returned segs, e, [skip_log f])) /\
  (forall m ms a rest e,
     Forall unsupported (m :: ms) ->
     serve {| media := Some (m :: ms); audio := Some (a :: rest) |} e =
       (Returned (Replied 400 "No valid media (image/video) files to process."),
        e, map skip_log (m :: ms))).
Proof.
  split.
  - intros i f segs e H. apply normalize_item_skip, unsupported_kind, H.
  - intros m ms a rest e H.
    assert (Hk : Forall (fun f => kind_of f = None) (m :: ms)).
    { eapply Forall_impl; [exact H|]. intros f. apply unsupported_kind. }
    unfold serve, create_video, bind, try_catch, process, bind. cbn [media audio].
    rewrite (normalize_loop_all_skipped _ _ _ _ Hk).
    unfold ret. rewrite !app_nil_r. reflexivity.
Qed.

(** C8: whenever a run of the tool fails during a request, in whichever
    stage, the request is answered with status 500 and the fixed message;
    the tool's error goes to the console only; the failed run is the last
    run of the tool and nothing but console output follows it; no file is
    unlinked and no file that was on disk has disappeared. *)
Theorem tool_failure_fails_request req e o e' t cmd err :
  serve req e = (o, e', t) ->
  Ffmpeg cmd (Some err) ∈ t ->
  o = Returned (Replied 500 "Failed to create video.") /\
  (exists pre logs,
     t = pre ++ Ffmpeg cmd (Some err) :: logs ++
           [ConsoleError [LStr "Error in /create-video:"; LStr err]] /\
     no_failure pre /\ Forall is_console logs) /\
  no_unlink t /\
  keeps_files e e'.
Proof.
  intros H Hin.
  destruct req as [[[|m ms]|] au];
    try (injection H as <- <- <-; inversion Hin).
  destruct au as [[|a rest]|];
    try (injection H as <- <- <-; inversion Hin).
  apply serve_valid in H.
  destruct (process (m :: ms) a e) as [[[[status msg|hd d]|err'] e1] t1] eqn:Hp;
    apply process_spec in Hp; destruct Hp as (Hk & Hnu & _ & Ho).
  - destruct H as (-> & -> & ->). destruct Ho as (_ & _ & _ & -> & _).
    apply list_elem_of_fmap in Hin as (f & Heq & _). discriminate.
  - destruct H as (t2 & Hc & -> & ->). destruct Ho as (_ & Hnf & _).
    destruct (on_close_frame d e1) as (e2 & t2' & Hrun & _ & Hu).
    rewrite Hrun in Hc. injection Hc as -> ->.
    apply unlinks_no_failure in Hu.
    assert (Hall : no_failure (t1 ++ t2)) by (apply Forall_app_2; assumption).
    unfold no_failure in Hall. rewrite Forall_forall in Hall. destruct (Hall _ Hin I).
  - destruct H as (-> & -> & ->). destruct Ho as (pre & cmd' & logs & -> & Hnf & Hlogs).
    destruct (failure_is_the_last_run pre cmd' err' logs
                [ConsoleError [LStr "Error in /create-video:"; LStr err']]
                cmd err Hnf Hlogs ltac:(trace_facts) Hin) as [-> ->].
    split; [reflexivity|]. split.
    + exists pre, logs. rewrite <- app_assoc. auto.
    + split; [|exact Hk]. apply Forall_app_2; [exact Hnu | trace_facts].
Qed.

(** C1: in every request the only content ever written as concat list is
    the list of segment paths, one [file '...'] line each, where the j-th
    segment is the one produced for the j-th supported item of the
    submitted list (its path carries that item's ordinal and it was written
    by the run of the tool on that item's upload): same order, one line per
    item, nothing merged, dropped or sorted, whether the item is an image or
    a video.  The supported items are taken with strictly increasing
    ordinals, the ordinal being the position in the submitted list; when the
    response streams, that list has been written for the captured
    [segmentPaths]. *)
Theorem manifest_follows_submission_order req ms e o e' t :
  serve req e = (o, e', t) ->
  media req = Some ms ->
  (forall p c, WriteFile p c ∈ t ->
     exists segs, c = join LF (map manifest_line segs) /\
                  Forall2 (segment_of t) (classify 0 ms) segs) /\
  (forall hd d, o = Returned (Streaming hd d) ->
     WriteFile (concatListPath d) (join LF (map manifest_line (segmentPaths d))) ∈ t /\
     Forall2 (segment_of t) (classify 0 ms) (segmentPaths d)) /\
  StronglySorted lt (map ordinal (classify 0 ms)) /\
  (forall i k f, (i, k, f) ∈ classify 0 ms <-> ms !! i = Some f /\ kind_of f = Some k).
Proof.
  intros H Hm.
  assert (Hcl : StronglySorted lt (map ordinal (classify 0 ms)) /\
          (forall i k f, (i, k, f) ∈ classify 0 ms <-> ms !! i = Some f /\ kind_of f = Some k)).
  { split; [apply classify_increasing|].
    intros i k f. rewrite classify_elem. split.
    - intros (n & -> & Hn). exact Hn.
    - intros Hn. exists i. split; [reflexivity | exact Hn]. }
  destruct req as [[[|m ms']|] au]; cbn [media] in Hm; try discriminate;
    injection Hm as <-.
  { injection H as <- <- <-.
    split; [intros p c Hin; inversion Hin|]. split; [intros hd d Hd; discriminate | exact Hcl]. }
  destruct au as [[|a rest]|];
    try (injection H as <- <- <-;
         split; [intros p c Hin; inversion Hin|];
         split; [intros hd d Hd; discriminate | exact Hcl]).
  apply serve_valid in H.
  destruct (process (m :: ms') a e) as [[[[status msg|hd d]|err'] e1] t1] eqn:Hp;
    apply process_spec in Hp; destruct Hp as (Hk & Hnu & Hw & Ho).
  - destruct H as (-> & -> & ->).
    split; [exact Hw|]. split; [intros hd d Hd; discriminate | exact Hcl].
  - destruct H as (t2 & Hc & -> & ->). destruct Ho as (_ & _ & merged & D).
    destruct (on_close_frame d e1) as (e2 & t2' & Hrun & _ & Hu).
    rewrite Hrun in Hc. injection Hc as -> ->.
    split.
    { intros p c Hin. apply elem_of_app in Hin as [Hin|Hin];
        [|destruct (unlinks_no_write _ _ _ _ Hu Hin)].
      destruct (Hw _ _ Hin) as (segs & Hc & HF). exists segs. split; [exact Hc|].
      eapply segments_mono; [|exact HF]. intros ev Hev. apply elem_of_app. left. exact Hev. }
    split; [|exact Hcl].
    intros hd' d' Hd. injection Hd as <- <-. destruct D.
    split; [apply elem_of_app; left; exact dl_write0|].
    eapply segments_mono; [|exact dl_segments0].
    intros ev Hev. apply elem_of_app. left. exact Hev.
  - destruct H as (-> & -> & ->).
    split.
    { intros p c Hin. apply elem_of_app in Hin as [Hin|Hin];
        [|apply list_elem_of_singleton in Hin; discriminate].
      destruct (Hw _ _ Hin) as (segs & Hc & HF). exists segs. split; [exact Hc|].
      eapply segments_mono; [|exact HF]. intros ev Hev. apply elem_of_app. left. exact Hev. }
    split; [intros hd d Hd; discriminate | exact Hcl].
Qed.


(** A request that ends streaming: the [try] block delivered, then the
    listener ran. *)
Lemma serve_streaming req e hd d e' t :
  serve req e = (Returned (Streaming hd d), e', t) ->
  exists e1 t1 t2 merged rest,
    media req = Some (mediaFiles d) /\
    audio req = Some (audioFile d :: rest) /\
    delivered (mediaFiles d) (audioFile d) e1 t1 d merged /\
    keeps_files e e1 /\ no_unlink t1 /\
    on_close d e1 = (Returned tt, e', t2) /\
    t = t1 ++ t2.
Proof.
  intros H.
  destruct req as [[[|m ms]|] au]; try discriminate.
  destruct au as [[|a rest]|]; try discriminate.
  apply serve_valid in H.
  destruct (process (m :: ms) a e) as [[[[status msg|hd' d']|err'] e1] t1] eqn:Hp;
    apply process_spec in Hp; destruct Hp as (Hk & Hnu & _ & Ho).
  - destruct H as (Heq & _). discriminate.
  - destruct H as (t2 & Hc & Heq & ->). injection Heq as <- <-.
    destruct Ho as (_ & _ & merged & D).
    exists e1, t1, t2, merged, rest.
    pose proof (dl_media _ _ _ _ _ _ D) as Hm.
    pose proof (dl_audio _ _ _ _ _ _ D) as Ha.
    rewrite Hm, Ha. cbn [media audio]. auto 10.
  - destruct H as (Heq & _). discriminate.
Qed.

(** C9, amended: when a request has streamed its result and the stream
    closes, and the audio upload was on disk when the request came in, the
    listener has removed the audio upload, every media upload, every segment
    and the concat list, so the uploads and those temporary files are gone;
    the final video, which lies in the output folder while the uploads lie
    in the upload folder, is still on disk.  (Not every temporary file of
    the request is gone: the merged track stays.) *)
Theorem cleanup_removes_request_files req e hd d e' t :
  serve req e = (Returned (Streaming hd d), e', t) ->
  is_Some (files e !! path (audioFile d)) ->
  Forall in_uploads (audioFile d :: mediaFiles d) ->
  media req = Some (mediaFiles d) /\
  (exists rest, audio req = Some (audioFile d :: rest)) /\
  files e' !! path (audioFile d) = None /\
  (forall f, f ∈ mediaFiles d -> files e' !! path f = None) /\
  (forall p, p ∈ segmentPaths d -> files e' !! p = None) /\
  files e' !! concatListPath d = None /\
  is_Some (files e' !! outputPath d).
Proof.
  intros H Ha Hup.
  destruct (serve_streaming _ _ _ _ _ _ H)
    as (e1 & t1 & t2 & merged & rest & Hm & Hau & D & Hk & _ & Hc & ->).
  destruct (on_close_present d e1 (Hk _ Ha)) as (e2 & t2' & Hrun & Hf & _).
  rewrite Hrun in Hc. injection Hc as -> _.
  assert (Hgone : forall p, p ∈ doomed d -> files e' !! p = None).
  { intros p Hp. rewrite Hf. rewrite decide_True by exact Hp. reflexivity. }
  split; [exact Hm|]. split; [eauto|].
  split; [apply Hgone; left|].
  split.
  { intros f Hin. apply Hgone. right. apply elem_of_app. left.
    apply list_elem_of_fmap. eauto. }
  split.
  { intros p Hin. apply Hgone. right. apply elem_of_app. right.
    apply elem_of_app. left. exact Hin. }
  split.
  { apply Hgone. right. apply elem_of_app. right. apply elem_of_app. right. left. }
  rewrite Hf. rewrite decide_False by (eapply output_not_doomed; eassumption).
  exact (dl_output_on_disk _ _ _ _ _ _ D).
Qed.

(** C10: after a request that streamed its result, the merged track
    written to the temporary folder by the concatenation run is still on
    disk: the listener names the audio upload, the media uploads, the
    segments and the concat list, and the merged track is none of them, so
    no unlink of it ever happens. *)
Theorem merged_track_survives_cleanup req e hd d e' t :
  serve req e = (Returned (Streaming hd d), e', t) ->
  Forall in_uploads (audioFile d :: mediaFiles d) ->
  exists merged,
    (exists now : N, merged = path_join tempFolder ("merged-" +:+ decimal now +:+ ".mp4")) /\
    Ffmpeg (concat_cmd (concatListPath d) merged) None ∈ t /\
    (merged ∉ doomed d) /\
    (Unlink merged ∉ t) /\
    is_Some (files e' !! merged).
Proof.
  intros H Hup.
  destruct (serve_streaming _ _ _ _ _ _ H)
    as (e1 & t1 & t2 & merged & rest & Hm & Hau & D & Hk & Hnu & Hc & ->).
  destruct (on_close_frame d e1) as (e2 & t2' & Hrun & Hf & Hu).
  rewrite Hrun in Hc. injection Hc as -> ->.
  pose proof (merged_not_doomed _ _ _ _ _ _ D Hup) as Hnd.
  exists merged.
  split; [exact (dl_merged _ _ _ _ _ _ D)|].
  split; [apply elem_of_app; left; exact (dl_concat _ _ _ _ _ _ D)|].
  split; [exact Hnd|].
  split.
  - intros Hin. apply elem_of_app in Hin as [Hin|Hin].
    + unfold no_unlink in Hnu. rewrite Forall_forall in Hnu. exact (Hnu _ Hin I).
    + unfold unlinks_within in Hu. rewrite Forall_forall in Hu.
      destruct (Hu _ Hin) as [[]|(p & Heq & Hp)]. injection Heq as <-. exact (Hnd Hp).
  - rewrite (Hf _ Hnd). exact (dl_merged_on_disk _ _ _ _ _ _ D).
Qed.



(** *** Loop invariants *)

(** A property of the environment and the segments collected so far that
    every pass of the loop body keeps is kept by the loop. *)
Lemma normalize_loop_invariant (P : Env -> list string -> Prop) ms :
  (forall i f segs e segs' e' t,
     f ∈ ms -> P e segs ->
     normalize_item i f segs e = (Returned segs', e', t) -> P e' segs') ->
  forall i segs e segs' e' t,
    P e segs ->
    normalize_loop i ms segs e = (Returned segs', e', t) -> P e' segs'.
Proof.
  induction ms as [|f ms IH]; intros Hstep i segs e segs' e' t HP H.
  - injection H as <- <- <-. exact HP.
  - cbn [normalize_loop] in H. unfold bind in H.
    destruct (normalize_item i f segs e) as [[[segs1|err] e1] t1] eqn:Hi; [|discriminate].
    destruct (normalize_loop (S i) ms segs1 e1) as [[o2 e2] t2] eqn:Hr.
    injection H as -> <- <-.
    eapply IH; [| |exact Hr].
    + intros j g sg eg sg' eg' tg Hg. apply Hstep. right. exact Hg.
    + eapply Hstep; [left | exact HP | exact Hi].
Qed.

(** The loop writes segments only. *)
Lemma normalize_loop_frame ms p :
  (forall k now j, p <> seg_path k now j) ->
  forall i segs e o e' t,
    normalize_loop i ms segs e = (o, e', t) -> files e' !! p = files e !! p.
Proof.
  intros Hp. induction ms as [|f ms IH]; intros i segs e o e' t H.
  - injection H as <- <- <-. reflexivity.
  - cbn [normalize_loop] in H. unfold bind in H.
    destruct (kind_of f) as [k|] eqn:Hk.
    + rewrite (normalize_item_supported i f k segs e Hk) in H. cbv zeta in H.
      destruct (ffmpeg_bin _ e) as [c dt|err dt].
      * destruct (normalize_loop (S i) ms _ _) as [[o1 e1] t1] eqn:Hr.
        injection H as <- <- <-. rewrite (IH _ _ _ _ _ _ Hr). cbn.
        apply lookup_insert_ne. apply not_eq_sym, Hp.
      * injection H as <- <- <-. reflexivity.
    + rewrite (normalize_item_skip i f segs e Hk) in H.
      destruct (normalize_loop (S i) ms _ _) as [[o1 e1] t1] eqn:Hr.
      injection H as <- <- <-. exact (IH _ _ _ _ _ _ Hr).
Qed.

Lemma upload_not_segment f k now j : in_uploads f -> path f <> seg_path k now j.
Proof.
  intros [name ->] Heq. destruct k; unfold seg_path, img_path, vid_path in Heq; path_neq Heq.
Qed.

Lemma list_not_segment now0 k now j :
  path_join tempFolder ("concat-list-" +:+ decimal now0 +:+ ".txt") <> seg_path k now j.
Proof.
  intros Heq. destruct k; unfold seg_path, img_path, vid_path in Heq; path_neq Heq.
Qed.

Lemma upload_not_list f now : 
  in_uploads f -> path f <> path_join tempFolder ("concat-list-" +:+ decimal now +:+ ".txt").
Proof. intros [name ->] Heq. path_neq Heq. Qed.

Lemma upload_not_merged f now : 
  in_uploads f -> path f <> path_join tempFolder ("merged-" +:+ decimal now +:+ ".mp4").
Proof. intros [name ->] Heq. path_neq Heq. Qed.

Lemma list_not_merged now now' :
  path_join tempFolder ("concat-list-" +:+ decimal now +:+ ".txt") <>
  path_join tempFolder ("merged-" +:+ decimal now' +:+ ".mp4").
Proof. intros Heq. path_neq Heq. Qed.

Lemma segment_not_merged k now j now' :
  seg_path k now j <> path_join tempFolder ("merged-" +:+ decimal now' +:+ ".mp4").
Proof.
  intros Heq. destruct k; unfold seg_path, img_path, vid_path in Heq; path_neq Heq.
Qed.

Lemma merged_not_output now now' :
  path_join tempFolder ("merged-" +:+ decimal now +:+ ".mp4") <>
  path_join outputFolder ("final-" +:+ decimal now' +:+ ".mp4").
Proof. intros Heq. path_neq Heq. Qed.

(** *** The stages of a run that streams *)

Lemma process_streaming_stages ms a e hd d e' t :
  process ms a e = (Returned (Streaming hd d), e', t) ->
  exists e1 t1 c dt c' dt',
    let clp := path_join tempFolder ("concat-list-" +:+ decimal (clock e1) +:+ ".txt") in
    let e2 := put clp (Text (concatFileContent (segmentPaths d))) e1 in
    let merged := path_join tempFolder ("merged-" +:+ decimal (clock e1) +:+ ".mp4") in
    let e3 := tick (put merged c e2) dt in
    let out := path_join outputFolder ("final-" +:+ decimal (clock e3) +:+ ".mp4") in
    normalize_loop 0 ms [] e = (Returned (segmentPaths d), e1, t1) /\
    concatListPath d = clp /\ outputPath d = out /\
    ffmpeg_bin (concat_cmd clp merged) e2 = ToolEnd c dt /\
    ffmpeg_bin (mux_cmd merged (path a) out) e3 = ToolEnd c' dt' /\
    e' = tick (put out c' e3) dt' /\
    Ffmpeg (concat_cmd clp merged) None ∈ t /\
    Ffmpeg (mux_cmd merged (path a) out) None ∈ t.
Proof.
  unfold process, bind. intros H.
  destruct (normalize_loop 0 ms [] e) as [[[segs|err] e1] t1] eqn:Hn; [|discriminate].
  destruct segs as [|s0 segs]; [discriminate|].
  rewrite concat_and_mux_run in H. cbv zeta in H.
  destruct (ffmpeg_bin (concat_cmd _ _) _) as [c dt|err dt] eqn:Hc; [|discriminate].
  destruct (ffmpeg_bin (mux_cmd _ _ _) _) as [c' dt'|err dt'] eqn:Hm; [|discriminate].
  cbn beta iota in H. injection H as <- <- <- <-.
  exists e1, t1, c, dt, c', dt'. cbn [segmentPaths concatListPath outputPath].
  repeat split; try assumption.
  - apply elem_of_app. right. do 2 right. left.
  - apply elem_of_app. right. do 5 right. left.
Qed.

Lemma serve_streaming_process req e hd d e' t :
  serve req e = (Returned (Streaming hd d), e', t) ->
  exists e1 t1 t2,
    process (mediaFiles d) (audioFile d) e = (Returned (Streaming hd d), e1, t1) /\
    on_close d e1 = (Returned tt, e', t2) /\ t = t1 ++ t2.
Proof.
  intros H.
  destruct req as [[[|m ms]|] au]; try discriminate.
  destruct au as [[|a rest]|]; try discriminate.
  apply serve_valid in H.
  destruct (process (m :: ms) a e) as [[[[status msg|hd' d']|err'] e1] t1] eqn:Hp.
  - destruct H as (Heq & _). discriminate.
  - destruct H as (t2 & Hc & Heq & ->). injection Heq as <- <-.
    pose proof (process_spec _ _ _ _ _ _ Hp) as (_ & _ & _ & _ & _ & merged & D).
    rewrite (dl_media _ _ _ _ _ _ D), (dl_audio _ _ _ _ _ _ D).
    exists e1, t1, t2. auto.
  - destruct H as (Heq & _). discriminate.
Qed.

End Pipeline.

(** ** The concat list read back *)

(** No line terminator in the string. *)
Fixpoint one_line (s : string) : bool :=
  match s with
  | EmptyString => true
  | String c r => negb (is_line_end c) && one_line r
  end.

Lemma one_line_app a b : one_line (a +:+ b) = one_line a && one_line b.
Proof.
  induction a as [|c a IH]; [reflexivity|].
  rewrite append_cons. cbn [one_line]. rewrite IH, andb_assoc. reflexivity.
Qed.

Lemma one_line_escaped p : one_line (replaceAll quote "'\''" p) = one_line p.
Proof.
  induction p as [|c p IH]; [reflexivity|]. cbn [replaceAll one_line].
  destruct (Ascii.eqb_spec c quote) as [->|Hc].
  - rewrite one_line_app, IH. reflexivity.
  - cbn [one_line]. rewrite IH. reflexivity.
Qed.

Lemma one_line_manifest_line p : one_line (manifest_line p) = one_line p.
Proof.
  unfold manifest_line. rewrite !one_line_app, one_line_escaped.
  cbn. rewrite andb_true_r. reflexivity.
Qed.

Lemma split_by_nonempty sep s : split_by sep s <> [].
Proof.
  destruct s as [|c r]; cbn; [discriminate|].
  destruct (sep c); [discriminate|]. destruct (split_by sep r); discriminate.
Qed.

Lemma split_one_line s : one_line s = true -> split_by is_line_end s = [s].
Proof.
  induction s as [|c r IH]; [reflexivity|]. cbn [one_line split_by].
  intros H. apply andb_true_iff in H as [Hc Hr].
  apply negb_true_iff in Hc. rewrite Hc, (IH Hr). reflexivity.
Qed.

Lemma split_line_then l rest :
  one_line l = true ->
  split_by is_line_end (l +:+ LF +:+ rest) = l :: split_by is_line_end rest.
Proof.
  induction l as [|c r IH]; [reflexivity|]. cbn [one_line].
  intros H. apply andb_true_iff in H as [Hc Hr]. apply negb_true_iff in Hc.
  rewrite append_cons. cbn [split_by]. rewrite Hc, (IH Hr). reflexivity.
Qed.

(** Inside quotes, the escaped path reads back as the path. *)
Lemma get_token_escaped p :
  get_token true (replaceAll quote "'\''" p +:+ "'") = p.
Proof.
  induction p as [|c p IH]; [reflexivity|]. cbn [replaceAll].
  destruct (Ascii.eqb_spec c quote) as [->|Hc].
  - rewrite append_assoc. rewrite !append_cons, append_nil_l.
    cbn. rewrite IH. reflexivity.
  - rewrite append_cons. cbn [get_token].
    rewrite (proj2 (Ascii.eqb_neq c quote) Hc), IH. reflexivity.
Qed.

Lemma parse_line_manifest_line p : parse_line (manifest_line p) = Some [p].
Proof.
  unfold manifest_line, parse_line. rewrite !append_cons, append_nil_l.
  cbn. rewrite get_token_escaped. reflexivity.
Qed.

Lemma parse_lines_manifest segs :
  parse_lines (map manifest_line segs) = Some segs.
Proof.
  induction segs as [|p segs IH]; [reflexivity|].
  cbn [map parse_lines]. rewrite parse_line_manifest_line, IH. reflexivity.
Qed.

Lemma split_manifest segs :
  segs <> [] ->
  Forall (fun p => one_line p = true) segs ->
  split_by is_line_end (concatFileContent segs) = map manifest_line segs.
Proof.
  unfold concatFileContent, join.
  induction segs as [|p segs IH]; intros Hne H; [congruence|].
  inversion H as [|? ? Hp Hrest]; subst.
  destruct segs as [|q segs].
  - cbn. apply split_one_line. rewrite one_line_manifest_line. exact Hp.
  - cbn [map String.concat] in *.
    rewrite split_line_then by (rewrite one_line_manifest_line; exact Hp).
    rewrite IH by (discriminate || exact Hrest). reflexivity.
Qed.

Lemma parse_manifest_concat segs :
  Forall (fun p => one_line p = true) segs ->
  parse_manifest (concatFileContent segs) = Some segs.
Proof.
  intros H. unfold parse_manifest.
  destruct segs as [|p segs]; [reflexivity|].
  rewrite split_manifest by (discriminate || exact H).
  apply parse_lines_manifest.
Qed.

(** C5: every single quote of a segment path is written as the four
    characters quote, backslash, quote, quote, every other character as it
    is, and with that the line is
    one the list-file reader accepts: the quoted token reads back as the
    path itself, the line names exactly that path, and a whole list of
    paths without line terminators is read back as the same list, in the
    same order. *)
Theorem manifest_quoting_round_trips :
  (forall p, replaceAll quote "'\''" (String quote p) =
             "'\''" +:+ replaceAll quote "'\''" p) /\
  (forall c p, c <> quote ->
     replaceAll quote "'\''" (String c p) = String c (replaceAll quote "'\''" p)) /\
  (forall p, get_token false ("'" +:+ replaceAll quote "'\''" p +:+ "'") = p) /\
  (forall p, parse_line (manifest_line p) = Some [p]) /\
  (forall segs,
     Forall (fun p => one_line p = true) segs ->
     parse_manifest (concatFileContent segs) = Some segs).
Proof.
  split; [reflexivity|].
  split.
  { intros c p Hc. cbn [replaceAll]. rewrite (proj2 (Ascii.eqb_neq c quote) Hc). reflexivity. }
  split; [intros p; rewrite append_cons, append_nil_l; cbn; apply get_token_escaped|].
  split; [exact parse_line_manifest_line | exact parse_manifest_concat].
Qed.

(** ** The pipeline on the modelled encoder *)

(** The uniform video format of the pipeline. *)
Definition hd30 : VideoStream :=
  {| width := 1280; height := 720; frame_rate := 30;
     pix_fmt := "yuv420p"; vcodec := "libx264" |}.

(** The segment made from a still image. *)
Definition still_clip : Media :=
  {| duration := 3000; video := Some hd30; audio_stream := None |}.

(** A file whose video, if it has any, is in the uniform format. *)
Definition normalized (c : Content) : Prop :=
  exists m, c = Clip m /\ (video m = None \/ video m = Some hd30).

Lemma model_end_clip cmd e c dt :
  ffmpeg_model cmd e = ToolEnd c dt -> exists m, c = Clip m.
Proof.
  unfold ffmpeg_model.
  destruct (open_inputs _ _ _) as [err|[|first others]]; try discriminate.
  destruct (out_duration _ _) as [err|d]; try discriminate.
  destruct (src_video first) as [v|].
  - destruct (encode_video cmd v); [|discriminate]. intros H. injection H as <- _. eauto.
  - destruct (_ ≫= src_audio); [|discriminate]. intros H. injection H as <- _. eauto.
Qed.

Lemma best_audio_one s :
  best_audio [s] = match src_audio s with Some _ => Some s | None => None end.
Proof. cbn. destruct (src_audio s); reflexivity. Qed.

Lemma sound_of_one s : best_audio [s] ≫= src_audio = src_audio s.
Proof. rewrite best_audio_one. destruct (src_audio s) eqn:E; [exact E | reflexivity]. Qed.

(** The image normaliser on a still image. *)
Lemma model_image inp out e w h :
  files e !! inp = Some (Still w h) ->
  ffmpeg_model (image_cmd inp out) e = ToolEnd (Clip still_clip) 1.
Proof.
  intros H. unfold ffmpeg_model, image_cmd.
  cbn [inputs inputOptions outputOptions videoFilters audioCodec open_inputs].
  unfold open_input. rewrite H. reflexivity.
Qed.

Lemma open_item k inp out fs :
  open_inputs fs (inputOptions (item_cmd k inp out)) (inputs (item_cmd k inp out)) =
    match fs !! inp with
    | None => inl (inp +:+ ": No such file or directory")
    | Some (Still w h) =>
        inr [{| src_duration := match k with Image => None | Video => Some 40 end;
                src_video := Some (still_stream w h);
                src_audio := None |}]
    | Some (Clip m) => inr [clip_source m]
    | Some (Text _) => inl (inp +:+ ": Invalid data found when processing input")
    end.
Proof.
  destruct k; unfold item_cmd, image_cmd, video_cmd;
    cbn [inputs inputOptions open_inputs]; unfold open_input;
    destruct (fs !! inp) as [[w h|m|body]|]; reflexivity.
Qed.

Lemma encode_item k inp out v : encode_video (item_cmd k inp out) v = Some hd30.
Proof. destruct k, v; reflexivity. Qed.

Lemma encode_concat clp merged v :
  encode_video (concat_cmd clp merged) v =
    Some {| width := width v; height := height v; frame_rate := 30;
            pix_fmt := "yuv420p"; vcodec := "libx264" |}.
Proof. destruct v; reflexivity. Qed.

Lemma encode_mux merged ap out v : encode_video (mux_cmd merged ap out) v = Some v.
Proof. reflexivity. Qed.

(** Both normalisers leave the uniform format, whatever they are given. *)
Lemma model_item_normalized k inp out e c dt :
  ffmpeg_model (item_cmd k inp out) e = ToolEnd c dt -> normalized c.
Proof.
  unfold ffmpeg_model. rewrite open_item.
  destruct (files e !! inp) as [[w h|m|body]|]; try discriminate;
    (destruct (out_duration _ _) as [err|d]; [discriminate|]);
    rewrite sound_of_one; cbn [src_video src_audio clip_source].
  - rewrite encode_item. intros H. injection H as <- _.
    eexists. split; [reflexivity|]. right. reflexivity.
  - destruct (video m) as [v|].
    + rewrite encode_item. intros H. injection H as <- _.
      eexists. split; [reflexivity|]. right. reflexivity.
    + destruct (audio_stream m); [|discriminate]. intros H. injection H as <- _.
      eexists. split; [reflexivity|]. left. reflexivity.
Qed.

Lemma concat_sources_ok fs segs : forall s,
  concat_sources fs segs = inr s ->
  exists d v, src_duration s = Some d /\ src_video s = Some v.
Proof.
  induction segs as [|p segs IH]; intros s H; [discriminate|].
  cbn [concat_sources] in H.
  destruct (fs !! p) as [[w h|m|body]|]; try discriminate.
  destruct (video m) as [v|] eqn:Hv; [|discriminate].
  destruct segs as [|q segs].
  - injection H as <-. cbn. eauto.
  - destruct (concat_sources fs (q :: segs)) as [err|s'] eqn:Hs; [discriminate|].
    destruct (IH _ eq_refl) as (d' & _ & Hd' & _).
    injection H as <-. cbn. rewrite Hd'. eauto.
Qed.

Lemma concat_sources_normalized fs segs s :
  (forall p c, p ∈ segs -> fs !! p = Some c -> normalized c) ->
  concat_sources fs segs = inr s -> src_video s = Some hd30.
Proof.
  intros Hn H. destruct segs as [|p segs]; [discriminate|].
  cbn [concat_sources] in H.
  destruct (fs !! p) as [[w h|m|body]|] eqn:Hp; try discriminate.
  destruct (Hn p (Clip m) ltac:(left) Hp) as (m' & Heq & Hv). injection Heq as <-.
  destruct (video m) as [v|] eqn:Hvm; [|discriminate].
  destruct Hv as [Hv|Hv]; [discriminate|].
  destruct segs as [|q segs].
  - injection H as <-. unfold clip_source. cbn [src_video]. congruence.
  - destruct (concat_sources fs (q :: segs)); [discriminate|].
    injection H as <-. cbn [src_video]. congruence.
Qed.

Lemma concat_sources_stills fs segs :
  segs <> [] ->
  (forall p, p ∈ segs -> fs !! p = Some (Clip still_clip)) ->
  concat_sources fs segs =
    inr {| src_duration := Some (3000 * N.of_nat (length segs));
           src_video := Some hd30; src_audio := None |}.
Proof.
  induction segs as [|p segs IH]; intros Hne H; [congruence|].
  cbn [concat_sources]. rewrite (H p) by left. cbn [video still_clip].
  destruct segs as [|q segs]; [reflexivity|].
  rewrite IH; [|discriminate|intros r Hr; apply H; right; exact Hr].
  cbn [src_duration]. unfold still_clip at 1 2. cbn [duration audio_stream].
  replace (3000 + 3000 * N.of_nat (length (q :: segs)))
    with (3000 * N.of_nat (length (p :: q :: segs))) by (cbn [length]; lia).
  reflexivity.
Qed.

Lemma open_concat clp merged fs :
  open_inputs fs (inputOptions (concat_cmd clp merged)) (inputs (concat_cmd clp merged)) =
    match fs !! clp with
    | Some (Text body) =>
        match parse_manifest body with
        | Some paths =>
            match concat_sources fs paths with
            | inl err => inl err
            | inr s => inr [s]
            end
        | None => inl (clp +:+ ": unknown directive")
        end
    | Some _ => inl (clp +:+ ": Invalid data found when processing input")
    | None => inl (clp +:+ ": No such file or directory")
    end.
Proof.
  unfold concat_cmd. cbn [inputs inputOptions open_inputs]. unfold open_input.
  destruct (fs !! clp) as [[w h|m|body]|]; try reflexivity.
  change (has_flag "-f concat" ["-f concat"; "-safe 0"]) with true. cbv iota.
  destruct (parse_manifest body); [|reflexivity].
  destruct (concat_sources fs l); reflexivity.
Qed.

Lemma stream_inputs_one s v :
  src_video s = Some v ->
  stream_inputs s (best_audio [s]) =
    match src_audio s with Some _ => [s; s] | None => [s] end.
Proof.
  intros Hv. unfold stream_inputs. rewrite Hv, best_audio_one.
  destruct (src_audio s); reflexivity.
Qed.

Lemma duration_concat clp merged s d v :
  src_duration s = Some d -> src_video s = Some v ->
  out_duration (concat_cmd clp merged) (stream_inputs s (best_audio [s])) = inr d.
Proof.
  intros H Hv. rewrite (stream_inputs_one _ _ Hv).
  unfold out_duration, concat_cmd. cbn [outputOptions].
  change (has_flag "-shortest" _) with false.
  change (opt_value "-t" _) with (@None string).
  destruct (src_audio s); cbn [map longest fold_right]; rewrite H, ?N.max_0_r, ?N.max_id;
    reflexivity.
Qed.

(** The concatenation run on a list it can read. *)
Lemma model_concat clp merged e body segs s d v :
  files e !! clp = Some (Text body) ->
  parse_manifest body = Some segs ->
  concat_sources (files e) segs = inr s ->
  src_duration s = Some d -> src_video s = Some v ->
  ffmpeg_model (concat_cmd clp merged) e =
    ToolEnd (Clip {| duration := d;
                     video := Some {| width := width v; height := height v;
                                      frame_rate := 30; pix_fmt := "yuv420p";
                                      vcodec := "libx264" |};
                     audio_stream := with_codec "aac" <$> src_audio s |}) 1.
Proof.
  intros Hl Hp Hs Hd Hv. unfold ffmpeg_model.
  rewrite open_concat, Hl, Hp, Hs, (duration_concat _ _ _ _ _ Hd Hv), Hv, encode_concat.
  rewrite sound_of_one. destruct (src_audio s); reflexivity.
Qed.

Lemma model_concat_inv clp merged e body segs c dt :
  files e !! clp = Some (Text body) ->
  parse_manifest body = Some segs ->
  ffmpeg_model (concat_cmd clp merged) e = ToolEnd c dt ->
  exists s d v,
    concat_sources (files e) segs = inr s /\
    src_duration s = Some d /\ src_video s = Some v /\
    c = Clip {| duration := d;
                video := Some {| width := width v; height := height v;
                                 frame_rate := 30; pix_fmt := "yuv420p";
                                 vcodec := "libx264" |};
                audio_stream := with_codec "aac" <$> src_audio s |}.
Proof.
  intros Hl Hp H.
  destruct (concat_sources (files e) segs) as [err|s] eqn:Hs.
  - unfold ffmpeg_model in H. rewrite open_concat, Hl, Hp, Hs in H. discriminate.
  - destruct (concat_sources_ok _ _ _ Hs) as (d & v & Hd & Hv).
    rewrite (model_concat _ _ _ _ _ _ _ _ Hl Hp Hs Hd Hv) in H. injection H as <- _.
    exists s, d, v. auto.
Qed.

Lemma open_mux mp ap out fs mv ma :
  fs !! mp = Some (Clip mv) -> fs !! ap = Some (Clip ma) ->
  open_inputs fs (inputOptions (mux_cmd mp ap out)) (inputs (mux_cmd mp ap out)) =
    inr [clip_source mv; clip_source ma].
Proof.
  intros Hm Ha. unfold mux_cmd. cbn [inputs inputOptions open_inputs].
  unfold open_input. rewrite Hm, Ha. reflexivity.
Qed.

(** The file whose sound the mux run writes: the merged track's own
    sound unless the audio track has more channels. *)
Definition mux_sound (mv ma : Media) : option Media :=
  match audio_stream mv, audio_stream ma with
  | Some a, Some a' => if channels a <? channels a' then Some ma else Some mv
  | Some _, None => Some mv
  | None, Some _ => Some ma
  | None, None => None
  end.

Lemma best_audio_mux mv ma :
  best_audio [clip_source mv; clip_source ma] = clip_source <$> mux_sound mv ma.
Proof.
  destruct mv as [dv vv [a|]], ma as [da va [a'|]]; unfold mux_sound; cbn;
    try reflexivity.
  destruct (channels a <? channels a'); reflexivity.
Qed.

Lemma duration_mux mp ap out mv ma v :
  video mv = Some v ->
  out_duration (mux_cmd mp ap out)
    (stream_inputs (clip_source mv) (clip_source <$> mux_sound mv ma)) =
    inr (match mux_sound mv ma with
         | Some m => N.min (duration mv) (duration m)
         | None => duration mv
         end).
Proof.
  intros Hv. unfold stream_inputs. cbn [clip_source src_video]. rewrite Hv.
  destruct (mux_sound mv ma) as [m|]; reflexivity.
Qed.

(** The mux run on a merged track and an audio track. *)
Lemma model_mux mp ap out e mv ma v :
  files e !! mp = Some (Clip mv) -> files e !! ap = Some (Clip ma) ->
  video mv = Some v ->
  ffmpeg_model (mux_cmd mp ap out) e =
    ToolEnd (Clip {| duration := match mux_sound mv ma with
                                 | Some m => N.min (duration mv) (duration m)
                                 | None => duration mv
                                 end;
                     video := Some v;
                     audio_stream :=
                       with_codec "aac" <$> (mux_sound mv ma ≫= audio_stream) |}) 1.
Proof.
  intros Hm Ha Hv. unfold ffmpeg_model.
  rewrite (open_mux _ _ _ _ _ _ Hm Ha), best_audio_mux, (duration_mux _ _ _ _ _ _ Hv).
  cbn [src_video clip_source]. rewrite Hv, encode_mux.
  destruct (mux_sound mv ma) as [m|]; [|reflexivity].
  cbn [fmap option_fmap option_map mbind option_bind clip_source src_audio].
  destruct (audio_stream m); reflexivity.
Qed.

Lemma one_line_uint d : one_line (NilEmpty.string_of_uint d) = true.
Proof. induction d; cbn; auto. Qed.

Lemma one_line_decimal n : one_line (decimal n) = true.
Proof.
  unfold decimal, NilZero.string_of_uint.
  destruct (N.to_uint n) eqn:E; try reflexivity; rewrite <- E at 1;
    rewrite E; apply one_line_uint.
Qed.

Lemma one_line_seg_path dirname k now j :
  one_line dirname = true -> one_line (seg_path dirname k now j) = true.
Proof.
  intros H. destruct k; unfold seg_path, img_path, vid_path, tempFolder, path_join;
    rewrite !one_line_app, H, !one_line_decimal; reflexivity.
Qed.

(** What the loop has collected: paths of segments, each holding a
    normalised clip. *)
Definition segments_ready (dirname : string) (e : Env) (segs : list string) : Prop :=
  forall p, p ∈ segs ->
    (exists k now j, p = seg_path dirname k now j) /\
    exists c, files e !! p = Some c /\ normalized c.

Lemma model_loop_ready dirname ms i segs e segs' e' t :
  segments_ready dirname e segs ->
  normalize_loop dirname ffmpeg_model i ms segs e = (Returned segs', e', t) ->
  segments_ready dirname e' segs'.
Proof.
  apply (normalize_loop_invariant dirname ffmpeg_model (segments_ready dirname)).
  clear. intros i f segs e segs' e' t _ HP H.
  destruct (kind_of f) as [k|] eqn:Hk.
  - rewrite (normalize_item_supported dirname ffmpeg_model i f k segs e Hk) in H.
    cbv zeta in H.
    destruct (ffmpeg_model _ e) as [c dt|err dt] eqn:Hrun; [|discriminate].
    injection H as <- <- <-. apply model_item_normalized in Hrun.
    intros p Hp. cbn [files tick put].
    destruct (decide (p = seg_path dirname k (clock e) i)) as [->|Hne].
    + split; [eauto|]. exists c. rewrite lookup_insert_eq. auto.
    + apply elem_of_app in Hp as [Hp|Hp].
      * destruct (HP p Hp) as (Hform & c0 & Hl & Hn). split; [exact Hform|].
        exists c0. rewrite lookup_insert_ne by congruence. auto.
      * apply list_elem_of_singleton in Hp. contradiction.
  - rewrite (normalize_item_skip dirname ffmpeg_model i f segs e Hk) in H.
    injection H as <- <- <-. exact HP.
Qed.

Lemma open_inputs_first fs mp rest mv l :
  fs !! mp = Some (Clip mv) ->
  open_inputs fs [] (mp :: rest) = inr l ->
  exists others, l = clip_source mv :: others.
Proof.
  intros Hm. cbn [open_inputs]. unfold open_input at 1. rewrite Hm.
  change (has_flag "-f concat" []) with false. cbv iota.
  destruct (open_inputs fs [] rest) as [err|others]; [discriminate|].
  intros H. injection H as <-. eauto.
Qed.

(** Under stream copy the mux run hands on the video it was given. *)
Lemma model_mux_video mp ap out e mv v c dt :
  files e !! mp = Some (Clip mv) -> video mv = Some v ->
  ffmpeg_model (mux_cmd mp ap out) e = ToolEnd c dt ->
  exists m, c = Clip m /\ video m = Some v.
Proof.
  intros Hm Hv. unfold ffmpeg_model.
  change (inputOptions (mux_cmd mp ap out)) with (@nil string).
  change (inputs (mux_cmd mp ap out)) with [mp; ap].
  destruct (open_inputs (files e) [] [mp; ap]) as [err|l] eqn:Ho; [discriminate|].
  destruct (open_inputs_first _ _ _ _ _ Hm Ho) as [others ->].
  destruct (out_duration _ _) as [err|d]; [discriminate|].
  cbn [src_video clip_source]. rewrite Hv, encode_mux.
  intros H. injection H as <- _. eexists. split; reflexivity.
Qed.

(** A request that streams, on the modelled encoder: the merged track is
    in the uniform format, the mux run read it and the audio upload as they
    were, and both the merged track and the final video are on disk when the
    request is over. *)
Lemma model_streaming_run dirname req e hd d e' t :
  serve dirname ffmpeg_model req e = (Returned (Streaming hd d), e', t) ->
  one_line dirname = true ->
  Forall (in_uploads dirname) (audioFile d :: mediaFiles d) ->
  exists e3 merged mm c' dt',
    Ffmpeg (concat_cmd (concatListPath d) merged) None ∈ t /\
    Ffmpeg (mux_cmd merged (path (audioFile d)) (outputPath d)) None ∈ t /\
    files e3 !! merged = Some (Clip mm) /\ video mm = Some hd30 /\
    files e3 !! path (audioFile d) = files e !! path (audioFile d) /\
    ffmpeg_model (mux_cmd merged (path (audioFile d)) (outputPath d)) e3 = ToolEnd c' dt' /\
    files e' !! merged = Some (Clip mm) /\
    files e' !! outputPath d = Some c'.
Proof.
  intros H Hdir Hup.
  destruct (serve_streaming_process _ _ _ _ _ _ _ _ H) as (e0 & t1 & t2 & Hp & Hc & ->).
  pose proof (process_spec _ _ _ _ _ _ _ _ Hp) as (_ & _ & _ & _ & _ & merged0 & D).
  destruct (process_streaming_stages _ _ _ _ _ _ _ _ _ Hp)
    as (e1 & t0 & c & dt & c' & dt' & Hloop & Hclp & Hout & Hcat & Hmux & He0 & Hev & Hev').
  cbv zeta in *.
  set (clp := path_join (tempFolder dirname) ("concat-list-" +:+ decimal (clock e1) +:+ ".txt")) in *.
  set (merged := path_join (tempFolder dirname) ("merged-" +:+ decimal (clock e1) +:+ ".mp4")) in *.
  set (body := concatFileContent (segmentPaths d)) in *.
  set (e2 := put clp (Text body) e1) in *.
  set (e3 := tick (put merged c e2) dt) in *.
  assert (Hready : segments_ready dirname e1 (segmentPaths d)).
  { eapply model_loop_ready; [|exact Hloop]. intros p Hp0. inversion Hp0. }
  assert (Hparse : parse_manifest body = Some (segmentPaths d)).
  { apply parse_manifest_concat. apply Forall_forall. intros p Hp0.
    destruct (Hready p Hp0) as ((k & now & j & ->) & _).
    apply one_line_seg_path, Hdir. }
  assert (Hl2 : files e2 !! clp = Some (Text body)) by apply lookup_insert_eq.
  destruct (model_concat_inv _ _ _ _ _ _ _ Hl2 Hparse Hcat)
    as (s & dur & v & Hs & Hd & Hv & ->).
  assert (Hv30 : src_video s = Some hd30).
  { eapply concat_sources_normalized; [|exact Hs].
    intros p c0 Hp0 Hl. destruct (Hready p Hp0) as ((k & now & j & ->) & c1 & Hl1 & Hn).
    unfold e2, put in Hl. cbn [files] in Hl.
    rewrite lookup_insert_ne in Hl by apply list_not_segment.
    rewrite Hl1 in Hl. injection Hl as <-. exact Hn. }
  rewrite Hv in Hv30. injection Hv30 as ->.
  rewrite Forall_forall in Hup.
  assert (Hau : in_uploads dirname (audioFile d)) by (apply Hup; left).
  set (mm := {| duration := dur; video := Some hd30;
                audio_stream := with_codec "aac" <$> src_audio s |}).
  assert (Hm3 : files e3 !! merged = Some (Clip mm)).
  { unfold e3, tick, put. cbn [files]. apply lookup_insert_eq. }
  exists e3, merged, mm, c', dt'.
  rewrite Hclp, Hout.
  split; [apply elem_of_app; left; exact Hev|].
  split; [apply elem_of_app; left; exact Hev'|].
  split; [exact Hm3|]. split; [reflexivity|].
  split.
  { unfold e3, e2, tick, put. cbn [files].
    rewrite lookup_insert_ne by (apply not_eq_sym, upload_not_merged, Hau).
    rewrite lookup_insert_ne by (apply not_eq_sym, upload_not_list, Hau).
    eapply normalize_loop_frame; [|exact Hloop].
    intros k now j. apply upload_not_segment, Hau. }
  split; [exact Hmux|].
  destruct (on_close_frame d e0) as (e4 & t4 & Hrun & Hf & _).
  rewrite Hrun in Hc. injection Hc as -> _.
  split.
  - rewrite Hf.
    + rewrite He0. unfold tick, put. cbn [files].
      rewrite lookup_insert_ne by (apply not_eq_sym, merged_not_output). exact Hm3.
    + eapply merged_path_not_doomed; [exact D|]. apply Forall_forall. exact Hup.
  - rewrite <- Hout. rewrite Hf.
    + rewrite He0, Hout. unfold tick, put. cbn [files]. apply lookup_insert_eq.
    + eapply output_not_doomed; [exact D|]. apply Forall_forall. exact Hup.
Qed.

(** C6: both normalisers write video of 1280x720 at 30 frames per second
    whatever they read, and in every request that streams its result the
    merged track written by the concatenation run and the final video are
    1280x720 at 30 frames per second, whatever the uploads were. *)
Theorem output_is_720p_30fps :
  (forall k inp out e c dt,
     ffmpeg_model (item_cmd k inp out) e = ToolEnd c dt ->
     exists m, c = Clip m /\
       forall v, video m = Some v ->
         width v = 1280 /\ height v = 720 /\ frame_rate v = 30) /\
  (forall dirname req e hd d e' t,
     serve dirname ffmpeg_model req e = (Returned (Streaming hd d), e', t) ->
     one_line dirname = true ->
     Forall (in_uploads dirname) (audioFile d :: mediaFiles d) ->
     exists merged mm m v,
       Ffmpeg (concat_cmd (concatListPath d) merged) None ∈ t /\
       files e' !! merged = Some (Clip mm) /\ video mm = Some hd30 /\
       files e' !! outputPath d = Some (Clip m) /\ video m = Some v /\
       width v = 1280 /\ height v = 720 /\ frame_rate v = 30).
Proof.
  split.
  - intros k inp out e c dt H.
    destruct (model_item_normalized _ _ _ _ _ _ H) as (m & -> & Hv).
    exists m. split; [reflexivity|]. intros v Hm.
    destruct Hv as [Hv|Hv]; rewrite Hv in Hm; [discriminate|].
    injection Hm as <-. repeat split.
  - intros dirname req e hd d e' t H Hdir Hup.
    destruct (model_streaming_run _ _ _ _ _ _ _ H Hdir Hup)
      as (e3 & merged & mm & c' & dt' & Hev & _ & Hm3 & Hv & _ & Hmux & Hm & Ho).
    destruct (model_mux_video _ _ _ _ _ _ _ _ Hm3 Hv Hmux) as (m & -> & Hvm).
    exists merged, mm, m, hd30. repeat split; assumption.
Qed.

(** When the merged track carries no sound, or sound of fewer channels
    than the audio track, the mux run copies the video stream of the merged
    track, encodes the sound of the audio track as AAC and runs for the
    shorter of the two durations. *)
Lemma mux_of_a_quieter_track mp ap out e mv ma v a :
  files e !! mp = Some (Clip mv) -> files e !! ap = Some (Clip ma) ->
  video mv = Some v -> audio_stream ma = Some a ->
  (forall a0, audio_stream mv = Some a0 -> channels a0 < channels a) ->
  ffmpeg_model (mux_cmd mp ap out) e =
    ToolEnd (Clip {| duration := N.min (duration mv) (duration ma);
                     video := Some v;
                     audio_stream := Some (with_codec "aac" a) |}) 1.
Proof.
  intros Hm Ha Hv Hs Hq. rewrite (model_mux _ _ _ _ _ _ _ Hm Ha Hv).
  unfold mux_sound. rewrite Hs.
  destruct (audio_stream mv) as [a0|].
  - specialize (Hq a0 eq_refl). apply N.ltb_lt in Hq. rewrite Hq.
    cbn [mbind option_bind]. rewrite Hs. reflexivity.
  - cbn [mbind option_bind]. rewrite Hs. reflexivity.
Qed.

(** When the merged track carries sound of at least as many channels as
    the audio track, the mux run writes the merged track's own sound and
    runs as long as the merged track: the audio track is left out. *)
Lemma mux_of_a_sounding_track mp ap out e mv ma v a0 :
  files e !! mp = Some (Clip mv) -> files e !! ap = Some (Clip ma) ->
  video mv = Some v -> audio_stream mv = Some a0 ->
  (forall a, audio_stream ma = Some a -> channels a <= channels a0) ->
  ffmpeg_model (mux_cmd mp ap out) e =
    ToolEnd (Clip {| duration := duration mv;
                     video := Some v;
                     audio_stream := Some (with_codec "aac" a0) |}) 1.
Proof.
  intros Hm Ha Hv Hs Hq. rewrite (model_mux _ _ _ _ _ _ _ Hm Ha Hv).
  unfold mux_sound. rewrite Hs.
  destruct (audio_stream ma) as [a|].
  - specialize (Hq a eq_refl). apply N.ltb_ge in Hq. rewrite Hq.
    cbn [mbind option_bind]. rewrite Hs, N.min_id. reflexivity.
  - cbn [mbind option_bind]. rewrite Hs, N.min_id. reflexivity.
Qed.

(** In a request that streams its result the final video on disk is the
    mux of the merged track and the audio upload: with the sound of the
    audio upload and the shorter of the two durations when the merged track
    is the quieter one. *)
Lemma streamed_mux_of_a_quieter_track dirname req e hd d e' t ma a :
  serve dirname ffmpeg_model req e = (Returned (Streaming hd d), e', t) ->
  one_line dirname = true ->
  Forall (in_uploads dirname) (audioFile d :: mediaFiles d) ->
  files e !! path (audioFile d) = Some (Clip ma) ->
  audio_stream ma = Some a ->
  exists merged mv,
    Ffmpeg (mux_cmd merged (path (audioFile d)) (outputPath d)) None ∈ t /\
    files e' !! merged = Some (Clip mv) /\
    ((forall a0, audio_stream mv = Some a0 -> channels a0 < channels a) ->
     files e' !! outputPath d =
       Some (Clip {| duration := N.min (duration mv) (duration ma);
                     video := video mv;
                     audio_stream := Some (with_codec "aac" a) |})).
Proof.
  intros H Hdir Hup Ha Hs.
  destruct (model_streaming_run _ _ _ _ _ _ _ H Hdir Hup)
    as (e3 & merged & mm & c' & dt' & _ & Hev & Hm3 & Hv & Ha3 & Hmux & Hm & Ho).
  rewrite Ha in Ha3.
  exists merged, mm. split; [exact Hev|]. split; [exact Hm|]. intros Hq.
  rewrite (mux_of_a_quieter_track _ _ _ _ _ _ _ _ Hm3 Ha3 Hv Hs Hq) in Hmux.
  injection Hmux as <- _. rewrite Hv. exact Ho.
Qed.

(** An uploaded still image with an image MIME type. *)
Definition image_upload (dirname : string) (e : Env) (f : File) : Prop :=
  startsWith (default EmptyString (mimetype f)) "image/" = true /\
  in_uploads dirname f /\
  exists w h, files e !! path f = Some (Still w h).

Definition still_segments (dirname : string) (e : Env) (segs : list string) : Prop :=
  forall p, p ∈ segs ->
    (exists now j, p = img_path dirname now j) /\
    files e !! p = Some (Clip still_clip).

Lemma image_upload_kind dirname e f : image_upload dirname e f -> kind_of f = Some Image.
Proof. intros (H & _). unfold kind_of. cbv zeta. rewrite H. reflexivity. Qed.

(** On still images the loop never fails and leaves one three-second
    segment per image. *)
Lemma images_loop dirname ms : forall i segs e,
  Forall (image_upload dirname e) ms ->
  still_segments dirname e segs ->
  exists segs' e1 t1,
    normalize_loop dirname ffmpeg_model i ms segs e = (Returned segs', e1, t1) /\
    length segs' = (length segs + length ms)%nat /\
    still_segments dirname e1 segs'.
Proof.
  induction ms as [|f ms IH]; intros i segs e Hms Hsegs.
  - exists segs, e, []. split; [reflexivity|]. split; [cbn; lia | exact Hsegs].
  - inversion Hms as [|? ? Hf Hrest]; subst.
    pose proof (image_upload_kind _ _ _ Hf) as Hk.
    destruct Hf as (_ & Hup & w & h & Hl).
    set (seg := img_path dirname (clock e) i).
    set (e1 := tick (put seg (Clip still_clip) e) 1).
    assert (Hitem : normalize_item dirname ffmpeg_model i f segs e =
                    (Returned (segs ++ [seg]), e1,
                     [Ffmpeg (image_cmd (path f) seg) None])).
    { rewrite (normalize_item_supported dirname ffmpeg_model i f Image segs e Hk).
      cbv zeta. cbn [item_cmd seg_path]. fold seg.
      rewrite (model_image _ _ _ _ _ Hl). reflexivity. }
    destruct (IH (S i) (segs ++ [seg]) e1) as (segs' & e2 & t2 & Hrun & Hlen & Hst).
    + eapply Forall_impl; [exact Hrest|].
      intros g (Hg & Hgu & w' & h' & Hgl). split; [exact Hg|]. split; [exact Hgu|].
      exists w', h'. unfold e1, tick, put. cbn [files].
      rewrite lookup_insert_ne; [exact Hgl|].
      apply not_eq_sym. exact (upload_not_segment dirname g Image (clock e) i Hgu).
    + intros p Hp. unfold e1, tick, put. cbn [files].
      destruct (decide (p = seg)) as [->|Hne].
      * split; [unfold seg; eauto | apply lookup_insert_eq].
      * apply elem_of_app in Hp as [Hp|Hp].
        -- destruct (Hsegs p Hp) as (Hform & Hlp). split; [exact Hform|].
           rewrite lookup_insert_ne by congruence. exact Hlp.
        -- apply list_elem_of_singleton in Hp. contradiction.
    + exists segs', e2, (Ffmpeg (image_cmd (path f) seg) None :: t2).
      split.
      * cbn [normalize_loop]. unfold bind. rewrite Hitem, Hrun. reflexivity.
      * split; [|exact Hst]. rewrite Hlen, length_app. cbn [length]. lia.
Qed.

(** C2: on a still image the image normaliser, which loops the input and
    passes [-t 3], [-r 30] and the scale and format filter, writes a silent
    clip of exactly 3 seconds, 1280x720, 30 frames per second, yuv420p; and
    for a request whose media items are N still images the merged track
    written by the concatenation run lasts 3 x N seconds (durations are in
    milliseconds). *)
Theorem image_segments_last_three_seconds :
  (forall inp out e w h,
     files e !! inp = Some (Still w h) ->
     ffmpeg_model (image_cmd inp out) e =
       ToolEnd (Clip {| duration := 3000;
                        video := Some {| width := 1280; height := 720; frame_rate := 30;
                                         pix_fmt := "yuv420p"; vcodec := "libx264" |};
                        audio_stream := None |}) 1) /\
  (forall dirname m ms a rest e o e' t,
     serve dirname ffmpeg_model
       {| media := Some (m :: ms); audio := Some (a :: rest) |} e = (o, e', t) ->
     one_line dirname = true ->
     Forall (image_upload dirname e) (m :: ms) ->
     in_uploads dirname a ->
     exists clp merged,
       Ffmpeg (concat_cmd clp merged) None ∈ t /\
       files e' !! merged =
         Some (Clip {| duration := 3000 * N.of_nat (length (m :: ms));
                       video := Some hd30; audio_stream := None |})).
Proof.
  split; [exact model_image|].
  intros dirname m ms a rest e o e' t H Hdir Hms Ha.
  destruct (images_loop dirname (m :: ms) 0 [] e Hms) as (segs & e1 & t1 & Hloop & Hlen & Hst).
  { intros p Hp. inversion Hp. }
  destruct segs as [|s0 segs]; [discriminate|].
  apply serve_valid in H.
  destruct (process dirname ffmpeg_model (m :: ms) a e) as [[o1 e0] t0] eqn:Hp.
  pose proof Hp as Hp2. unfold process, bind in Hp2.
  rewrite Hloop, concat_and_mux_run in Hp2. cbv zeta in Hp2.
  set (clp := path_join (tempFolder dirname) ("concat-list-" +:+ decimal (clock e1) +:+ ".txt")) in *.
  set (merged := path_join (tempFolder dirname) ("merged-" +:+ decimal (clock e1) +:+ ".mp4")) in *.
  set (body := concatFileContent (s0 :: segs)) in *.
  set (e2 := put clp (Text body) e1) in *.
  set (mm := {| duration := 3000 * N.of_nat (length (m :: ms));
                video := Some hd30; audio_stream := None |}).
  assert (Hcat : ffmpeg_model (concat_cmd clp merged) e2 = ToolEnd (Clip mm) 1).
  { assert (Hparse : parse_manifest body = Some (s0 :: segs)).
    { apply parse_manifest_concat. apply Forall_forall. intros p Hp0.
      destruct (Hst p Hp0) as ((now & j & ->) & _).
      apply (one_line_seg_path dirname Image), Hdir. }
    assert (Hsrc : concat_sources (files e2) (s0 :: segs) =
                   inr {| src_duration := Some (3000 * N.of_nat (length (s0 :: segs)));
                          src_video := Some hd30; src_audio := None |}).
    { apply concat_sources_stills; [discriminate|]. intros p Hp0.
      destruct (Hst p Hp0) as ((now & j & ->) & Hl).
      unfold e2, put. cbn [files].
      rewrite lookup_insert_ne by apply (list_not_segment dirname (clock e1) Image).
      exact Hl. }
    rewrite (model_concat clp merged e2 body _ _ _ hd30
               (lookup_insert_eq _ _ _) Hparse Hsrc eq_refl eq_refl).
    rewrite Hlen. reflexivity. }
  rewrite Hcat in Hp2.
  set (e3 := tick (put merged (Clip mm) e2) 1) in *.
  assert (Hm3 : files e3 !! merged = Some (Clip mm)) by apply lookup_insert_eq.
  exists clp, merged.
  destruct (ffmpeg_model (mux_cmd merged (path a) _) e3) as [c' dt'|err dt'];
    cbn beta iota in Hp2; injection Hp2 as <- <- <-.
  - destruct H as (t2 & Hc & -> & ->).
    pose proof (process_spec _ _ _ _ _ _ _ _ Hp) as (_ & _ & _ & _ & _ & merged0 & D).
    match type of Hc with
    | on_close ?d0 ?e0 = _ => destruct (on_close_frame d0 e0) as (e4 & t4 & Hrun & Hf & _)
    end.
    rewrite Hrun in Hc. injection Hc as -> _.
    split.
    + apply elem_of_app. left. apply elem_of_app. right. do 2 right. left.
    + rewrite Hf.
      * rewrite <- Hm3. unfold tick, put. cbn [files].
        apply lookup_insert_ne, not_eq_sym, merged_not_output.
      * eapply merged_path_not_doomed; [exact D|].
        constructor; [exact Ha|]. eapply Forall_impl; [exact Hms|].
        intros f (_ & Hf0 & _). exact Hf0.
  - destruct H as (-> & -> & ->).
    split; [|exact Hm3].
    apply elem_of_app. left. apply elem_of_app. right. do 2 right. left.
Qed.

(** ** A worked request *)

Definition demo_dir : string := "/srv/it's".

Definition demo_upload (name : string) : string := path_join (uploadFolder demo_dir) name.

Definition photo : File :=
  {| path := demo_upload "1700000000000-a.png"; mimetype := Some "image/png" |}.
Definition notes : File :=
  {| path := demo_upload "1700000000000-notes.txt"; mimetype := Some "text/plain" |}.
Definition movie : File :=
  {| path := demo_upload "1700000000000-b.mp4"; mimetype := Some "video/mp4" |}.
Definition photo2 : File :=
  {| path := demo_upload "1700000000000-c.jpg"; mimetype := Some "image/jpeg" |}.
Definition photo3 : File :=
  {| path := demo_upload "1700000000000-d.png"; mimetype := Some "image/png" |}.
Definition broken : File :=
  {| path := demo_upload "1700000000000-e.png"; mimetype := Some "image/png" |}.
Definition recording : File :=
  {| path := demo_upload "1700000000000-background-audio.webm";
     mimetype := Some "audio/webm" |}.

Definition camera : VideoStream :=
  {| width := 1920; height := 1080; frame_rate := 60; pix_fmt := "yuv422p"; vcodec := "hevc" |}.
Definition movie_media : Media :=
  {| duration := 4500; video := Some camera; audio_stream := Some {| acodec := "mp3"; channels := 2 |} |}.
Definition recording_media : Media :=
  {| duration := 5000; video := None;
     audio_stream := Some {| acodec := "opus"; channels := 1 |} |}.
Definition merged_media : Media :=
  {| duration := 7500; video := Some hd30; audio_stream := None |}.

Definition demo_env : Env :=
  {| files :=
       <[path photo := Still 640 480]>
       (<[path notes := Text "hello"]>
       (<[path movie := Clip movie_media]>
       (<[path photo2 := Still 4000 3000]>
       (<[path photo3 := Still 100 100]>
       (<[path broken := Text "not an image"]>
       (<[path recording := Clip recording_media]> ∅))))));
     clock := 1700000000000 |}.

Definition demo_req : Request :=
  {| media := Some [photo; notes; movie]; audio := Some [recording] |}.
Definition images_req : Request :=
  {| media := Some [photo; photo2; photo3]; audio := Some [recording] |}.
Definition broken_req : Request :=
  {| media := Some [photo; broken; movie]; audio := Some [recording] |}.

Definition demo_delivery : Delivery :=
  {| outputPath := "/srv/it's/outputs/final-1700000000003.mp4";
     audioFile := recording;
     mediaFiles := [photo; notes; movie];
     segmentPaths := ["/srv/it's/temp/img-1700000000000-0.mp4";
                      "/srv/it's/temp/vid-1700000000001-2.mp4"];
     concatListPath := "/srv/it's/temp/concat-list-1700000000002.txt" |}.

Definition demo_merged : string := "/srv/it's/temp/merged-1700000000002.mp4".

Definition demo_run : Outcome Handled * Env * list Event :=
  Eval vm_compute in serve demo_dir ffmpeg_model demo_req demo_env.
Definition demo_after : Env := snd (fst demo_run).
Definition demo_trace : list Event := snd demo_run.

Definition images_run : Outcome Handled * Env * list Event :=
  Eval vm_compute in serve demo_dir ffmpeg_model images_req demo_env.

Definition broken_run : Outcome Handled * Env * list Event :=
  Eval vm_compute in serve demo_dir ffmpeg_model broken_req demo_env.

Lemma demo_run_eq :
  serve demo_dir ffmpeg_model demo_req demo_env =
    (Returned (Streaming download_headers demo_delivery), demo_after, demo_trace).
Proof. vm_compute. reflexivity. Defined.

Lemma demo_uploads :
  Forall (in_uploads demo_dir) (audioFile demo_delivery :: mediaFiles demo_delivery).
Proof. repeat constructor; eexists; reflexivity. Defined.

Example demo_manifest :
  files (put (concatListPath demo_delivery)
             (Text (concatFileContent (segmentPaths demo_delivery))) demo_env)
    !! concatListPath demo_delivery =
  Some (Text ("file '/srv/it'\''s/temp/img-1700000000000-0.mp4'" +:+ LF +:+
              "file '/srv/it'\''s/temp/vid-1700000000001-2.mp4'")).
Proof. vm_compute. reflexivity. Qed.

Lemma manifest_follows_submission_order_witness :
  serve demo_dir ffmpeg_model demo_req demo_env =
    (Returned (Streaming download_headers demo_delivery), demo_after, demo_trace) /\
  media demo_req = Some [photo; notes; movie] /\
  WriteFile "/srv/it's/temp/concat-list-1700000000002.txt"
    (join LF (map manifest_line ["/srv/it's/temp/img-1700000000000-0.mp4";
                                 "/srv/it's/temp/vid-1700000000001-2.mp4"]))
    ∈ demo_trace /\
  Forall2 (segment_of demo_dir demo_trace)
    (classify 0 [photo; notes; movie])
    ["/srv/it's/temp/img-1700000000000-0.mp4"; "/srv/it's/temp/vid-1700000000001-2.mp4"].
Proof.
  split; [exact demo_run_eq|]. split; [reflexivity|].
  exact (proj1 (proj2 (manifest_follows_submission_order
                         demo_dir ffmpeg_model demo_req [photo; notes; movie]
                         demo_env _ _ _ demo_run_eq eq_refl))
           download_headers demo_delivery eq_refl).
Defined.

Lemma image_segments_last_three_seconds_witness :
  files demo_env !! path photo = Some (Still 640 480) /\
  ffmpeg_model (image_cmd (path photo) "/srv/it's/temp/img-1700000000000-0.mp4") demo_env =
    ToolEnd (Clip still_clip) 1 /\
  serve demo_dir ffmpeg_model images_req demo_env =
    (fst (fst images_run), snd (fst images_run), snd images_run) /\
  one_line demo_dir = true /\
  Forall (image_upload demo_dir demo_env) [photo; photo2; photo3] /\
  in_uploads demo_dir recording /\
  exists clp merged,
    Ffmpeg (concat_cmd clp merged) None ∈ snd images_run /\
    files (snd (fst images_run)) !! merged =
      Some (Clip {| duration := 9000; video := Some hd30; audio_stream := None |}).
Proof.
  assert (Hl : files demo_env !! path photo = Some (Still 640 480))
    by (vm_compute; reflexivity).
  assert (Hrun : serve demo_dir ffmpeg_model images_req demo_env =
                 (fst (fst images_run), snd (fst images_run), snd images_run))
    by (vm_compute; reflexivity).
  assert (Hms : Forall (image_upload demo_dir demo_env) [photo; photo2; photo3]).
  { repeat constructor; try (eexists; reflexivity);
      eexists _, _; vm_compute; reflexivity. }
  assert (Ha : in_uploads demo_dir recording) by (eexists; reflexivity).
  split; [exact Hl|].
  split; [exact (proj1 image_segments_last_three_seconds _ _ _ _ _ Hl)|].
  split; [exact Hrun|]. split; [reflexivity|]. split; [exact Hms|]. split; [exact Ha|].
  exact (proj2 image_segments_last_three_seconds demo_dir photo [photo2; photo3]
           recording [] demo_env _ _ _ Hrun eq_refl Hms Ha).
Defined.

(** *** A video with sound and a short recording *)

(** A spoken note of two seconds, recorded in mono. *)
Definition voice_note : Media :=
  {| duration := 2000; video := None;
     audio_stream := Some {| acodec := "opus"; channels := 1 |} |}.

Definition talkie_env : Env :=
  {| files := <[path recording := Clip voice_note]> (files demo_env);
     clock := clock demo_env |}.

Definition talkie_req : Request :=
  {| media := Some [movie]; audio := Some [recording] |}.

Definition talkie_delivery : Delivery :=
  {| outputPath := "/srv/it's/outputs/final-1700000000002.mp4";
     audioFile := recording;
     mediaFiles := [movie];
     segmentPaths := ["/srv/it's/temp/vid-1700000000000-0.mp4"];
     concatListPath := "/srv/it's/temp/concat-list-1700000000001.txt" |}.

Definition talkie_merged : string := "/srv/it's/temp/merged-1700000000001.mp4".

(** The video in the uniform format, with its own sound. *)
Definition talkie_track : Media :=
  {| duration := 4500; video := Some hd30;
     audio_stream := Some {| acodec := "aac"; channels := 2 |} |}.

Definition talkie_run : Outcome Handled * Env * list Event :=
  Eval vm_compute in serve demo_dir ffmpeg_model talkie_req talkie_env.

(** C3: the mux stage does not always do what the claim says.  The handler
    hands the merged track and the audio upload to the tool and maps no
    stream; a merged track made from a video with sound carries that sound
    (the concatenation run is not told to drop it), and the tool then
    writes the sound of the merged track, not the recording.  Here the
    request is one video of 4.5 seconds with stereo sound and a mono
    recording of 2 seconds: the final video is the merged track as it is,
    4.5 seconds long and not the shorter of the two durations, with the two
    channels of the video's sound and nothing of the recording. *)
Theorem mux_keeps_the_videos_own_sound :
  files talkie_env !! path movie = Some (Clip movie_media) /\
  files talkie_env !! path recording = Some (Clip voice_note) /\
  exists e' t,
    serve demo_dir ffmpeg_model talkie_req talkie_env =
      (Returned (Streaming download_headers talkie_delivery), e', t) /\
    Ffmpeg (concat_cmd (concatListPath talkie_delivery) talkie_merged) None ∈ t /\
    Ffmpeg (mux_cmd talkie_merged (path recording) (outputPath talkie_delivery)) None ∈ t /\
    files e' !! talkie_merged = Some (Clip talkie_track) /\
    files e' !! outputPath talkie_delivery = Some (Clip talkie_track) /\
    duration talkie_track <> N.min (duration talkie_track) (duration voice_note) /\
    audio_stream talkie_track <> with_codec "aac" <$> audio_stream voice_note.
Proof.
  split; [vm_compute; reflexivity|]. split; [vm_compute; reflexivity|].
  exists (snd (fst talkie_run)), (snd talkie_run).
  split; [vm_compute; reflexivity|].
  split; [apply list_elem_of_In; vm_compute; tauto|].
  split; [apply list_elem_of_In; vm_compute; tauto|].
  split; [vm_compute; reflexivity|]. split; [vm_compute; reflexivity|].
  split; [vm_compute; discriminate | vm_compute; discriminate].
Qed.

(** With a still image first the merged track of the worked request is
    silent, and the final video has the sound of the recording and the
    shorter of the two durations. *)
Example demo_final_has_the_recording :
  files demo_env !! path recording = Some (Clip recording_media) /\
  files demo_after !! demo_merged = Some (Clip merged_media) /\
  files demo_after !! outputPath demo_delivery =
    Some (Clip {| duration := N.min (duration merged_media) (duration recording_media);
                  video := video merged_media;
                  audio_stream := with_codec "aac" <$> audio_stream recording_media |}).
Proof. vm_compute. repeat split. Qed.

Lemma unsupported_items_skipped_witness :
  unsupported notes /\
  normalize_item demo_dir ffmpeg_model 1 notes ["/srv/it's/temp/img-1700000000000-0.mp4"] demo_env =
    (Returned ["/srv/it's/temp/img-1700000000000-0.mp4"], demo_env, [skip_log notes]) /\
  Forall unsupported [notes; recording] /\
  serve demo_dir ffmpeg_model
    {| media := Some [notes; recording]; audio := Some [recording] |} demo_env =
    (Returned (Replied 400 "No valid media (image/video) files to process."),
     demo_env, map skip_log [notes; recording]).
Proof.
  assert (Hn : unsupported notes) by (split; reflexivity).
  assert (Hall : Forall unsupported [notes; recording])
    by (repeat constructor; reflexivity).
  split; [exact Hn|].
  split; [exact (proj1 (unsupported_items_skipped demo_dir ffmpeg_model) _ _ _ _ Hn)|].
  split; [exact Hall|].
  exact (proj2 (unsupported_items_skipped demo_dir ffmpeg_model) _ _ _ _ _ Hall).
Defined.

Lemma manifest_quoting_round_trips_witness :
  Forall (fun p => one_line p = true) (segmentPaths demo_delivery) /\
  parse_manifest
    ("file '/srv/it'\''s/temp/img-1700000000000-0.mp4'" +:+ LF +:+
     "file '/srv/it'\''s/temp/vid-1700000000001-2.mp4'") =
  Some ["/srv/it's/temp/img-1700000000000-0.mp4"; "/srv/it's/temp/vid-1700000000001-2.mp4"].
Proof.
  assert (H : Forall (fun p => one_line p = true) (segmentPaths demo_delivery))
    by (repeat constructor).
  split; [exact H|].
  exact (proj2 (proj2 (proj2 (proj2 manifest_quoting_round_trips))) _ H).
Defined.

Lemma output_is_720p_30fps_witness :
  ffmpeg_model (item_cmd Video (path movie) "/srv/it's/temp/vid-1700000000001-2.mp4") demo_env =
    ToolEnd (Clip {| duration := 4500; video := Some hd30;
                     audio_stream := Some {| acodec := "aac"; channels := 2 |} |}) 1 /\
  serve demo_dir ffmpeg_model demo_req demo_env =
    (Returned (Streaming download_headers demo_delivery), demo_after, demo_trace) /\
  one_line demo_dir = true /\
  Forall (in_uploads demo_dir) (audioFile demo_delivery :: mediaFiles demo_delivery) /\
  (exists m, Clip {| duration := 4500; video := Some hd30;
                     audio_stream := Some {| acodec := "aac"; channels := 2 |} |} = Clip m /\
     forall v, video m = Some v -> width v = 1280 /\ height v = 720 /\ frame_rate v = 30) /\
  exists merged mm m v,
    Ffmpeg (concat_cmd (concatListPath demo_delivery) merged) None ∈ demo_trace /\
    files demo_after !! merged = Some (Clip mm) /\ video mm = Some hd30 /\
    files demo_after !! outputPath demo_delivery = Some (Clip m) /\ video m = Some v /\
    width v = 1280 /\ height v = 720 /\ frame_rate v = 30.
Proof.
  assert (Hitem : ffmpeg_model (item_cmd Video (path movie)
                                  "/srv/it's/temp/vid-1700000000001-2.mp4") demo_env =
                  ToolEnd (Clip {| duration := 4500; video := Some hd30;
                                   audio_stream :=
                                     Some {| acodec := "aac"; channels := 2 |} |}) 1)
    by (vm_compute; reflexivity).
  split; [exact Hitem|]. split; [exact demo_run_eq|]. split; [reflexivity|].
  split; [exact demo_uploads|].
  split; [exact (proj1 output_is_720p_30fps _ _ _ _ _ _ Hitem)|].
  exact (proj2 output_is_720p_30fps demo_dir demo_req demo_env _ _ _ _
           demo_run_eq eq_refl demo_uploads).
Defined.

Definition broken_error : string :=
  "/srv/it's/uploads/1700000000000-e.png: Invalid data found when processing input".

Lemma tool_failure_fails_request_witness :
  serve demo_dir ffmpeg_model broken_req demo_env =
    (fst (fst broken_run), snd (fst broken_run), snd broken_run) /\
  Ffmpeg (image_cmd (path broken) "/srv/it's/temp/img-1700000000001-1.mp4")
         (Some broken_error) ∈ snd broken_run /\
  fst (fst broken_run) = Returned (Replied 500 "Failed to create video.") /\
  (exists pre logs,
     snd broken_run =
       pre ++ Ffmpeg (image_cmd (path broken) "/srv/it's/temp/img-1700000000001-1.mp4")
                     (Some broken_error) :: logs ++
         [ConsoleError [LStr "Error in /create-video:"; LStr broken_error]] /\
     no_failure pre /\ Forall is_console logs) /\
  no_unlink (snd broken_run) /\
  keeps_files demo_env (snd (fst broken_run)).
Proof.
  assert (Hrun : serve demo_dir ffmpeg_model broken_req demo_env =
                 (fst (fst broken_run), snd (fst broken_run), snd broken_run))
    by (vm_compute; reflexivity).
  assert (Hin : Ffmpeg (image_cmd (path broken) "/srv/it's/temp/img-1700000000001-1.mp4")
                       (Some broken_error) ∈ snd broken_run)
    by (apply list_elem_of_further, list_elem_of_here).
  split; [exact Hrun|]. split; [exact Hin|].
  exact (tool_failure_fails_request demo_dir ffmpeg_model broken_req demo_env
           _ _ _ _ _ Hrun Hin).
Defined.

Lemma cleanup_removes_request_files_witness :
  serve demo_dir ffmpeg_model demo_req demo_env =
    (Returned (Streaming download_headers demo_delivery), demo_after, demo_trace) /\
  is_Some (files demo_env !! path (audioFile demo_delivery)) /\
  Forall (in_uploads demo_dir) (audioFile demo_delivery :: mediaFiles demo_delivery) /\
  media demo_req = Some (mediaFiles demo_delivery) /\
  (exists rest, audio demo_req = Some (audioFile demo_delivery :: rest)) /\
  files demo_after !! path (audioFile demo_delivery) = None /\
  (forall f, f ∈ mediaFiles demo_delivery -> files demo_after !! path f = None) /\
  (forall p, p ∈ segmentPaths demo_delivery -> files demo_after !! p = None) /\
  files demo_after !! concatListPath demo_delivery = None /\
  is_Some (files demo_after !! outputPath demo_delivery).
Proof.
  assert (Ha : is_Some (files demo_env !! path (audioFile demo_delivery)))
    by (eexists; vm_compute; reflexivity).
  split; [exact demo_run_eq|]. split; [exact Ha|]. split; [exact demo_uploads|].
  exact (cleanup_removes_request_files demo_dir ffmpeg_model demo_req demo_env
           _ _ _ _ demo_run_eq Ha demo_uploads).
Defined.

Lemma merged_track_survives_cleanup_witness :
  serve demo_dir ffmpeg_model demo_req demo_env =
    (Returned (Streaming download_headers demo_delivery), demo_after, demo_trace) /\
  Forall (in_uploads demo_dir) (audioFile demo_delivery :: mediaFiles demo_delivery) /\
  exists merged,
    (exists now : N,
       merged = path_join (tempFolder demo_dir) ("merged-" +:+ decimal now +:+ ".mp4")) /\
    Ffmpeg (concat_cmd (concatListPath demo_delivery) merged) None ∈ demo_trace /\
    (merged ∉ doomed demo_delivery) /\
    (Unlink merged ∉ demo_trace) /\
    is_Some (files demo_after !! merged).
Proof.
  split; [exact demo_run_eq|]. split; [exact demo_uploads|].
  exact (merged_track_survives_cleanup demo_dir ffmpeg_model demo_req demo_env
           _ _ _ _ demo_run_eq demo_uploads).
Defined.

Example demo_merged_left :
  files demo_after !! demo_merged = Some (Clip merged_media) /\
  files demo_after !! outputPath demo_delivery =
    Some (Clip {| duration := 5000; video := Some hd30;
                  audio_stream := Some {| acodec := "aac"; channels := 1 |} |}) /\
  files demo_after !! path photo = None.
Proof. vm_compute. repeat split. Qed.

(** *** The temporary files of a request *)

(** A path the request wrote: the output of a run of the tool that ended,
    or a file written by the handler itself. *)
Definition written (t : list Event) (p : string) : Prop :=
  (exists cmd, Ffmpeg cmd None ∈ t /\ output cmd = p) \/
  (exists content, WriteFile p content ∈ t).

Definition in_temp (dirname : string) (p : string) : Prop :=
  exists name, p = path_join (tempFolder dirname) name.

(** C9 as stated fails: it is not the case that after every request that
    streamed its result all the temporary files the request wrote are gone.
    In the worked request the merged track, written to the temporary folder
    by the concatenation run, is still on disk after the clean-up. *)
Lemma cleanup_leaves_a_temp_file :
  ~ (forall dirname tool req e hd d e' t,
       serve dirname tool req e = (Returned (Streaming hd d), e', t) ->
       is_Some (files e !! path (audioFile d)) ->
       Forall (in_uploads dirname) (audioFile d :: mediaFiles d) ->
       forall p, written t p -> in_temp dirname p -> files e' !! p = None).
Proof.
  intros H.
  assert (Ha : is_Some (files demo_env !! path (audioFile demo_delivery)))
    by (eexists; vm_compute; reflexivity).
  assert (Hw : written demo_trace demo_merged).
  { left. exists (concat_cmd (concatListPath demo_delivery) demo_merged).
    split; [|reflexivity]. do 5 apply list_elem_of_further. apply list_elem_of_here. }
  assert (Ht : in_temp demo_dir demo_merged) by (eexists; reflexivity).
  specialize (H demo_dir ffmpeg_model demo_req demo_env _ _ _ _
                demo_run_eq Ha demo_uploads demo_merged Hw Ht).
  vm_compute in H. discriminate H.
Qed.

(** A failure in the last stage: the audio upload is not a media file, the
    mux run fails, the answer is 500 and the segment and the merged track
    stay in the temporary folder. *)
Example mux_failure_leaves_temp_files :
  let '(o, e', t) :=
    serve demo_dir ffmpeg_model {| media := Some [photo]; audio := Some [notes] |} demo_env in
  o = Returned (Replied 500 "Failed to create video.") /\
  files e' !! "/srv/it's/temp/img-1700000000000-0.mp4" = Some (Clip still_clip) /\
  files e' !! "/srv/it's/temp/merged-1700000000001.mp4" = Some (Clip still_clip) /\
  last t = Some (ConsoleError
                   [LStr "Error in /create-video:";
                    LStr "/srv/it's/uploads/1700000000000-notes.txt: Invalid data found when processing input"]).
Proof. vm_compute. repeat split. Qed.

(** ** File names *)

(** The character does not occur in the string. *)
Fixpoint lacks (c : ascii) (s : string) : bool :=
  match s with
  | EmptyString => true
  | String a r => negb (a =? c)%char && lacks c r
  end.

Definition is_digit (c : ascii) : bool :=
  match digit c with Some _ => true | None => false end.

Fixpoint all_digits (s : string) : bool :=
  match s with
  | EmptyString => true
  | String a r => is_digit a && all_digits r
  end.

Lemma all_digits_uint d : all_digits (NilEmpty.string_of_uint d) = true.
Proof. induction d; cbn; auto. Qed.

Lemma all_digits_decimal n : all_digits (decimal n) = true.
Proof.
  unfold decimal, NilZero.string_of_uint.
  destruct (N.to_uint n) eqn:E; try reflexivity; rewrite <- E at 1;
    rewrite E; apply all_digits_uint.
Qed.

Lemma all_digits_lacks c s : is_digit c = false -> all_digits s = true -> lacks c s = true.
Proof.
  intros Hc. induction s as [|a r IH]; [reflexivity|]. cbn [all_digits lacks].
  intros H. apply andb_true_iff in H as [Ha Hr]. rewrite (IH Hr), andb_true_r.
  apply negb_true_iff. destruct (Ascii.eqb_spec a c) as [->|]; [congruence | reflexivity].
Qed.

(** Two strings cut at the first occurrence of a separator agree part by
    part. *)
Lemma split_at_sep c a : forall a' b b',
  lacks c a = true -> lacks c a' = true ->
  a +:+ String c b = a' +:+ String c b' -> a = a' /\ b = b'.
Proof.
  induction a as [|x a IH]; intros [|x' a'] b b' Ha Ha' H.
  - injection H as ->. auto.
  - rewrite append_cons, append_nil_l in H. injection H as <- _.
    cbn in Ha'. rewrite Ascii.eqb_refl in Ha'. discriminate.
  - rewrite append_cons, append_nil_l in H. injection H as -> _.
    cbn in Ha. rewrite Ascii.eqb_refl in Ha. discriminate.
  - rewrite !append_cons in H. injection H as -> H.
    cbn [lacks] in Ha, Ha'.
    apply andb_true_iff in Ha as [_ Ha]. apply andb_true_iff in Ha' as [_ Ha'].
    destruct (IH _ _ _ Ha Ha' H) as [-> ->]. auto.
Qed.

Lemma to_uint_not_nil n : N.to_uint n <> Nil.
Proof.
  destruct n as [|p]; [discriminate|]. apply DecimalPos.Unsigned.to_uint_nonnil.
Qed.

Lemma decimal_inj n m : decimal n = decimal m -> n = m.
Proof.
  unfold decimal. intros H.
  apply (f_equal NilZero.uint_of_string) in H.
  rewrite !NilZero.usu in H by apply to_uint_not_nil.
  injection H as H. apply DecimalN.Unsigned.to_uint_inj, H.
Qed.

(** A name of the form [<number>-<rest>] determines the number and the
    rest. *)
Lemma numbered_name_inj n m a b :
  decimal n +:+ "-" +:+ a = decimal m +:+ "-" +:+ b -> n = m /\ a = b.
Proof.
  intros H.
  destruct (split_at_sep "-" (decimal n) (decimal m) a b) as [Hd Hr].
  - apply all_digits_lacks; [reflexivity | apply all_digits_decimal].
  - apply all_digits_lacks; [reflexivity | apply all_digits_decimal].
  - exact H.
  - split; [apply decimal_inj, Hd | exact Hr].
Qed.

Lemma seg_path_inj dirname k now i k' now' i' :
  seg_path dirname k now i = seg_path dirname k' now' i' ->
  k = k' /\ now = now' /\ i = i'.
Proof.
  intros H.
  assert (Hname : forall (pre : string) x j y j',
             pre +:+ decimal x +:+ "-" +:+ decimal (N.of_nat j) +:+ ".mp4" =
             pre +:+ decimal y +:+ "-" +:+ decimal (N.of_nat j') +:+ ".mp4" ->
             x = y /\ j = j').
  { intros pre x j y j' E. apply (inj (String.append pre)) in E.
    apply numbered_name_inj in E as [-> E]. split; [reflexivity|].
    destruct (split_at_sep "." (decimal (N.of_nat j)) (decimal (N.of_nat j')) "mp4" "mp4")
      as [Hd _].
    - apply all_digits_lacks; [reflexivity | apply all_digits_decimal].
    - apply all_digits_lacks; [reflexivity | apply all_digits_decimal].
    - exact E.
    - apply decimal_inj in Hd. lia. }
  destruct k, k'; unfold seg_path, img_path, vid_path in H; apply path_join_inj in H.
  - destruct (Hname _ _ _ _ _ H) as [-> ->]. auto.
  - rewrite !append_cons in H. discriminate.
  - rewrite !append_cons in H. discriminate.
  - destruct (Hname _ _ _ _ _ H) as [-> ->]. auto.
Qed.

(** ** More about the handler *)

Ltac paths_differ H :=
  unfold seg_path, img_path, vid_path, tempFolder, outputFolder, uploadFolder in H;
  rewrite ?path_join_nested in H;
  apply path_join_inj in H;
  rewrite ?append_cons in H;
  discriminate H.

Ltac all_events :=
  repeat first
    [ apply List.Forall_nil
    | apply List.Forall_cons; [cbn; first [exact I | tauto | intros [] | eauto] | ] ].

Definition in_output (dirname : string) (p : string) : Prop :=
  exists name, p = path_join (outputFolder dirname) name.

(** A path in neither of the two folders the pipeline writes to. *)
Definition outside (dirname : string) (p : string) : Prop :=
  ~ in_temp dirname p /\ ~ in_output dirname p.

(** The replies the handler sends as JSON. *)
Definition json_replies : list (nat * string) :=
  [(400%nat, "No media files received.");
   (400%nat, "No audio file received.");
   (400%nat, "No valid media (image/video) files to process.");
   (500%nat, "Failed to create video.")].

(** The runs of the tool among the events, in order. *)
Fixpoint tool_runs (t : list Event) : list (FfmpegCmd * option string) :=
  match t with
  | [] => []
  | Ffmpeg cmd r :: rest => (cmd, r) :: tool_runs rest
  | _ :: rest => tool_runs rest
  end.

(** The paths unlinked among the events, in order. *)
Fixpoint unlinked (t : list Event) : list string :=
  match t with
  | [] => []
  | Unlink p :: rest => p :: unlinked rest
  | _ :: rest => unlinked rest
  end.



Lemma unlinked_app t1 t2 : unlinked (t1 ++ t2) = unlinked t1 ++ unlinked t2.
Proof.
  induction t1 as [|ev t1 IH]; [reflexivity|].
  destruct ev; cbn; rewrite IH; reflexivity.
Qed.

Lemma unlinked_elem t p : p ∈ unlinked t <-> Unlink p ∈ t.
Proof.
  induction t as [|ev t IH]; [split; intros H; inversion H|].
  destruct ev; cbn [unlinked]; rewrite ?elem_of_cons, IH; split;
    try (intros [H|H]; [congruence || (left; congruence) | right; exact H]);
    try (intros H; right; exact H).
  - intros [H|H]; [discriminate | exact H].
  - intros [H|H]; [discriminate | exact H].
  - intros [H|H]; [discriminate | exact H].
  - intros [H|H]; [discriminate | exact H].
Qed.

Section Handler.

Variable dirname : string.
Variable ffmpeg_bin : FfmpegCmd -> Env -> ToolOutcome.

Lemma serve_outcomes req e :
  match fst (fst (serve dirname ffmpeg_bin req e)) with
  | Returned (Replied status msg) => (status, msg) ∈ json_replies
  | Returned (Streaming hd _) => hd = download_headers
  | Thrown _ => False
  end.
Proof.
  destruct (serve dirname ffmpeg_bin req e) as [[o e'] t] eqn:H. cbn [fst].
  destruct req as [[[|m ms]|] au];
    try (injection H as <- _ _; left).
  destruct au as [[|a rest]|];
    try (injection H as <- _ _; right; left).
  apply serve_valid in H.
  destruct (process dirname ffmpeg_bin (m :: ms) a e)
    as [[[[status msg|hd d]|err'] e1] t1] eqn:Hp;
    apply process_spec in Hp; destruct Hp as (_ & _ & _ & Ho).
  - destruct H as (-> & _). destruct Ho as (-> & -> & _). do 2 right. left.
  - destruct H as (t2 & _ & -> & _). destruct Ho as (-> & _). reflexivity.
  - destruct H as (-> & _). do 3 right. left.
Qed.

(** The route as express runs it: [req.files] is unset ([None]) when the
    body of the request was not multipart, and reading a field of it (lines
    78 and 79, before the [try]) throws. *)
Definition post_create_video (files : option Request) : M Handled :=
  match files with
  | Some req => serve dirname ffmpeg_bin req
  | None =>
      fun e => (Thrown "TypeError: Cannot read properties of undefined (reading 'media')",
                e, [])
  end.

(** X1: what a request can end in, each run of the tool ending in success
    or in failure as [ToolOutcome] has it (a run that never ends is not in
    the model: the request then stays without an answer).  With [req.files]
    set, whatever the tool and the file system do, no exception escapes the
    handler: the request ends in one of the four JSON replies or in the
    download with its two headers.  With [req.files] unset a TypeError
    escapes before anything is written, run or logged. *)
Theorem handler_replies_unless_files_unset e :
  (forall req,
     match fst (fst (post_create_video (Some req) e)) with
     | Returned (Replied status msg) => (status, msg) ∈ json_replies
     | Returned (Streaming hd _) => hd = download_headers
     | Thrown _ => False
     end) /\
  (exists err, post_create_video None e = (Thrown err, e, [])).
Proof.
  split; [intros req; exact (serve_outcomes req e) | eexists; reflexivity].
Qed.

(** Segments of supported items with increasing ordinals are pairwise
    different files. *)
Lemma segments_distinct t items segs :
  Forall2 (segment_of dirname t) items segs ->
  StronglySorted lt (map ordinal items) ->
  NoDup segs.
Proof.
  induction 1 as [|x seg items segs Hx HF IH]; intros Hs; [constructor|].
  cbn [map] in Hs. apply StronglySorted_inv in Hs as [Hs Hlt].
  constructor; [|exact (IH Hs)].
  intros Hin. apply list_elem_of_lookup in Hin as [n Hn].
  destruct (Forall2_lookup_r _ _ _ _ _ HF Hn) as (y & Hy & Hseg).
  destruct x as [[i k] f], y as [[j k'] g].
  destruct Hx as [[now Hp] _], Hseg as [[now' Hp'] _].
  rewrite Hp in Hp'. apply seg_path_inj in Hp' as (_ & _ & <-).
  rewrite Forall_forall in Hlt.
  assert (Hj : ordinal (i, k', g) ∈ map ordinal items).
  { apply list_elem_of_fmap. exists (i, k', g). split; [reflexivity|].
    apply list_elem_of_lookup. eauto. }
  specialize (Hlt _ Hj). cbn in Hlt. lia.
Qed.

(** X2: within one request no two segments share a file, whatever the
    clock shows when they are named: the ordinal in the name tells them
    apart. *)
Theorem segments_never_collide req e hd d e' t :
  serve dirname ffmpeg_bin req e = (Returned (Streaming hd d), e', t) ->
  NoDup (segmentPaths d) /\
  length (segmentPaths d) = length (classify 0 (mediaFiles d)).
Proof.
  intros H.
  destruct (serve_streaming _ _ _ _ _ _ _ _ H)
    as (e1 & t1 & t2 & merged & rest & _ & _ & D & _).
  pose proof (dl_segments _ _ _ _ _ _ _ D) as HF. split.
  - eapply segments_distinct; [exact HF | apply classify_increasing].
  - symmetry. eapply Forall2_length, HF.
Qed.

(** *** The close listener in detail *)

Lemma unlink_existing_unlinked l : forall e,
  exists e' t,
    unlink_existing l e = (Returned tt, e', t) /\
    clock e' = clock e /\
    tool_runs t = [] /\
    NoDup (unlinked t) /\
    (forall p, p ∈ unlinked t <-> p ∈ l /\ is_Some (files e !! p)) /\
    (forall p, files e' !! p = if decide (p ∈ l) then None else files e !! p).
Proof.
  induction l as [|q l IH]; intros e.
  - exists e, []. split; [reflexivity|]. split; [reflexivity|]. split; [reflexivity|].
    split; [constructor|]. split.
    + intros p. cbn. split; [intros Hp; inversion Hp | intros [Hp _]; inversion Hp].
    + intros p. destruct (decide (p ∈ [])) as [Hp|_]; [inversion Hp | reflexivity].
  - cbn [unlink_existing]. unfold bind, existsSync, unlinkSync, ret.
    destruct (files e !! q) as [c|] eqn:Hq.
    + rewrite bool_decide_eq_true_2 by eauto. cbn beta iota. rewrite Hq.
      destruct (IH {| files := delete q (files e); clock := clock e |})
        as (e' & t & Hrun & Hc & Htr & Hnd & Hmem & Hf).
      cbn [files clock] in *.
      rewrite Hrun. exists e', (Unlink q :: t).
      split; [reflexivity|]. split; [exact Hc|]. split; [exact Htr|].
      cbn [unlinked]. split; [|split].
      * constructor; [|exact Hnd]. intros Hin. apply Hmem in Hin as [_ [x Hx]].
        rewrite lookup_delete_eq in Hx. discriminate.
      * intros p. rewrite !elem_of_cons, Hmem. split.
        -- intros [->|[Hl Hs]]; [split; [left; reflexivity | eauto]|].
           split; [right; exact Hl|].
           destruct (decide (p = q)) as [->|Hne];
             [rewrite lookup_delete_eq in Hs; destruct Hs; discriminate|].
           rewrite lookup_delete_ne in Hs by congruence. exact Hs.
        -- intros [[->|Hl] Hs]; [left; reflexivity|].
           destruct (decide (p = q)) as [->|Hne]; [left; reflexivity|].
           right. split; [exact Hl|]. rewrite lookup_delete_ne by congruence. exact Hs.
      * intros p. rewrite Hf.
        destruct (decide (p ∈ l)) as [Hin|Hnin].
        -- rewrite decide_True by (right; exact Hin). reflexivity.
        -- destruct (decide (p = q)) as [->|Hne].
           ++ rewrite decide_True by left. apply lookup_delete_eq.
           ++ rewrite decide_False by (rewrite elem_of_cons; tauto).
              apply lookup_delete_ne. congruence.
    + rewrite bool_decide_eq_false_2 by (intros [? ?]; discriminate).
      cbn beta iota.
      destruct (IH e) as (e' & t & Hrun & Hc & Htr & Hnd & Hmem & Hf).
      rewrite Hrun. exists e', t.
      split; [reflexivity|]. split; [exact Hc|]. split; [exact Htr|].
      split; [exact Hnd|]. split.
      * intros p. rewrite Hmem, elem_of_cons. split.
        -- intros [Hl Hs]. split; [right; exact Hl | exact Hs].
        -- intros [[->|Hl] Hs]; [rewrite Hq in Hs; destruct Hs; discriminate|].
           split; assumption.
      * intros p. rewrite Hf.
        destruct (decide (p ∈ l)) as [Hin|Hnin].
        -- rewrite decide_True by (right; exact Hin). reflexivity.
        -- destruct (decide (p = q)) as [->|Hne].
           ++ rewrite decide_True by left. exact Hq.
           ++ rewrite decide_False by (rewrite elem_of_cons; tauto). reflexivity.
Qed.

(** The listener, whatever it finds: it returns normally, it unlinks each
    path at most once, only paths it names and that are there, and leaves
    the rest as it was. *)
Lemma on_close_unlinked d e :
  exists e' t,
    on_close d e = (Returned tt, e', t) /\
    clock e' = clock e /\
    tool_runs t = [] /\
    NoDup (unlinked t) /\
    (forall p, p ∈ unlinked t ->
       p ∈ doomed d /\ is_Some (files e !! p) /\ files e' !! p = None) /\
    (forall p, p ∉ unlinked t -> files e' !! p = files e !! p) /\
    (files e !! path (audioFile d) = None -> e' = e /\ unlinked t = []).
Proof.
  rewrite on_close_eq. unfold try_catch, bind, unlinkSync.
  destruct (files e !! path (audioFile d)) as [c|] eqn:Ha.
  - set (rest := map path (mediaFiles d) ++ segmentPaths d ++ [concatListPath d]).
    destruct (unlink_existing_unlinked rest
                {| files := delete (path (audioFile d)) (files e); clock := clock e |})
      as (e' & t & Hrun & Hc & Htr & Hnd & Hmem & Hf).
    cbn [files clock] in *. rewrite Hrun.
    exists e', ([Unlink (path (audioFile d))] ++ t).
    split; [reflexivity|]. split; [exact Hc|]. split; [exact Htr|].
    cbn [app unlinked].
    assert (Hnot : path (audioFile d) ∉ unlinked t).
    { intros Hin. apply Hmem in Hin as [_ [x Hx]].
      rewrite lookup_delete_eq in Hx. discriminate. }
    split; [constructor; assumption|]. split; [|split; [|discriminate]].
    + intros p Hp. apply elem_of_cons in Hp as [->|Hp].
      * split; [left|]. split; [eauto|]. rewrite Hf.
        destruct (decide (path (audioFile d) ∈ rest)); [reflexivity|].
        apply lookup_delete_eq.
      * pose proof Hp as Hp'. apply Hmem in Hp as [Hl Hs].
        assert (Hne : p <> path (audioFile d)) by (intros ->; contradiction).
        rewrite lookup_delete_ne in Hs by congruence.
        split; [right; exact Hl|]. split; [exact Hs|].
        rewrite Hf, decide_True by exact Hl. reflexivity.
    + intros p Hp. rewrite elem_of_cons in Hp.
      assert (Hne : p <> path (audioFile d)) by tauto.
      rewrite Hf. destruct (decide (p ∈ rest)) as [Hin|Hnin].
      * destruct (files e !! p) as [x|] eqn:Hx; [|reflexivity].
        exfalso. apply Hp. right. apply Hmem. split; [exact Hin|].
        rewrite lookup_delete_ne by congruence. eauto.
      * apply lookup_delete_ne. congruence.
  - eexists _, _. split; [reflexivity|]. cbn [app unlinked tool_runs].
    split; [reflexivity|]. split; [reflexivity|]. split; [constructor|].
    split; [intros p Hp; inversion Hp|]. split; [reflexivity | auto].
Qed.

(** X3: the close listener always returns normally, whatever is on disk;
    every path it unlinks is one of the paths it names (audio upload, media
    uploads, segments, concat list) and was on disk; no path is unlinked
    twice, even if it is named twice; the unlinked paths are gone and every
    other file is as it was. *)
Theorem cleanup_never_throws d e :
  exists e' t,
    on_close d e = (Returned tt, e', t) /\
    NoDup (unlinked t) /\
    (forall p, p ∈ unlinked t ->
       p ∈ doomed d /\ is_Some (files e !! p) /\ files e' !! p = None) /\
    (forall p, p ∉ unlinked t -> files e' !! p = files e !! p).
Proof.
  destruct (on_close_unlinked d e) as (e' & t & Hrun & _ & _ & Hnd & Hin & Hout & _).
  exists e', t. auto.
Qed.

(** *** Where the pipeline writes *)

(** An event of the [try] block: a run of the tool writes to the temporary
    or the output folder, the handler itself writes to the temporary
    folder, nothing is unlinked. *)
Definition folder_event (ev : Event) : Prop :=
  match ev with
  | Ffmpeg cmd _ => in_temp dirname (output cmd) \/ in_output dirname (output cmd)
  | WriteFile p _ => in_temp dirname p
  | Unlink _ => False
  | ConsoleLog _ | ConsoleError _ => True
  end.

Lemma seg_path_in_temp k now j : in_temp dirname (seg_path dirname k now j).
Proof. destruct k; eexists; reflexivity. Qed.

Lemma outside_not_segment p k now j : outside dirname p -> p <> seg_path dirname k now j.
Proof. intros [Ht _] ->. apply Ht, seg_path_in_temp. Qed.

Lemma upload_outside f : in_uploads dirname f -> outside dirname (path f).
Proof.
  intros [name ->]. split; intros [name' H]; paths_differ H.
Qed.

Lemma normalize_loop_events ms : forall i segs e o e' t,
  normalize_loop dirname ffmpeg_bin i ms segs e = (o, e', t) -> Forall folder_event t.
Proof.
  induction ms as [|f ms IH]; intros i segs e o e' t H.
  - injection H as <- <- <-. constructor.
  - cbn [normalize_loop] in H. unfold bind in H.
    destruct (kind_of f) as [k|] eqn:Hk.
    + rewrite (normalize_item_supported dirname ffmpeg_bin i f k segs e Hk) in H.
      cbv zeta in H.
      destruct (ffmpeg_bin _ e) as [c dt|err dt].
      * destruct (normalize_loop dirname ffmpeg_bin (S i) ms _ _) as [[o1 e1] t1] eqn:Hr.
        injection H as <- <- <-.
        constructor; [|exact (IH _ _ _ _ _ _ Hr)].
        left. destruct k; apply seg_path_in_temp.
      * injection H as <- <- <-. constructor; [|constructor].
        left. destruct k; apply seg_path_in_temp.
    + rewrite (normalize_item_skip dirname ffmpeg_bin i f segs e Hk) in H.
      destruct (normalize_loop dirname ffmpeg_bin (S i) ms _ _) as [[o1 e1] t1] eqn:Hr.
      injection H as <- <- <-.
      constructor; [exact I | exact (IH _ _ _ _ _ _ Hr)].
Qed.

Lemma process_events_frame ms a e o e' t :
  process dirname ffmpeg_bin ms a e = (o, e', t) ->
  Forall folder_event t /\
  (forall p, outside dirname p -> files e' !! p = files e !! p).
Proof.
  unfold process, bind. intros H.
  destruct (normalize_loop dirname ffmpeg_bin 0 ms [] e) as [[[segs|err] e1] t1] eqn:Hn.
  2:{ injection H as <- <- <-. split; [eapply normalize_loop_events; exact Hn|].
      intros p Hp. eapply normalize_loop_frame; [|exact Hn].
      intros k now j. apply outside_not_segment, Hp. }
  pose proof (normalize_loop_events _ _ _ _ _ _ _ Hn) as Hev.
  assert (Hfr : forall p, outside dirname p -> files e1 !! p = files e !! p).
  { intros p Hp. eapply normalize_loop_frame; [|exact Hn].
    intros k now j. apply outside_not_segment, Hp. }
  destruct segs as [|s0 segs].
  - unfold ret in H. rewrite app_nil_r in H. injection H as <- <- <-. auto.
  - rewrite concat_and_mux_run in H. cbv zeta in H.
    assert (Hput : forall name c (e0 : Env) p,
               outside dirname p ->
               files (put (path_join (tempFolder dirname) name) c e0) !! p = files e0 !! p).
    { intros name c e0 p [Ht _]. unfold put. cbn [files].
      apply lookup_insert_ne. intros <-. apply Ht. eexists. reflexivity. }
    assert (Hput' : forall name c (e0 : Env) p,
               outside dirname p ->
               files (put (path_join (outputFolder dirname) name) c e0) !! p = files e0 !! p).
    { intros name c e0 p [_ Ho]. unfold put. cbn [files].
      apply lookup_insert_ne. intros <-. apply Ho. eexists. reflexivity. }
    destruct (ffmpeg_bin (concat_cmd _ _) _) as [c dt|err dt].
    + destruct (ffmpeg_bin (mux_cmd _ _ _) _) as [c' dt'|err dt'];
        cbn beta iota in H; injection H as <- <- <-.
      * split.
        -- apply Forall_app_2; [exact Hev|].
           all_events; try (left; eexists; reflexivity); try (eexists; reflexivity).
           right. eexists. reflexivity.
        -- intros p Hp. unfold tick.
           repeat (cbn [files]; first [rewrite Hput by exact Hp | rewrite Hput' by exact Hp]).
           apply Hfr, Hp.
      * split.
        -- apply Forall_app_2; [exact Hev|].
           all_events; try (left; eexists; reflexivity); try (eexists; reflexivity).
           right. eexists. reflexivity.
        -- intros p Hp. unfold tick.
           repeat (cbn [files]; first [rewrite Hput by exact Hp | rewrite Hput' by exact Hp]).
           apply Hfr, Hp.
    + cbn beta iota in H. injection H as <- <- <-. split.
      * apply Forall_app_2; [exact Hev|].
        all_events; try (left; eexists; reflexivity); try (eexists; reflexivity).
      * intros p Hp. unfold tick.
        repeat (cbn [files]; first [rewrite Hput by exact Hp | rewrite Hput' by exact Hp]).
        apply Hfr, Hp.
Qed.

Lemma folder_events_written t p :
  Forall folder_event t -> written t p -> in_temp dirname p \/ in_output dirname p.
Proof.
  intros H Hw. rewrite Forall_forall in H.
  destruct Hw as [(cmd & Hin & <-)|(content & Hin)].
  - exact (H _ Hin).
  - left. exact (H _ Hin).
Qed.

Lemma folder_events_unlinked t : Forall folder_event t -> unlinked t = [].
Proof.
  induction 1 as [|ev t Hev _ IH]; [reflexivity|].
  destruct ev; cbn in *; try exact IH. destruct Hev.
Qed.

Lemma written_app t1 t2 p : written (t1 ++ t2) p <-> written t1 p \/ written t2 p.
Proof.
  unfold written. split.
  - intros [(cmd & Hin & Ho)|(c & Hin)]; apply elem_of_app in Hin as [Hin|Hin]; eauto 6.
  - intros [[(cmd & Hin & Ho)|(c & Hin)]|[(cmd & Hin & Ho)|(c & Hin)]];
      [left; exists cmd | right; exists c | left; exists cmd | right; exists c];
      rewrite elem_of_app; auto.
Qed.

Lemma no_runs_not_written t p :
  tool_runs t = [] -> (forall q c, WriteFile q c ∉ t) -> ~ written t p.
Proof.
  intros Hr Hw [(cmd & Hin & _)|(c & Hin)]; [|exact (Hw _ _ Hin)].
  induction t as [|ev t IH]; [inversion Hin|].
  destruct ev; cbn in Hr; try discriminate;
    (apply elem_of_cons in Hin as [Heq|Hin]; [discriminate|]);
    (apply IH; [exact Hr | intros q c0 Hq; apply (Hw q c0); right; exact Hq | exact Hin]).
Qed.

(** X4: whatever the tool does, a request writes only below the temporary
    and the output folder; a file outside these two folders changes only by
    being unlinked, and files are unlinked only in a request that streamed
    its result and only among the paths its listener names.  So a request
    that is rejected or fails leaves every upload exactly as it was. *)
Theorem pipeline_keeps_to_its_folders req e o e' t :
  serve dirname ffmpeg_bin req e = (o, e', t) ->
  (forall p, written t p -> in_temp dirname p \/ in_output dirname p) /\
  (forall p, outside dirname p -> p ∉ unlinked t -> files e' !! p = files e !! p) /\
  (forall p, p ∈ unlinked t ->
     exists hd d, o = Returned (Streaming hd d) /\ p ∈ doomed d).
Proof.
  intros H.
  destruct req as [[[|m ms]|] au];
    try (injection H as <- <- <-;
         split; [intros p [(cmd & Hin & _)|(c & Hin)]; inversion Hin|];
         split; [reflexivity | intros p Hin; inversion Hin]).
  destruct au as [[|a rest]|];
    try (injection H as <- <- <-;
         split; [intros p [(cmd & Hin & _)|(c & Hin)]; inversion Hin|];
         split; [reflexivity | intros p Hin; inversion Hin]).
  apply serve_valid in H.
  destruct (process dirname ffmpeg_bin (m :: ms) a e)
    as [[[[status msg|hd d]|err'] e1] t1] eqn:Hp;
    apply process_events_frame in Hp; destruct Hp as (Hev & Hfr).
  - destruct H as (-> & -> & ->).
    split; [intros p; apply folder_events_written, Hev|].
    split; [intros p Hp _; apply Hfr, Hp|].
    rewrite (folder_events_unlinked _ Hev). intros p Hin. inversion Hin.
  - destruct H as (t2 & Hc & -> & ->).
    destruct (on_close_unlinked d e1) as (e2 & t2' & Hrun & _ & Htr & _ & Hin & Hout & _).
    rewrite Hrun in Hc. injection Hc as -> ->.
    rewrite unlinked_app, (folder_events_unlinked _ Hev). cbn [app].
    split.
    + intros p Hw. apply written_app in Hw as [Hw|Hw];
        [exact (folder_events_written _ _ Hev Hw)|].
      exfalso. revert Hw. apply no_runs_not_written; [exact Htr|].
      intros q c Hq.
      destruct (on_close_frame d e1) as (e3 & t3 & Hrun3 & _ & Hu).
      rewrite Hrun in Hrun3. injection Hrun3 as _ <-.
      exact (unlinks_no_write _ _ _ _ Hu Hq).
    + split.
      * intros p Hp Hnot. rewrite (Hout _ Hnot). apply Hfr, Hp.
      * intros p Hp. exists hd, d. split; [reflexivity | apply Hin, Hp].
  - destruct H as (-> & -> & ->).
    assert (Hev' : Forall folder_event
                     (t1 ++ [ConsoleError [LStr "Error in /create-video:"; LStr err']])).
    { apply Forall_app_2; [exact Hev | all_events]. }
    split; [intros p; apply folder_events_written, Hev'|].
    split; [intros p Hp _; apply Hfr, Hp|].
    rewrite (folder_events_unlinked _ Hev'). intros p Hin. inversion Hin.
Qed.

(** *** The runs of the tool, in order *)




(** *** A tool that never fails *)

Lemma normalize_loop_returns :
  (forall cmd e, exists c dt, ffmpeg_bin cmd e = ToolEnd c dt) ->
  forall ms i segs e,
    exists segs' e' t,
      normalize_loop dirname ffmpeg_bin i ms segs e = (Returned segs', e', t).
Proof.
  intros Hok. induction ms as [|f ms IH]; intros i segs e.
  - eexists _, _, _. reflexivity.
  - cbn [normalize_loop]. unfold bind.
    destruct (kind_of f) as [k|] eqn:Hk.
    + rewrite (normalize_item_supported dirname ffmpeg_bin i f k segs e Hk). cbv zeta.
      destruct (Hok (item_cmd k (path f) (seg_path dirname k (clock e) i)) e)
        as (c & dt & ->).
      destruct (IH (S i) (segs ++ [seg_path dirname k (clock e) i])
                  (tick (put (seg_path dirname k (clock e) i) c e) dt))
        as (segs' & e' & t & ->).
      eexists _, _, _. reflexivity.
    + rewrite (normalize_item_skip dirname ffmpeg_bin i f segs e Hk).
      destruct (IH (S i) segs e) as (segs' & e' & t & ->).
      eexists _, _, _. reflexivity.
Qed.

(** X6: with a tool that never fails, every request that has an audio file
    and at least one image or video among its media items streams its
    result: neither the handler nor the listener gets in the way. *)
Theorem working_tool_streams m ms a rest e :
  (forall cmd e0, exists c dt, ffmpeg_bin cmd e0 = ToolEnd c dt) ->
  (exists f, f ∈ m :: ms /\ kind_of f <> None) ->
  exists d e' t,
    serve dirname ffmpeg_bin
      {| media := Some (m :: ms); audio := Some (a :: rest) |} e =
      (Returned (Streaming download_headers d), e', t) /\
    mediaFiles d = m :: ms /\ audioFile d = a /\
    length (segmentPaths d) = length (classify 0 (m :: ms)).
Proof.
  intros Hok (f & Hin & Hf).
  destruct (normalize_loop_returns Hok (m :: ms) 0%nat [] e) as (segs & e1 & t1 & Hn).
  destruct (normalize_loop_spec _ _ _ _ _ _ _ _ _ Hn) as (_ & _ & _ & new & Hnew & HF).
  cbn [app] in Hnew. subst new.
  assert (Hne : segs <> []).
  { intros ->. apply Forall2_nil_inv_r in HF.
    apply list_elem_of_lookup in Hin as [n Hn'].
    destruct (kind_of f) as [k|] eqn:Hk; [|congruence].
    assert (Hx : (0 + n, k, f)%nat ∈ classify 0 (m :: ms)).
    { apply classify_elem. exists n. auto. }
    rewrite HF in Hx. inversion Hx. }
  destruct segs as [|s0 segs]; [congruence|].
  assert (Hp : exists d e0 t0,
             process dirname ffmpeg_bin (m :: ms) a e =
               (Returned (Streaming download_headers d), e0, t0) /\
             mediaFiles d = m :: ms /\ audioFile d = a /\ segmentPaths d = s0 :: segs).
  { unfold process, bind. rewrite Hn, concat_and_mux_run. cbv zeta.
    match goal with
    | |- context [ffmpeg_bin ?c ?e0] => destruct (Hok c e0) as (c1 & dt1 & ->)
    end.
    match goal with
    | |- context [ffmpeg_bin ?c ?e0] => destruct (Hok c e0) as (c2 & dt2 & ->)
    end.
    eexists _, _, _. split; [reflexivity|]. cbn. auto. }
  destruct Hp as (d & e0 & t0 & Hp & Hm & Ha & Hs).
  destruct (on_close_frame d e0) as (e2 & t2 & Hrun & _).
  exists d, e2, (t0 ++ t2 ++ []).
  split; [|split; [exact Hm|split; [exact Ha|]]].
  - unfold serve, create_video, bind, try_catch. cbn [media audio].
    rewrite Hp, Hrun. reflexivity.
  - rewrite Hs. symmetry. eapply Forall2_length, HF.
Qed.

(** *** What a missing audio upload does to the clean-up *)

(** X7: if the audio upload is not on disk when the response stream
    closes, the first unlink of the listener throws and the listener gives
    up: it logs the error and removes nothing, so whatever the request left
    in the upload and the temporary folder stays there.  This is what a
    listener finds that runs after a listener for a delivery with the same
    audio upload (two uploads stored in the same millisecond under the same
    name share their path, and the page gives every recording the same
    name). *)
Theorem missing_audio_upload_blocks_cleanup d e :
  (files e !! path (audioFile d) = None ->
   on_close d e =
     (Returned tt, e,
      [ConsoleError [LStr "Cleanup error:"; LStr (enoent_unlink (path (audioFile d)))]])) /\
  (forall d0 e0 t0,
     on_close d0 e0 = (Returned tt, e, t0) ->
     path (audioFile d0) = path (audioFile d) ->
     files e !! path (audioFile d) = None).
Proof.
  split.
  - intros Ha. rewrite on_close_eq. unfold try_catch, bind, unlinkSync.
    rewrite Ha. reflexivity.
  - intros d0 e0 t0 H Heq. rewrite <- Heq.
    destruct (files e0 !! path (audioFile d0)) as [c|] eqn:Ha.
    + destruct (on_close_present d0 e0) as (e1 & t1 & Hrun & Hfiles & _); [eauto|].
      rewrite Hrun in H. injection H as -> _.
      rewrite Hfiles. rewrite decide_True by left. reflexivity.
    + destruct (on_close_unlinked d0 e0) as (e1 & t1 & Hrun & _ & _ & _ & _ & _ & Hgone).
      rewrite Hrun in H. injection H as -> _.
      destruct (Hgone Ha) as [-> _]. exact Ha.
Qed.

End Handler.

(** ** Stored uploads *)

(** [filename] of the multer disk storage: [Date.now() + "-" + file.originalname]. *)
Definition uniqueName (now : N) (originalname : string) : string :=
  decimal now +:+ "-" +:+ originalname.

(** Where the disk storage puts an upload: [destination] joined with
    [filename], for an original name that is a plain file name. *)
Definition stored_path (dirname : string) (now : N) (originalname : string) : string :=
  path_join (uploadFolder dirname) (uniqueName now originalname).

(** X8: two uploads are stored under the same path exactly when they have
    the same original name and are named in the same millisecond: the
    timestamp and the original name can both be read back from the stored
    name.  A stored upload lies in the upload folder, outside the folders
    the pipeline writes to. *)
Theorem stored_uploads_collide_only_on_same_name_and_time dirname :
  (forall n a m b, stored_path dirname n a = stored_path dirname m b <-> n = m /\ a = b) /\
  (forall n a mt,
     in_uploads dirname {| path := stored_path dirname n a; mimetype := mt |} /\
     outside dirname (stored_path dirname n a)).
Proof.
  split.
  - intros n a m b. split; [|intros [-> ->]; reflexivity].
    intros H. apply path_join_inj in H. apply numbered_name_inj, H.
  - intros n a mt.
    assert (Hin : in_uploads dirname {| path := stored_path dirname n a; mimetype := mt |})
      by (eexists; reflexivity).
    split; [exact Hin|]. exact (upload_outside dirname _ Hin).
Qed.

(** * The page: [frontend/src/App.jsx]

    The list of selected media with its preview URLs, the moves and removals
    in that list, and the request that sends it.  A JavaScript array is a
    list whose entries may be [undefined] ([None]); the browser's object URLs
    are a set of live URLs and a counter of the URLs handed out. *)
Module App.

(** The fields of a browser [File] that the page reads. *)
Record BrowserFile := { name : string; type : string }.

(** An entry of [mediaFiles]. *)
Record MediaItem := {
  id : string;
  file : BrowserFile;
  label : string;            (* the [type] field: "image" or "video" *)
  previewUrl : string
}.

(** The object URLs of the browser. *)
Record Browser := { live : gset string; minted : nat }.

(** The n-th URL the browser hands out. *)
Definition blob_url (n : nat) : string := "blob:" +:+ decimal (N.of_nat n).

(** [URL.createObjectURL(file)] *)
Definition createObjectURL (b : Browser) : string * Browser :=
  (blob_url (minted b),
   {| live := {[blob_url (minted b)]} ∪ live b; minted := S (minted b) |}).

(** [URL.revokeObjectURL(url)] *)
Definition revokeObjectURL (url : string) (b : Browser) : Browser :=
  {| live := live b ∖ {[url]}; minted := minted b |}.

(** [arr[i]]: [undefined] beyond the end. *)
Definition js_get {A} (arr : list (option A)) (i : nat) : option A :=
  match arr !! i with
  | Some x => x
  | None => None
  end.

(** [arr[i] = v]: beyond the end the array grows and the gap is empty. *)
Definition js_set {A} (arr : list (option A)) (i : nat) (v : option A) : list (option A) :=
  if decide (i < length arr)%nat then <[i := v]> arr
  else arr ++ replicate (i - length arr) None ++ [v].

(** The updater of [moveItem(index, direction)]. *)
Definition moveItem {A} (index : nat) (direction : Z) (prev : list (option A))
  : list (option A) :=
  let newArr := prev in
  let swapIndex := (Z.of_nat index + direction)%Z in
  if ((swapIndex <? 0) || (swapIndex >=? Z.of_nat (length newArr)))%Z then prev
  else
    let temp := js_get newArr index in
    let newArr := js_set newArr index (js_get newArr (Z.to_nat swapIndex)) in
    js_set newArr (Z.to_nat swapIndex) temp.

(** The updater of [removeItem(index)]: [splice(index, 1)], then the
    preview of what was removed is revoked. *)
Definition removeItem (index : nat) (prev : list (option MediaItem)) (b : Browser)
  : list (option MediaItem) * Browser :=
  let newArr := delete index prev in
  let removed := js_get prev index in
  match removed with
  | Some m =>
      if String.eqb (previewUrl m) EmptyString then (newArr, b)
      else (newArr, revokeObjectURL (previewUrl m) b)
  | None => (newArr, b)
  end.

(** [file.type.startsWith("image") ? "image" : "video"] *)
Definition label_of (mime : string) : string :=
  if startsWith mime "image" then "image" else "video".

(** A handler ends, or it dereferences [undefined] and throws. *)
Inductive Result (A : Type) :=
| Done (a : A)
| TypeError.
Arguments Done {A} a.
Arguments TypeError {A}.

(** [mediaFiles.forEach((m) => URL.revokeObjectURL(m.previewUrl))]: reading
    [previewUrl] of an [undefined] entry throws.  (An array never assigned
    beyond its end has no holes; the handlers keep it so from the buttons of
    the page, see [enabled].) *)
Fixpoint revoke_previews (l : list (option MediaItem)) (b : Browser) : Result Browser :=
  match l with
  | [] => Done b
  | Some m :: rest => revoke_previews rest (revokeObjectURL (previewUrl m) b)
  | None :: rest => TypeError
  end.

(** [files.map((file, index) => ({ id, file, type, previewUrl }))] from
    [index] on; [now index] is what [Date.now()] shows for that entry. *)
Fixpoint new_media (now : nat -> N) (index : nat) (files : list BrowserFile) (b : Browser)
  : list (option MediaItem) * Browser :=
  match files with
  | [] => ([], b)
  | f :: rest =>
      let '(url, b1) := createObjectURL b in
      let item := {| id := decimal (now index) +:+ "-" +:+ decimal (N.of_nat index);
                     file := f;
                     label := label_of (type f);
                     previewUrl := url |} in
      let '(items, b2) := new_media now (S index) rest b1 in
      (Some item :: items, b2)
  end.

(** The part of the page's state these handlers touch. *)
Record State := {
  mediaFiles : list (option MediaItem);
  recordedAudio : option string;
  isCreating : bool;
  downloadUrl : option string;
  errorMessage : string
}.

Definition with_media (s : State) (l : list (option MediaItem)) : State :=
  {| mediaFiles := l; recordedAudio := recordedAudio s; isCreating := isCreating s;
     downloadUrl := downloadUrl s; errorMessage := errorMessage s |}.

(** [handleMediaChange]: an empty selection is ignored. *)
Definition handleMediaChange (now : nat -> N) (files : list BrowserFile)
    (s : State) (b : Browser) : Result (State * Browser) :=
  match files with
  | [] => Done (s, b)
  | _ :: _ =>
      match revoke_previews (mediaFiles s) b with
      | TypeError => TypeError
      | Done b1 =>
          let '(newMedia, b2) := new_media now 0 files b1 in
          Done ({| mediaFiles := newMedia; recordedAudio := recordedAudio s;
                   isCreating := isCreating s; downloadUrl := downloadUrl s;
                   errorMessage := EmptyString |}, b2)
      end
  end.

(** One entry of the form data. *)
Inductive Part :=
| MediaPart (f : BrowserFile)
| AudioPart (blob : string) (filename : string).

(** [mediaFiles.forEach((m) => formData.append("media", m.file))] *)
Fixpoint media_parts (l : list (option MediaItem)) : Result (list Part) :=
  match l with
  | [] => Done []
  | Some m :: rest =>
      match media_parts rest with
      | Done ps => Done (MediaPart (file m) :: ps)
      | TypeError => TypeError
      end
  | None :: rest => TypeError
  end.

(** What [handleCreateVideo] does before it waits for the server: it gives
    up with a message, or it posts the form. *)
Inductive Submission :=
| GaveUp (s : State)
| Posted (s : State) (form : list Part).

Definition reset_for_create (s : State) : State :=
  {| mediaFiles := mediaFiles s; recordedAudio := recordedAudio s;
     isCreating := isCreating s; downloadUrl := None; errorMessage := EmptyString |}.

Definition with_error (s : State) (msg : string) : State :=
  {| mediaFiles := mediaFiles s; recordedAudio := recordedAudio s;
     isCreating := isCreating s; downloadUrl := downloadUrl s; errorMessage := msg |}.

Definition handleCreateVideo_submit (s : State) : Result Submission :=
  let s := reset_for_create s in
  match mediaFiles s with
  | [] => Done (GaveUp (with_error s "Please select at least one photo or video."))
  | _ :: _ =>
      match recordedAudio s with
      | None => Done (GaveUp (with_error s "Please record background audio first."))
      | Some blob =>
          match media_parts (mediaFiles s) with
          | TypeError => TypeError
          | Done ps =>
              Done (Posted {| mediaFiles := mediaFiles s; recordedAudio := recordedAudio s;
                              isCreating := true; downloadUrl := downloadUrl s;
                              errorMessage := errorMessage s |}
                           (ps ++ [AudioPart blob "background-audio.webm"]))
          end
      end
  end.

(** What comes back from [fetch]: it rejects, or there is a response whose
    body is the JSON of an error reply, something else, or the video. *)
Inductive Fetched :=
| NetworkError (message : string)
| ErrorReply (error : option string)     (* [!res.ok]; [None]: no JSON, or no [error] field *)
| Download (blob : string).

(** [a || b] on strings: the empty string is falsy. *)
Definition or_else (a b : string) : string :=
  if String.eqb a EmptyString then b else a.

(** The rest of [handleCreateVideo], once [fetch] has settled. *)
Definition handleCreateVideo_settle (r : Fetched) (s : State) (b : Browser)
  : State * Browser :=
  match r with
  | Download blob =>
      let '(url, b1) := createObjectURL b in
      ({| mediaFiles := mediaFiles s; recordedAudio := recordedAudio s;
          isCreating := false; downloadUrl := Some url; errorMessage := errorMessage s |}, b1)
  | ErrorReply error =>
      let message := or_else (default EmptyString error) "Failed to create video." in
      ({| mediaFiles := mediaFiles s; recordedAudio := recordedAudio s;
          isCreating := false; downloadUrl := downloadUrl s;
          errorMessage := or_else message "Something went wrong." |}, b)
  | NetworkError message =>
      ({| mediaFiles := mediaFiles s; recordedAudio := recordedAudio s;
          isCreating := false; downloadUrl := downloadUrl s;
          errorMessage := or_else message "Something went wrong." |}, b)
  end.

(** What the server's answer looks like to [fetch]: a JSON reply has a
    status of 400 or 500, so [res.ok] is false; a download is the video. *)
Definition fetched_from (h : Handled) (blob : string) : Fetched :=
  match h with
  | Replied _ error => ErrorReply (Some error)
  | Streaming _ _ => Download blob
  end.

(** ** Moving an item *)

Lemma insert_head_perm {A} (l : list A) : forall j x y,
  l !! j = Some y -> y :: <[j := x]> l ≡ₚ x :: l.
Proof.
  induction l as [|a l IH]; intros [|j] x y H; try discriminate.
  - injection H as ->. apply perm_swap.
  - cbn in H. cbn [list_insert]. change (<[S j:=x]> (a :: l)) with (a :: <[j:=x]> l).
    rewrite perm_swap, (IH _ _ _ H). apply perm_swap.
Qed.

Lemma swap_perm {A} (l : list A) : forall i j x y,
  l !! i = Some x -> l !! j = Some y -> <[j := x]> (<[i := y]> l) ≡ₚ l.
Proof.
  induction l as [|a l IH]; intros [|i] [|j] x y Hi Hj; try discriminate.
  - injection Hi as ->. injection Hj as ->. reflexivity.
  - injection Hi as ->. cbn in Hj.
    change (<[S j:=x]> (<[0%nat:=y]> (x :: l))) with (y :: <[j:=x]> l).
    apply insert_head_perm, Hj.
  - injection Hj as ->. cbn in Hi.
    change (<[0%nat:=x]> (<[S i:=y]> (y :: l))) with (x :: <[i:=y]> l).
    apply insert_head_perm, Hi.
  - cbn in Hi, Hj.
    change (<[S j:=x]> (<[S i:=y]> (a :: l))) with (a :: <[j:=x]> (<[i:=y]> l)).
    rewrite (IH _ _ _ _ Hi Hj). reflexivity.
Qed.

Lemma js_get_lookup {A} (arr : list (option A)) i x :
  arr !! i = Some x -> js_get arr i = x.
Proof. unfold js_get. intros ->. reflexivity. Qed.

Lemma js_set_in {A} (arr : list (option A)) i v :
  (i < length arr)%nat -> js_set arr i v = <[i := v]> arr.
Proof. unfold js_set. intros H. rewrite decide_True by exact H. reflexivity. Qed.

(** Inside the list a move is two in-place updates. *)
Lemma moveItem_in {A} index direction (prev : list (option A)) x y :
  let j := Z.to_nat (Z.of_nat index + direction) in
  (0 <= Z.of_nat index + direction)%Z ->
  prev !! index = Some x -> prev !! j = Some y ->
  moveItem index direction prev = <[j := x]> (<[index := y]> prev).
Proof.
  intros j H0 Hi Hj. unfold moveItem. cbv zeta.
  pose proof (lookup_lt_Some _ _ _ Hi) as Hli.
  pose proof (lookup_lt_Some _ _ _ Hj) as Hlj. fold j in Hlj |- *.
  replace ((Z.of_nat index + direction <? 0)%Z) with false by lia.
  replace ((Z.of_nat index + direction >=? Z.of_nat (length prev))%Z) with false by lia.
  cbn [orb]. fold j.
  rewrite (js_get_lookup _ _ _ Hi), (js_get_lookup _ _ _ Hj).
  rewrite (js_set_in prev) by exact Hli.
  rewrite js_set_in by (rewrite length_insert; exact Hlj). reflexivity.
Qed.

(** X9: a move whose target position is inside the list exchanges the two
    entries and touches nothing else, so the list keeps its length and its
    items; a move whose target position is off the list (up from the first
    position, down from the last) leaves the list as it is. *)
Theorem moveItem_exchanges_two_entries {A} index direction (prev : list (option A)) :
  let swapIndex := (Z.of_nat index + direction)%Z in
  let next := moveItem index direction prev in
  ((index < length prev)%nat ->
   (0 <= swapIndex < Z.of_nat (length prev))%Z ->
   length next = length prev /\
   next !! index = prev !! Z.to_nat swapIndex /\
   next !! Z.to_nat swapIndex = prev !! index /\
   (forall k, k <> index -> k <> Z.to_nat swapIndex -> next !! k = prev !! k) /\
   next ≡ₚ prev) /\
  ((swapIndex < 0 \/ Z.of_nat (length prev) <= swapIndex)%Z -> next = prev).
Proof.
  cbv zeta. split.
  - intros Hi Hj.
    set (j := Z.to_nat (Z.of_nat index + direction)).
    assert (Hlj : (j < length prev)%nat) by lia.
    destruct (lookup_lt_is_Some_2 prev index Hi) as [x Hx].
    destruct (lookup_lt_is_Some_2 prev j Hlj) as [y Hy].
    rewrite (moveItem_in index direction prev x y (proj1 Hj) Hx Hy). fold j.
    split; [rewrite !length_insert; reflexivity|].
    split.
    { destruct (decide (j = index)) as [Heq|Hne].
      - rewrite Heq in *. rewrite list_lookup_insert_eq by (rewrite length_insert; lia).
        congruence.
      - rewrite list_lookup_insert_ne by exact Hne.
        rewrite list_lookup_insert_eq by lia. congruence. }
    split; [rewrite list_lookup_insert_eq by (rewrite length_insert; lia); congruence|].
    split; [|apply swap_perm; assumption].
    intros k Hk Hkj. rewrite !list_lookup_insert_ne by congruence. reflexivity.
  - intros H. unfold moveItem. cbv zeta.
    destruct H as [H|H].
    + replace ((Z.of_nat index + direction <? 0)%Z) with true by lia. reflexivity.
    + replace ((Z.of_nat index + direction >=? Z.of_nat (length prev))%Z) with true by lia.
      rewrite orb_true_r. reflexivity.
Qed.

(** X10: moving an item and then moving it back by the same distance gives
    the list one started from. *)
Theorem moveItem_back_restores {A} index direction (prev : list (option A)) :
  let swapIndex := (Z.of_nat index + direction)%Z in
  (index < length prev)%nat ->
  (0 <= swapIndex < Z.of_nat (length prev))%Z ->
  moveItem (Z.to_nat swapIndex) (- direction) (moveItem index direction prev) = prev.
Proof.
  cbv zeta. intros Hi Hj.
  set (j := Z.to_nat (Z.of_nat index + direction)).
  assert (Hlj : (j < length prev)%nat) by lia.
  destruct (lookup_lt_is_Some_2 prev index Hi) as [x Hx].
  destruct (lookup_lt_is_Some_2 prev j Hlj) as [y Hy].
  rewrite (moveItem_in index direction prev x y (proj1 Hj) Hx Hy). fold j.
  set (mid := <[j := x]> (<[index := y]> prev)).
  assert (Hback : Z.to_nat (Z.of_nat j + - direction) = index) by lia.
  assert (Hmj : mid !! j = Some x).
  { unfold mid. apply list_lookup_insert_eq. rewrite length_insert. exact Hlj. }
  assert (Hmi : mid !! index = Some (if decide (j = index) then x else y)).
  { unfold mid. destruct (decide (j = index)) as [Heq|Hne].
    - rewrite <- Heq. apply list_lookup_insert_eq. rewrite length_insert. exact Hlj.
    - rewrite list_lookup_insert_ne by exact Hne. apply list_lookup_insert_eq. exact Hi. }
  rewrite (moveItem_in j (- direction) mid x (if decide (j = index) then x else y));
    [|lia|exact Hmj|rewrite Hback; exact Hmi].
  rewrite Hback. unfold mid. apply list_eq. intros k.
  destruct (decide (k = index)) as [->|Hki].
  - rewrite list_lookup_insert_eq by (rewrite !length_insert; exact Hi). congruence.
  - rewrite list_lookup_insert_ne by congruence.
    destruct (decide (k = j)) as [->|Hkj].
    + rewrite list_lookup_insert_eq by (rewrite !length_insert; exact Hlj).
      destruct (decide (j = index)); congruence.
    + rewrite !list_lookup_insert_ne by congruence. reflexivity.
Qed.

(** ** Labels *)

Lemma prefix_shorter (a b : string) : forall s,
  String.prefix (a +:+ b) s = true -> String.prefix a s = true.
Proof.
  induction a as [|x a IH]; intros s H; [destruct s; reflexivity|].
  destruct s as [|y s]; [discriminate|].
  rewrite append_cons in H. cbn in *.
  destruct (ascii_dec x y); [apply IH, H | discriminate].
Qed.

(** X11: the label the page shows agrees with the branch the server takes:
    what the server treats as an image is labelled "image", what it treats
    as a video is labelled "video".  (Nothing else is ever shown: a file the
    server would skip is labelled "image" or "video" all the same.) *)
Theorem labels_agree_with_server p mime :
  (kind_of {| path := p; mimetype := Some mime |} = Some Image -> label_of mime = "image") /\
  (kind_of {| path := p; mimetype := Some mime |} = Some Video -> label_of mime = "video") /\
  (label_of mime = "image" \/ label_of mime = "video").
Proof.
  unfold kind_of, label_of, startsWith. cbn [mimetype].
  change (default EmptyString (Some mime)) with mime. cbv zeta.
  split; [|split].
  - destruct (String.prefix "image/" mime) eqn:H.
    + intros _. rewrite (prefix_shorter "image" "/" mime H). reflexivity.
    + destruct (String.prefix "video/" mime); intros E; discriminate E.
  - destruct (String.prefix "image/" mime) eqn:H; [intros E; discriminate E|].
    destruct (String.prefix "video/" mime) eqn:Hv; [|intros E; discriminate E].
    intros _. destruct mime as [|c mime]; [discriminate|].
    revert Hv. clear H. cbn [String.prefix].
    destruct (ascii_dec "v" c) as [<-|]; [intros _; reflexivity | intros E; discriminate E].
  - destruct (String.prefix "image" mime); auto.
Qed.

Example skipped_file_is_labelled_video :
  label_of "text/plain" = "video" /\
  kind_of {| path := "notes.txt"; mimetype := Some "text/plain" |} = None.
Proof. split; reflexivity. Qed.

(** ** Selecting files *)

Local Set Warnings "-clear-no-such-hyp".

Definition all_defined (l : list (option MediaItem)) : Prop := Forall is_Some l.

(** The preview URLs of the entries of a list. *)
Fixpoint previews (l : list (option MediaItem)) : list string :=
  match l with
  | [] => []
  | Some m :: rest => previewUrl m :: previews rest
  | None :: rest => previews rest
  end.

(** The entry made for the [k]-th selected file, when the first entry has
    index [index] and the browser has handed out [m0] URLs so far. *)
Definition item_at (now : nat -> N) (index m0 k : nat) (f : BrowserFile) : MediaItem :=
  {| id := decimal (now (index + k)%nat) +:+ "-" +:+ decimal (N.of_nat (index + k));
     file := f;
     label := label_of (type f);
     previewUrl := blob_url (m0 + k) |}.

Lemma all_defined_fmap l : all_defined l <-> exists ms, l = Some <$> ms.
Proof.
  split.
  - induction 1 as [|x l [m ->] _ [ms ->]]; [exists []; reflexivity|].
    exists (m :: ms). reflexivity.
  - intros [ms ->]. apply Forall_fmap, Forall_forall. intros m _. cbn. eauto.
Qed.

Lemma previews_fmap ms : previews (Some <$> ms) = previewUrl <$> ms.
Proof. induction ms as [|m ms IH]; [reflexivity|]. cbn. rewrite <- IH. reflexivity. Qed.

Lemma blob_url_inj n m : blob_url n = blob_url m -> n = m.
Proof.
  unfold blob_url. intros H. apply (inj (String.append "blob:")) in H.
  apply decimal_inj in H. lia.
Qed.

Lemma new_media_eq now files : forall index b,
  new_media now index files b =
    (imap (fun k f => Some (item_at now index (minted b) k f)) files,
     {| live := list_to_set (blob_url <$> seq (minted b) (length files)) ∪ live b;
        minted := (minted b + length files)%nat |}).
Proof.
  induction files as [|f files IH]; intros index b.
  - cbn. destruct b as [lv mt]. cbn. f_equal. f_equal; [set_solver | lia].
  - cbn [new_media createObjectURL]. rewrite IH. cbn [minted live].
    rewrite imap_cons. f_equal.
    + f_equal.
      * unfold item_at. rewrite !Nat.add_0_r. reflexivity.
      * apply imap_ext. intros k g _. cbn. unfold item_at.
        replace (S index + k)%nat with (index + S k)%nat by lia.
        replace (S (minted b) + k)%nat with (minted b + S k)%nat by lia. reflexivity.
    + f_equal; [|cbn [length]; lia].
      cbn [length seq fmap list_fmap]. rewrite list_to_set_cons. set_solver.
Qed.

Lemma revoke_previews_fmap ms : forall b,
  revoke_previews (Some <$> ms) b =
    Done {| live := live b ∖ list_to_set (previewUrl <$> ms); minted := minted b |}.
Proof.
  induction ms as [|m ms IH]; intros b.
  - cbn. destruct b as [lv mt]. cbn. do 2 f_equal. set_solver.
  - cbn [fmap list_fmap revoke_previews]. 
    change (revoke_previews (Some <$> ms) (revokeObjectURL (previewUrl m) b) =
            Done {| live := live b ∖ list_to_set (previewUrl m :: (previewUrl <$> ms));
                    minted := minted b |}).
    rewrite IH. cbn [revokeObjectURL live minted]. do 2 f_equal.
    rewrite list_to_set_cons. set_solver.
Qed.

Lemma handleMediaChange_eq now f files s b ms :
  mediaFiles s = Some <$> ms ->
  handleMediaChange now (f :: files) s b =
    Done ({| mediaFiles := imap (fun k g => Some (item_at now 0 (minted b) k g)) (f :: files);
             recordedAudio := recordedAudio s; isCreating := isCreating s;
             downloadUrl := downloadUrl s; errorMessage := EmptyString |},
          {| live := list_to_set (blob_url <$> seq (minted b) (length (f :: files))) ∪
                     (live b ∖ list_to_set (previewUrl <$> ms));
             minted := (minted b + length (f :: files))%nat |}).
Proof.
  intros Hms. unfold handleMediaChange. rewrite Hms, revoke_previews_fmap.
  rewrite new_media_eq. reflexivity.
Qed.

Lemma ids_of_new_media now l : forall i m0,
  id <$> omap (fun x => x) (imap (fun k g => Some (item_at now i m0 k g)) l) =
  (fun k => decimal (now k) +:+ "-" +:+ decimal (N.of_nat k)) <$> seq i (length l).
Proof.
  induction l as [|g l IH]; intros i m0; [reflexivity|].
  rewrite imap_cons. cbn [omap list_omap fmap list_fmap length seq].
  f_equal; [unfold item_at; cbn; rewrite Nat.add_0_r; reflexivity|].
  rewrite <- (IH (S i) (S m0)). do 2 f_equal. apply imap_ext. intros k h _. cbn.
  unfold item_at. replace (i + S k)%nat with (S i + k)%nat by lia.
  replace (m0 + S k)%nat with (S m0 + k)%nat by lia. reflexivity.
Qed.

(** X12: selecting no file changes nothing.  Selecting files, when every
    entry of the current list is defined, replaces the list by one entry per
    selected file in the order of the selection, each with the file itself
    and the label of its MIME type; the ids of the entries are pairwise
    different, whatever the clock shows; the error message is cleared and
    the rest of the state is kept. *)
Theorem handleMediaChange_lists_the_selection now s b :
  handleMediaChange now [] s b = Done (s, b) /\
  (forall f files,
     all_defined (mediaFiles s) ->
     exists s' b',
       handleMediaChange now (f :: files) s b = Done (s', b') /\
       length (mediaFiles s') = length (f :: files) /\
       (forall k g, (f :: files) !! k = Some g ->
          exists m, mediaFiles s' !! k = Some (Some m) /\
                    file m = g /\ label m = label_of (type g)) /\
       NoDup (id <$> omap (fun x => x) (mediaFiles s')) /\
       errorMessage s' = EmptyString /\
       recordedAudio s' = recordedAudio s /\ downloadUrl s' = downloadUrl s).
Proof.
  split; [reflexivity|].
  intros f files Hdef. apply all_defined_fmap in Hdef as [ms Hms].
  eexists _, _. split; [exact (handleMediaChange_eq now f files s b ms Hms)|].
  cbn [mediaFiles errorMessage recordedAudio downloadUrl].
  split; [apply length_imap|].
  split.
  { intros k g Hk. eexists. rewrite list_lookup_imap, Hk. cbn.
    split; [reflexivity|]. split; reflexivity. }
  split; [|auto].
  set (l := f :: files).
  pose proof (ids_of_new_media now l 0 (minted b)) as Hids.
  rewrite Hids. apply NoDup_fmap_2_strong; [|apply NoDup_seq].
  intros k k' _ _ H. apply numbered_name_inj in H as [_ H].
  apply decimal_inj in H. lia.
Qed.

(** ** The preview URLs stay valid *)

(** What the user can do to the list. *)
Inductive Action :=
| Select (now : nat -> N) (files : list BrowserFile)
| Move (index : nat) (direction : Z)
| Remove (index : nat).

(** The buttons of an entry exist for the entries shown, and move by one. *)
Definition enabled (a : Action) (s : State) : Prop :=
  match a with
  | Select _ _ => True
  | Move index direction =>
      (index < length (mediaFiles s))%nat /\ (direction = 1 \/ direction = -1)%Z
  | Remove index => (index < length (mediaFiles s))%nat
  end.

(** What the handler of an action does. *)
Definition act (a : Action) (s : State) (b : Browser) : Result (State * Browser) :=
  match a with
  | Select now files => handleMediaChange now files s b
  | Move index direction =>
      Done (with_media s (moveItem index direction (mediaFiles s)), b)
  | Remove index =>
      let '(l, b') := removeItem index (mediaFiles s) b in
      Done (with_media s l, b')
  end.

(** What evaluating the JSX of the page does to the browser: with a
    recording, [src={URL.createObjectURL(recordedAudio)}] of the audio
    element makes a new object URL, which nothing revokes. *)
Definition render (s : State) (b : Browser) : Browser :=
  match recordedAudio s with
  | Some _ => snd (createObjectURL b)
  | None => b
  end.

(** An action of the user: its handler, then the page is rendered with the
    new state, [renders] times (how often React calls the component after a
    change of state is up to React: not at all when a handler sets no state,
    twice in strict mode). *)
Definition step (a : Action) (renders : nat) (s : State) (b : Browser)
  : Result (State * Browser) :=
  match act a s b with
  | Done (s', b') => Done (s', Nat.iter renders (render s') b')
  | TypeError => TypeError
  end.

(** The object URLs [n] renders leave behind. *)
Definition leaks (n : nat) (s : State) : nat :=
  match recordedAudio s with Some _ => n | None => 0%nat end.

(** Every entry is defined, no two entries share a preview URL, every
    preview URL is live, and every live URL is one the browser handed out. *)
Definition valid (s : State) (b : Browser) : Prop :=
  all_defined (mediaFiles s) /\
  NoDup (previews (mediaFiles s)) /\
  (forall u, u ∈ previews (mediaFiles s) -> u ∈ live b) /\
  (forall u, u ∈ live b -> exists n, (n < minted b)%nat /\ u = blob_url n).

(** The live URLs that are not previews of the list. *)
Definition other_urls (s : State) (b : Browser) : gset string :=
  live b ∖ list_to_set (previews (mediaFiles s)).

Lemma previews_perm l l' : l ≡ₚ l' -> previews l ≡ₚ previews l'.
Proof.
  induction 1 as [|x l l' _ IH|x y l|l1 l2 l3 _ IH1 _ IH2].
  - reflexivity.
  - destruct x; cbn; [rewrite IH; reflexivity | exact IH].
  - destruct x, y; cbn; try reflexivity. apply perm_swap.
  - etransitivity; eassumption.
Qed.

Lemma moveItem_perm {A} index direction (prev : list (option A)) :
  (index < length prev)%nat -> moveItem index direction prev ≡ₚ prev.
Proof.
  intros Hi.
  destruct (decide (0 <= Z.of_nat index + direction < Z.of_nat (length prev))%Z) as [Hj|Hj].
  - assert (Hlj : (Z.to_nat (Z.of_nat index + direction) < length prev)%nat) by lia.
    destruct (lookup_lt_is_Some_2 prev index Hi) as [x Hx].
    destruct (lookup_lt_is_Some_2 prev _ Hlj) as [y Hy].
    rewrite (moveItem_in index direction prev x y (proj1 Hj) Hx Hy).
    apply swap_perm; assumption.
  - unfold moveItem. cbv zeta.
    destruct (Z.of_nat index + direction <? 0)%Z eqn:E1; [reflexivity|].
    destruct (Z.of_nat index + direction >=? Z.of_nat (length prev))%Z eqn:E2;
      [reflexivity|]. lia.
Qed.

(** The handlers keep the previews valid and touch no other live URL. *)
Lemma act_keeps_previews a s b :
  valid s b -> enabled a s ->
  exists s' b',
    act a s b = Done (s', b') /\
    valid s' b' /\
    other_urls s' b' = other_urls s b.
Proof.
  intros (Hdef & Hnd & Hlive & Hmint) Hen.
  pose proof Hdef as Hdef'. apply all_defined_fmap in Hdef' as [ms Hms].
  destruct a as [now files|index direction|index]; cbn [act enabled] in *.
  - destruct files as [|f files].
    + exists s, b. split; [reflexivity|]. split; [repeat split; assumption | reflexivity].
    + eexists _, _. split; [exact (handleMediaChange_eq now f files s b ms Hms)|].
      set (n := length (f :: files)).
      set (new := blob_url <$> seq (minted b) n).
      assert (Hpre : previews (imap (fun k g => Some (item_at now 0 (minted b) k g)) (f :: files))
                     = new).
      { unfold new, n. generalize (f :: files) as l. generalize (minted b) as m0.
        generalize 0%nat as i. intros i m0 l. revert i m0.
        induction l as [|g l IH]; intros i m0; [reflexivity|].
        rewrite imap_cons. cbn [previews length seq fmap list_fmap].
        f_equal; [unfold item_at; cbn; rewrite Nat.add_0_r; reflexivity|].
        rewrite <- (IH (S i) (S m0)). f_equal. apply imap_ext. intros k h _. cbn.
        unfold item_at. replace (i + S k)%nat with (S i + k)%nat by lia.
        replace (m0 + S k)%nat with (S m0 + k)%nat by lia. reflexivity. }
      assert (Hfresh : forall u, u ∈ new -> u ∉ live b).
      { intros u Hu Hl. apply list_elem_of_fmap in Hu as (k & -> & Hk).
        apply elem_of_seq in Hk. destruct (Hmint _ Hl) as (k' & Hk' & Heq).
        apply blob_url_inj in Heq. lia. }
      rewrite Hms, previews_fmap in *.
      unfold valid, other_urls. cbn [mediaFiles live minted].
      rewrite Hpre, ?Hms, ?previews_fmap.
      split; [split; [|split; [|split]]|].
      * apply all_defined_fmap.
        exists (imap (fun k g => item_at now 0 (minted b) k g) (f :: files)).
        clear. generalize (minted b) as m0. generalize 0%nat as i.
        generalize (f :: files) as l. intros l. 
        induction l as [|g l IH]; intros i m0; [reflexivity|].
        rewrite !imap_cons. cbn [fmap list_fmap]. f_equal.
        specialize (IH (S i) (S m0)).
        erewrite (imap_ext _ (fun k g => Some (item_at now (S i) (S m0) k g))), IH.
        -- f_equal. apply imap_ext. intros k h _. cbn. unfold item_at.
           replace (i + S k)%nat with (S i + k)%nat by lia.
           replace (m0 + S k)%nat with (S m0 + k)%nat by lia. reflexivity.
        -- intros k h _. cbn. unfold item_at.
           replace (i + S k)%nat with (S i + k)%nat by lia.
           replace (m0 + S k)%nat with (S m0 + k)%nat by lia. reflexivity.
      * unfold new. apply NoDup_fmap_2_strong; [|apply NoDup_seq].
        intros k k' _ _ H. apply blob_url_inj, H.
      * intros u Hu. apply elem_of_union. left. apply elem_of_list_to_set, Hu.
      * intros u Hu. apply elem_of_union in Hu as [Hu|Hu].
        -- apply elem_of_list_to_set in Hu. unfold new in Hu.
           apply list_elem_of_fmap in Hu as (k & -> & Hk). apply elem_of_seq in Hk.
           exists k. split; [unfold n in Hk; lia | reflexivity].
        -- apply elem_of_difference in Hu as [Hu _].
           destruct (Hmint _ Hu) as (k & Hk & ->). exists k. split; [lia | reflexivity].
      * apply set_eq. intros u. rewrite !elem_of_difference, elem_of_union,
          !elem_of_list_to_set, elem_of_difference, elem_of_list_to_set.
        split; [tauto|]. intros [Hl Hn]. split; [|intros Hu; exact (Hfresh _ Hu Hl)].
        right. auto.
  - destruct Hen as [Hi _].
    pose proof (moveItem_perm index direction (mediaFiles s) Hi) as Hp.
    pose proof (previews_perm _ _ Hp) as Hpp.
    eexists _, _. split; [reflexivity|].
    unfold valid, other_urls. cbn [with_media mediaFiles].
    split; [split; [|split; [|split]]|].
    + unfold all_defined. rewrite Hp. exact Hdef.
    + rewrite Hpp. exact Hnd.
    + intros u Hu. apply Hlive. rewrite <- Hpp. exact Hu.
    + exact Hmint.
    + f_equal. apply set_eq. intros u. rewrite !elem_of_list_to_set, Hpp. reflexivity.
  - rename Hen into Hi. rewrite Hms in *. rewrite length_fmap in Hi.
    destruct (lookup_lt_is_Some_2 ms index Hi) as [m Hm].
    rewrite previews_fmap in *.
    assert (Hu : previewUrl m ∈ previewUrl <$> ms).
    { apply list_elem_of_fmap. exists m. split; [reflexivity|].
      apply list_elem_of_lookup. eauto. }
    assert (Hne : String.eqb (previewUrl m) EmptyString = false).
    { destruct (Hmint _ (Hlive _ Hu)) as (k & _ & ->). reflexivity. }
    assert (Hrem : removeItem index (Some <$> ms) b =
                   (Some <$> delete index ms, revokeObjectURL (previewUrl m) b)).
    { unfold removeItem. cbv zeta.
      rewrite (js_get_lookup (Some <$> ms) index (Some m))
        by (rewrite list_lookup_fmap, Hm; reflexivity).
      rewrite Hne, list_fmap_delete. reflexivity. }
    rewrite Hrem. eexists _, _. split; [reflexivity|].
    unfold valid, other_urls. cbn [with_media mediaFiles revokeObjectURL live minted].
    rewrite ?Hms, ?previews_fmap.
    pose proof (delete_Permutation (previewUrl <$> ms) index (previewUrl m)) as Hperm.
    rewrite list_lookup_fmap, Hm in Hperm. specialize (Hperm eq_refl).
    rewrite <- list_fmap_delete in Hperm.
    assert (Hnd' : NoDup (previewUrl m :: (previewUrl <$> delete index ms)))
      by (rewrite <- Hperm; exact Hnd).
    apply NoDup_cons in Hnd' as [Hnot Hnd'].
    split; [split; [|split; [|split]]|].
    + apply all_defined_fmap. eauto.
    + exact Hnd'.
    + intros u Hin. apply elem_of_difference. split.
      * apply Hlive. rewrite Hperm. right. exact Hin.
      * intros Heq. apply elem_of_singleton in Heq. subst u. contradiction.
    + intros u Hin. apply elem_of_difference in Hin as [Hin _]. apply Hmint, Hin.
    + apply set_eq. intros u.
      rewrite !elem_of_difference, !elem_of_list_to_set, elem_of_singleton.
      rewrite (Hperm : (previewUrl <$> ms) ≡ₚ _), elem_of_cons. tauto.
Qed.

(** ** Sending the request *)

(** The handlers keep the recording and revoke no number the browser has
    handed out. *)
Lemma act_mints a s b s' b' :
  all_defined (mediaFiles s) ->
  act a s b = Done (s', b') ->
  recordedAudio s' = recordedAudio s /\ (minted b <= minted b')%nat.
Proof.
  intros Hdef H. apply all_defined_fmap in Hdef as [ms Hms].
  destruct a as [now [|f files]|index direction|index]; cbn [act] in H.
  - injection H as <- <-. auto.
  - rewrite (handleMediaChange_eq now f files s b ms Hms) in H.
    injection H as <- <-. cbn [recordedAudio minted]. split; [reflexivity | lia].
  - injection H as <- <-. auto.
  - unfold removeItem in H. cbv zeta in H.
    destruct (js_get (mediaFiles s) index) as [m|];
      [destruct (String.eqb (previewUrl m) EmptyString)|];
      injection H as <- <-; auto.
Qed.

Lemma renders_eq n s b :
  Nat.iter n (render s) b =
    {| live := list_to_set (blob_url <$> seq (minted b) (leaks n s)) ∪ live b;
       minted := (minted b + leaks n s)%nat |}.
Proof.
  induction n as [|n IH].
  - unfold leaks. destruct (recordedAudio s), b as [lv mt]; cbn;
      (f_equal; [set_solver | lia]).
  - rewrite Nat.iter_succ, IH. unfold leaks, render.
    destruct (recordedAudio s) as [blob|]; [|reflexivity].
    cbn [createObjectURL snd live minted].
    f_equal; [|lia]. rewrite seq_S, fmap_app. cbn [fmap list_fmap].
    apply set_eq. intros u.
    rewrite !elem_of_union, !elem_of_list_to_set, elem_of_app, list_elem_of_singleton,
      elem_of_singleton. tauto.
Qed.

(** X13: from a state where the previews are valid, whatever the user does
    next (select files, move a shown entry up or down, remove a shown entry)
    ends without an exception and leaves the previews valid: the preview of
    every entry shown is a live URL of its own, and no preview of an entry
    that is gone stays live.  No other live URL is revoked; with a
    recording, each time the page is rendered one more URL is left live. *)
Theorem previews_stay_valid a n s b :
  valid s b -> enabled a s ->
  exists s' b',
    step a n s b = Done (s', b') /\
    valid s' b' /\
    (forall u, u ∈ previews (mediaFiles s) -> u ∉ previews (mediaFiles s') -> u ∉ live b') /\
    other_urls s b ⊆ other_urls s' b' /\
    size (other_urls s' b') = (size (other_urls s b) + leaks n s)%nat.
Proof.
  intros Hv Hen.
  destruct (act_keeps_previews a s b Hv Hen) as (s1 & b1 & Hact & Hv1 & Hoth).
  destruct (act_mints a s b s1 b1 (proj1 Hv) Hact) as [Hrec Hmono].
  destruct Hv as (_ & _ & Hlive & Hmint).
  destruct Hv1 as (Hdef1 & Hnd1 & Hlive1 & Hmint1).
  exists s1, (Nat.iter n (render s1) b1).
  unfold step. rewrite Hact. split; [reflexivity|].
  rewrite renders_eq. unfold leaks. rewrite Hrec. fold (leaks n s).
  set (k := leaks n s). set (fresh := blob_url <$> seq (minted b1) k).
  assert (Hfresh : forall u, u ∈ fresh -> exists j, (minted b1 <= j < minted b1 + k)%nat /\
                                                  u = blob_url j).
  { intros u Hu. apply list_elem_of_fmap in Hu as (j & -> & Hj).
    apply elem_of_seq in Hj. eauto. }
  assert (Hnew : forall u, u ∈ fresh -> u ∉ live b1).
  { intros u Hu Hl. destruct (Hfresh u Hu) as (j & Hj & ->).
    destruct (Hmint1 _ Hl) as (j' & Hj' & Heq). apply blob_url_inj in Heq. lia. }
  assert (Heq : other_urls s1 {| live := list_to_set fresh ∪ live b1;
                                 minted := (minted b1 + k)%nat |} =
                list_to_set fresh ∪ other_urls s b).
  { rewrite <- Hoth. unfold other_urls. cbn [live]. apply set_eq. intros u.
    rewrite elem_of_difference, !elem_of_union, elem_of_difference, !elem_of_list_to_set.
    split; [tauto|]. intros [Hu|[Hu Hn]]; [|tauto].
    split; [tauto|]. intros Hp. exact (Hnew u Hu (Hlive1 u Hp)). }
  split; [split; [exact Hdef1|split; [exact Hnd1|split]]|].
  - intros u Hu. cbn [live]. apply elem_of_union. right. exact (Hlive1 u Hu).
  - intros u Hu. cbn [live minted] in *. apply elem_of_union in Hu as [Hu|Hu].
    + apply elem_of_list_to_set in Hu. destruct (Hfresh u Hu) as (j & Hj & ->).
      exists j. split; [lia | reflexivity].
    + destruct (Hmint1 u Hu) as (j & Hj & ->). exists j. split; [lia | reflexivity].
  - split; [|split].
    + intros u Hu Hgone Hl. cbn [live] in Hl. apply elem_of_union in Hl as [Hl|Hl].
      * apply elem_of_list_to_set in Hl. destruct (Hfresh u Hl) as (j & Hj & ->).
        destruct (Hmint _ (Hlive _ Hu)) as (j' & Hj' & Heq').
        apply blob_url_inj in Heq'. lia.
      * assert (Ho : u ∈ other_urls s1 b1).
        { unfold other_urls. apply elem_of_difference. split; [exact Hl|].
          rewrite elem_of_list_to_set. exact Hgone. }
        rewrite Hoth in Ho. unfold other_urls in Ho.
        apply elem_of_difference in Ho as [_ Ho].
        apply Ho. apply elem_of_list_to_set. exact Hu.
    + rewrite Heq. apply union_subseteq_r.
    + rewrite Heq, size_union.
      * rewrite size_list_to_set.
        -- unfold fresh. rewrite length_fmap, length_seq. lia.
        -- unfold fresh. apply NoDup_fmap_2_strong; [|apply NoDup_seq].
           intros j j' _ _ H. apply blob_url_inj, H.
      * intros u Hu Ho. apply elem_of_list_to_set in Hu.
        rewrite <- Hoth in Ho. unfold other_urls in Ho.
        apply elem_of_difference in Ho as [Ho _].
        exact (Hnew u Hu Ho).
Qed.

Lemma media_parts_fmap ms :
  media_parts (Some <$> ms) = Done (MediaPart <$> (file <$> ms)).
Proof.
  induction ms as [|m ms IH]; [reflexivity|].
  cbn [fmap list_fmap media_parts].
  change (match media_parts (Some <$> ms) with
          | Done ps => Done (MediaPart (file m) :: ps)
          | TypeError => TypeError
          end = Done (MediaPart (file m) :: (MediaPart <$> (file <$> ms)))).
  rewrite IH. reflexivity.
Qed.

(** X14: with every entry of the list defined, [handleCreateVideo] posts a
    form only when the list is not empty and there is a recording: then the
    form holds the files of the list, in the order of the list, followed by
    the one recording under the name background-audio.webm, and the page is
    marked as creating.  Otherwise nothing is posted and a message says what
    is missing.  In both cases the previous download link is dropped first. *)
Theorem create_posts_only_a_complete_form s :
  all_defined (mediaFiles s) ->
  match handleCreateVideo_submit s with
  | Done (Posted s' form) =>
      mediaFiles s <> [] /\
      (exists blob ms,
         recordedAudio s = Some blob /\ mediaFiles s = Some <$> ms /\
         form = (MediaPart <$> (file <$> ms)) ++ [AudioPart blob "background-audio.webm"]) /\
      isCreating s' = true /\ errorMessage s' = EmptyString /\ downloadUrl s' = None
  | Done (GaveUp s') =>
      ((mediaFiles s = [] /\
        errorMessage s' = "Please select at least one photo or video.") \/
       (mediaFiles s <> [] /\ recordedAudio s = None /\
        errorMessage s' = "Please record background audio first.")) /\
      isCreating s' = isCreating s /\ downloadUrl s' = None
  | TypeError => False
  end.
Proof.
  intros Hdef. apply all_defined_fmap in Hdef as [ms Hms].
  unfold handleCreateVideo_submit. cbv zeta. cbn [reset_for_create mediaFiles recordedAudio].
  rewrite Hms. destruct ms as [|m ms].
  - cbn. auto.
  - destruct (Some <$> (m :: ms)) as [|x l] eqn:E; [discriminate|].
    destruct (recordedAudio s) as [blob|] eqn:Ha.
    + rewrite <- E, media_parts_fmap. cbn [isCreating errorMessage downloadUrl].
      split; [discriminate|]. split; [|auto].
      exists blob, (m :: ms). auto.
    + cbn. split; [|auto]. right. split; [discriminate | auto].
Qed.

(** X15: what the page shows after the server has answered.  For every
    request, whatever the tool does, the server's answer is a JSON reply or
    the download, never an exception; after a JSON reply the page shows
    exactly the server's error text, keeps its download link and is no longer
    creating; after the download it holds a fresh URL for the video and
    leaves its message as it was. *)
Theorem page_shows_the_servers_error dirname ffmpeg_bin req e blob s b :
  match fst (fst (serve dirname ffmpeg_bin req e)) with
  | Returned (Replied status msg) =>
      handleCreateVideo_settle (fetched_from (Replied status msg) blob) s b =
        ({| mediaFiles := mediaFiles s; recordedAudio := recordedAudio s;
            isCreating := false; downloadUrl := downloadUrl s; errorMessage := msg |}, b)
  | Returned (Streaming hd d) =>
      handleCreateVideo_settle (fetched_from (Streaming hd d) blob) s b =
        ({| mediaFiles := mediaFiles s; recordedAudio := recordedAudio s;
            isCreating := false; downloadUrl := Some (blob_url (minted b));
            errorMessage := errorMessage s |},
         {| live := {[blob_url (minted b)]} ∪ live b; minted := S (minted b) |})
  | Thrown _ => False
  end.
Proof.
  pose proof (serve_outcomes dirname ffmpeg_bin req e) as H.
  destruct (fst (fst (serve dirname ffmpeg_bin req e))) as [[status msg|hd d]|err];
    [|reflexivity|exact H].
  unfold json_replies in H.
  repeat (apply elem_of_cons in H as [H|H]; [injection H as -> ->; reflexivity|]).
  inversion H.
Qed.

(** ** A worked page *)

Definition png : BrowserFile := {| name := "a.png"; type := "image/png" |}.
Definition mp4 : BrowserFile := {| name := "b.mp4"; type := "video/mp4" |}.
Definition txt : BrowserFile := {| name := "notes.txt"; type := "text/plain" |}.

Definition first_item : MediaItem :=
  {| id := "1700000000000-0"; file := png; label := "image"; previewUrl := blob_url 0 |}.
Definition second_item : MediaItem :=
  {| id := "1700000000000-1"; file := mp4; label := "video"; previewUrl := blob_url 1 |}.
Definition third_item : MediaItem :=
  {| id := "1700000000000-2"; file := txt; label := "video"; previewUrl := blob_url 2 |}.

Definition demo_list : list (option MediaItem) :=
  [Some first_item; Some second_item; Some third_item].

Definition demo_state : State :=
  {| mediaFiles := demo_list; recordedAudio := Some "recording";
     isCreating := false; downloadUrl := Some (blob_url 3); errorMessage := "old message" |}.

Definition demo_browser : Browser :=
  {| live := {[blob_url 0; blob_url 1; blob_url 2; blob_url 3]}; minted := 4 |}.

Lemma demo_list_defined : all_defined demo_list.
Proof. repeat constructor; eexists; reflexivity. Defined.

Lemma demo_state_valid : valid demo_state demo_browser.
Proof.
  split; [exact demo_list_defined|]. split; [|split].
  - cbn. repeat (constructor; [intros H; repeat (apply elem_of_cons in H as [H|H];
      [apply blob_url_inj in H; discriminate H|]); inversion H|]). constructor.
  - intros u Hu. cbn in Hu. unfold demo_browser. cbn [live].
    repeat (apply elem_of_cons in Hu as [->|Hu]; [set_solver|]). inversion Hu.
  - intros u Hu. unfold demo_browser in *. cbn [live minted] in *.
    apply elem_of_union in Hu as [Hu|Hu]; [apply elem_of_union in Hu as [Hu|Hu];
      [apply elem_of_union in Hu as [Hu|Hu]|]|];
      apply elem_of_singleton in Hu; subst u;
      [exists 0%nat | exists 1%nat | exists 2%nat | exists 3%nat]; (split; [lia | reflexivity]).
Defined.

Lemma moveItem_exchanges_two_entries_witness :
  (1 < length demo_list)%nat /\
  (0 <= Z.of_nat 1 + 1 < Z.of_nat (length demo_list))%Z /\
  moveItem 1 1 demo_list = [Some first_item; Some third_item; Some second_item] /\
  moveItem 1 1 demo_list ≡ₚ demo_list /\
  (Z.of_nat (length demo_list) <= Z.of_nat 2 + 1)%Z /\
  moveItem 2 1 demo_list = demo_list.
Proof.
  assert (H1 : (1 < length demo_list)%nat) by (cbn; lia).
  assert (H2 : (0 <= Z.of_nat 1 + 1 < Z.of_nat (length demo_list))%Z) by (cbn; lia).
  assert (H3 : (Z.of_nat (length demo_list) <= Z.of_nat 2 + 1)%Z) by (cbn; lia).
  split; [exact H1|]. split; [exact H2|]. split; [reflexivity|].
  split.
  - exact (proj2 (proj2 (proj2 (proj2
             (proj1 (moveItem_exchanges_two_entries 1 1 demo_list) H1 H2))))).
  - split; [exact H3|].
    exact (proj2 (moveItem_exchanges_two_entries 2 1 demo_list) (or_intror H3)).
Defined.

Lemma moveItem_back_restores_witness :
  (1 < length demo_list)%nat /\
  (0 <= Z.of_nat 1 + 1 < Z.of_nat (length demo_list))%Z /\
  moveItem 2 (-1) (moveItem 1 1 demo_list) = demo_list.
Proof.
  assert (H1 : (1 < length demo_list)%nat) by (cbn; lia).
  assert (H2 : (0 <= Z.of_nat 1 + 1 < Z.of_nat (length demo_list))%Z) by (cbn; lia).
  split; [exact H1|]. split; [exact H2|].
  exact (moveItem_back_restores 1 1 demo_list H1 H2).
Defined.

Lemma labels_agree_with_server_witness :
  kind_of {| path := "/srv/uploads/1-a.png"; mimetype := Some "image/png" |} = Some Image /\
  label_of "image/png" = "image" /\
  kind_of {| path := "/srv/uploads/1-b.mp4"; mimetype := Some "video/mp4" |} = Some Video /\
  label_of "video/mp4" = "video".
Proof.
  split; [reflexivity|].
  split; [exact (proj1 (labels_agree_with_server "/srv/uploads/1-a.png" "image/png") eq_refl)|].
  split; [reflexivity|].
  exact (proj1 (proj2 (labels_agree_with_server "/srv/uploads/1-b.mp4" "video/mp4")) eq_refl).
Defined.

Lemma handleMediaChange_lists_the_selection_witness :
  all_defined (mediaFiles demo_state) /\
  exists s' b',
    handleMediaChange (fun _ => 1700000000500) [mp4; png] demo_state demo_browser =
      Done (s', b') /\
    length (mediaFiles s') = 2%nat /\
    (forall k g, [mp4; png] !! k = Some g ->
       exists m, mediaFiles s' !! k = Some (Some m) /\
                 file m = g /\ label m = label_of (type g)) /\
    NoDup (id <$> omap (fun x => x) (mediaFiles s')) /\
    errorMessage s' = EmptyString /\
    recordedAudio s' = recordedAudio demo_state /\
    downloadUrl s' = downloadUrl demo_state.
Proof.
  split; [exact demo_list_defined|].
  exact (proj2 (handleMediaChange_lists_the_selection
                  (fun _ => 1700000000500) demo_state demo_browser)
           mp4 [png] demo_list_defined).
Defined.

Lemma previews_stay_valid_witness :
  valid demo_state demo_browser /\
  enabled (Remove 1) demo_state /\
  recordedAudio demo_state = Some "recording" /\
  exists s' b',
    step (Remove 1) 2 demo_state demo_browser = Done (s', b') /\
    valid s' b' /\
    (forall u, u ∈ previews (mediaFiles demo_state) -> u ∉ previews (mediaFiles s') ->
       u ∉ live b') /\
    other_urls demo_state demo_browser ⊆ other_urls s' b' /\
    size (other_urls s' b') = (size (other_urls demo_state demo_browser) + 2)%nat.
Proof.
  assert (He : enabled (Remove 1) demo_state) by (cbn; lia).
  split; [exact demo_state_valid|]. split; [exact He|]. split; [reflexivity|].
  exact (previews_stay_valid (Remove 1) 2 demo_state demo_browser demo_state_valid He).
Defined.

Lemma create_posts_only_a_complete_form_witness :
  all_defined (mediaFiles demo_state) /\
  handleCreateVideo_submit demo_state =
    Done (Posted {| mediaFiles := demo_list; recordedAudio := Some "recording";
                    isCreating := true; downloadUrl := None; errorMessage := EmptyString |}
                 [MediaPart png; MediaPart mp4; MediaPart txt;
                  AudioPart "recording" "background-audio.webm"]) /\
  match handleCreateVideo_submit demo_state with
  | Done (Posted s' form) =>
      mediaFiles demo_state <> [] /\
      (exists blob ms,
         recordedAudio demo_state = Some blob /\ mediaFiles demo_state = Some <$> ms /\
         form = (MediaPart <$> (file <$> ms)) ++ [AudioPart blob "background-audio.webm"]) /\
      isCreating s' = true /\ errorMessage s' = EmptyString /\ downloadUrl s' = None
  | Done (GaveUp s') =>
      ((mediaFiles demo_state = [] /\
        errorMessage s' = "Please select at least one photo or video.") \/
       (mediaFiles demo_state <> [] /\ recordedAudio demo_state = None /\
        errorMessage s' = "Please record background audio first.")) /\
      isCreating s' = isCreating demo_state /\ downloadUrl s' = None
  | TypeError => False
  end.
Proof.
  split; [exact demo_list_defined|]. split; [reflexivity|].
  exact (create_posts_only_a_complete_form demo_state demo_list_defined).
Defined.

End App.

(** ** More worked requests *)

(** A tool that accepts everything. *)
Definition steady_tool : FfmpegCmd -> Env -> ToolOutcome :=
  fun _ _ => ToolEnd (Clip still_clip) 1.

(** The worked environment without the audio upload. *)
Definition silent_env : Env :=
  {| files := delete (path recording) (files demo_env); clock := clock demo_env |}.

Lemma broken_run_eq :
  serve demo_dir ffmpeg_model broken_req demo_env =
    (fst (fst broken_run), snd (fst broken_run), snd broken_run).
Proof. vm_compute. reflexivity. Defined.

Lemma segments_never_collide_witness :
  serve demo_dir ffmpeg_model demo_req demo_env =
    (Returned (Streaming download_headers demo_delivery), demo_after, demo_trace) /\
  NoDup (segmentPaths demo_delivery) /\
  length (segmentPaths demo_delivery) = length (classify 0 (mediaFiles demo_delivery)).
Proof.
  split; [exact demo_run_eq|].
  exact (segments_never_collide demo_dir ffmpeg_model demo_req demo_env _ _ _ _ demo_run_eq).
Defined.

Lemma pipeline_keeps_to_its_folders_witness :
  serve demo_dir ffmpeg_model broken_req demo_env =
    (fst (fst broken_run), snd (fst broken_run), snd broken_run) /\
  (forall p, written (snd broken_run) p -> in_temp demo_dir p \/ in_output demo_dir p) /\
  (forall p, outside demo_dir p -> p ∉ unlinked (snd broken_run) ->
     files (snd (fst broken_run)) !! p = files demo_env !! p) /\
  (forall p, p ∈ unlinked (snd broken_run) ->
     exists hd d, fst (fst broken_run) = Returned (Streaming hd d) /\ p ∈ doomed d).
Proof.
  split; [exact broken_run_eq|].
  exact (pipeline_keeps_to_its_folders demo_dir ffmpeg_model broken_req demo_env
           _ _ _ broken_run_eq).
Defined.


Lemma working_tool_streams_witness :
  (forall cmd e0, exists c dt, steady_tool cmd e0 = ToolEnd c dt) /\
  (exists f, f ∈ photo :: [notes; movie] /\ kind_of f <> None) /\
  exists d e' t,
    serve demo_dir steady_tool
      {| media := Some (photo :: [notes; movie]); audio := Some (recording :: []) |}
      silent_env =
      (Returned (Streaming download_headers d), e', t) /\
    mediaFiles d = photo :: [notes; movie] /\ audioFile d = recording /\
    length (segmentPaths d) = length (classify 0 (photo :: [notes; movie])).
Proof.
  assert (Hok : forall cmd e0, exists c dt, steady_tool cmd e0 = ToolEnd c dt)
    by (intros cmd e0; eexists _, _; reflexivity).
  assert (Hf : exists f, f ∈ photo :: [notes; movie] /\ kind_of f <> None)
    by (exists photo; split; [left | discriminate]).
  split; [exact Hok|]. split; [exact Hf|].
  exact (working_tool_streams demo_dir steady_tool photo [notes; movie] recording []
           silent_env Hok Hf).
Defined.

(** Two requests whose recordings were stored in the same millisecond:
    they share the audio upload.  Both are handled before either response
    stream closes. *)
Definition first_req : Request :=
  {| media := Some [photo]; audio := Some [recording] |}.
Definition second_req : Request :=
  {| media := Some [photo2]; audio := Some [recording] |}.

Definition first_delivery : Delivery :=
  {| outputPath := "/srv/it's/outputs/final-1700000000002.mp4";
     audioFile := recording;
     mediaFiles := [photo];
     segmentPaths := ["/srv/it's/temp/img-1700000000000-0.mp4"];
     concatListPath := "/srv/it's/temp/concat-list-1700000000001.txt" |}.

Definition second_delivery : Delivery :=
  {| outputPath := "/srv/it's/outputs/final-1700000000005.mp4";
     audioFile := recording;
     mediaFiles := [photo2];
     segmentPaths := ["/srv/it's/temp/img-1700000000003-0.mp4"];
     concatListPath := "/srv/it's/temp/concat-list-1700000000004.txt" |}.

Definition both_handled : Outcome (Handled * Handled) * Env * list Event :=
  Eval vm_compute in
    (h1 <- create_video demo_dir ffmpeg_model first_req ;;
     h2 <- create_video demo_dir ffmpeg_model second_req ;;
     ret (h1, h2)) demo_env.

Definition first_closed : Outcome unit * Env * list Event :=
  Eval vm_compute in on_close first_delivery (snd (fst both_handled)).

Lemma missing_audio_upload_blocks_cleanup_witness :
  (h1 <- create_video demo_dir ffmpeg_model first_req ;;
   h2 <- create_video demo_dir ffmpeg_model second_req ;;
   ret (h1, h2)) demo_env =
    (Returned (Streaming download_headers first_delivery,
               Streaming download_headers second_delivery),
     snd (fst both_handled), snd both_handled) /\
  on_close first_delivery (snd (fst both_handled)) =
    (Returned tt, snd (fst first_closed), snd first_closed) /\
  path (audioFile first_delivery) = path (audioFile second_delivery) /\
  files (snd (fst first_closed)) !! path (audioFile second_delivery) = None /\
  on_close second_delivery (snd (fst first_closed)) =
    (Returned tt, snd (fst first_closed),
     [ConsoleError
        [LStr "Cleanup error:";
         LStr "ENOENT: no such file or directory, unlink '/srv/it's/uploads/1700000000000-background-audio.webm'"]]) /\
  is_Some (files (snd (fst first_closed)) !! path photo2) /\
  is_Some (files (snd (fst first_closed)) !! "/srv/it's/temp/img-1700000000003-0.mp4") /\
  is_Some (files (snd (fst first_closed)) !! concatListPath second_delivery).
Proof.
  assert (Hrun : on_close first_delivery (snd (fst both_handled)) =
                 (Returned tt, snd (fst first_closed), snd first_closed))
    by (vm_compute; reflexivity).
  pose proof (proj2 (missing_audio_upload_blocks_cleanup second_delivery
                       (snd (fst first_closed)))
                first_delivery _ _ Hrun eq_refl) as Hgone.
  split; [vm_compute; reflexivity|]. split; [exact Hrun|]. split; [reflexivity|].
  split; [exact Hgone|].
  split; [exact (proj1 (missing_audio_upload_blocks_cleanup second_delivery
                          (snd (fst first_closed))) Hgone)|].
  split; [vm_compute; eauto|]. split; vm_compute; eauto.
Defined.
